(** * vizmap: selection masks, frame cache and frame processing

    A shallow embedding of the Python package [vizmap]
    ([selection.py], [layer.py], [processing.py]) and the properties of
    its selection engine, its frame cache and its frame normalisation
    and arrow geometry.

    Conventions.
    - Python exceptions are values of [Py.exn]; a function that can raise
      returns a [Py.result].
    - Python integers are [Z]; list and array indexing follows Python
      (a negative index counts from the end, an index out of range raises
      [IndexError]).
    - Coordinates (latitudes, longitudes, radii) are rationals [Q]: the
      selection code only compares them and the float values are a subset
      of the rationals with the same order. The one division of
      [get_circle_y_bounds] is exact here, rounded in Python.
    - Values of a raster slice are binary64 floats ([PrimFloat]), with NaN
      and the infinities, as numpy has them.
    - The arrow geometry uses sine, cosine and arctangent: it is stated
      over the real numbers. *)

From Stdlib Require Import ZArith QArith Reals Lra Lia Floats String.
From stdpp Require Import base list.

Set Default Proof Using "Type".

(** ** Python values and control *)

Module Py.

Inductive exn : Type :=
| IndexError
| TypeError
| ValueError
| KeyError
| NameError
| MaskError.

Inductive result (A : Type) : Type :=
| Ok (a : A)
| Raise (e : exn).
Arguments Ok {A} a.
Arguments Raise {A} e.

Definition bind {A B} (r : result A) (k : A -> result B) : result B :=
  match r with
  | Ok a => k a
  | Raise e => Raise e
  end.

Definition is_ok {A} (r : result A) : bool :=
  match r with Ok _ => true | Raise _ => false end.

(** [len(l)] *)
Definition len {A} (l : list A) : Z := Z.of_nat (length l).

(** The position a Python index [i] denotes in a sequence of [n]
    elements. *)
Definition norm_index (n i : Z) : result nat :=
  if ((0 <=? i) && (i <? n))%Z then Ok (Z.to_nat i)
  else if ((- n <=? i) && (i <? 0))%Z then Ok (Z.to_nat (i + n))
  else Raise IndexError.

(** [l[i]] *)
Definition getitem {A} (l : list A) (i : Z) : result A :=
  bind (norm_index (len l) i) (fun k =>
    match l !! k with
    | Some x => Ok x
    | None => Raise IndexError
    end).

(** [l[i] = v] *)
Definition setitem {A} (l : list A) (i : Z) (v : A) : result (list A) :=
  bind (norm_index (len l) i) (fun k => Ok (<[k:=v]> l)).

(** [range(lo, hi)] *)
Definition range (lo hi : Z) : list Z :=
  map (fun k => (lo + Z.of_nat k)%Z) (seq 0 (Z.to_nat (hi - lo))).

(** The bound a slice index [i] denotes in a sequence of [n] elements:
    a negative index counts from the end, and the result is clipped to
    [0..n]. *)
Definition slice_bound (n i : Z) : Z :=
  if (i <? 0)%Z then Z.max 0 (i + n) else Z.min i n.

(** [k] lies in the slice [lo:hi] of a sequence of [n] elements. *)
Definition in_slice (n lo hi : Z) (k : nat) : bool :=
  ((slice_bound n lo <=? Z.of_nat k) && (Z.of_nat k <? slice_bound n hi))%Z.

(** [l[lo:hi]] *)
Definition getslice {A} (l : list A) (lo hi : Z) : list A :=
  let a := Z.to_nat (slice_bound (len l) lo) in
  let b := Z.to_nat (slice_bound (len l) hi) in
  take (b - a) (drop a l).

(** [for x in xs: s = body(x, s)], stopping at the first exception. *)
Fixpoint for_each {A S} (xs : list A) (body : A -> S -> result S) (s : S)
  : result S :=
  match xs with
  | [] => Ok s
  | x :: xs' => bind (body x s) (for_each xs' body)
  end.

(** A call of a builtin that takes exactly one argument. *)
Definition call1 {A B} (f : A -> result B) (args : list A) : result B :=
  match args with
  | [x] => f x
  | _ => Raise TypeError
  end.

(** Code that reads and writes a state [S] and may raise; what it
    wrote before raising stays. *)
Definition M (S A : Type) : Type := S -> result A * S.

Definition ret {S A} (a : A) : M S A := fun s => (Ok a, s).

Definition mbind {S A B} (m : M S A) (k : A -> M S B) : M S B :=
  fun s =>
    match m s with
    | (Ok a, s') => k a s'
    | (Raise e, s') => (Raise e, s')
    end.

Definition lift {S A} (r : result A) : M S A := fun s => (r, s).

Fixpoint for_each_M {S A} (xs : list A) (body : A -> M S unit) : M S unit :=
  match xs with
  | [] => ret tt
  | x :: xs' => mbind (body x) (fun _ => for_each_M xs' body)
  end.

End Py.

Notation "'let*' x ':=' r 'in' k" := (Py.bind r (fun x => k))
  (at level 10, x name, r at level 100, k at level 200, only parsing).
Notation "'let!' x ':=' m 'in' k" := (Py.mbind m (fun x => k))
  (at level 10, x name, m at level 100, k at level 200, only parsing).

(** ** selection.py *)

Module Selection.
Import Py.
Local Open Scope Q_scope.

(** A coordinate pair [[long, lat]]. *)
Definition point : Type := Q * Q.

(** A boolean array of [len(lat)] rows and [len(long)] columns;
    [true] masks a cell out of the selection. *)
Abbreviation mask := (list (list bool)).

(** The library functions [selection.py] calls: [radians], [sin], [cos],
    [sqrt] and [asin] of Python's [math], and [Path.contains_point] of
    matplotlib. [sqrt] and [asin] raise [ValueError] outside their
    domain. *)
Record pylib : Type := {
  radians : Q -> Q;
  sin : Q -> Q;
  cos : Q -> Q;
  sqrt : Q -> result Q;
  asin : Q -> result Q;
  contains_point : list point -> point -> bool
}.

Definition Qltb (x y : Q) : bool := negb (Qle_bool y x).

Definition Qmin' (x y : Q) : Q := if Qle_bool x y then x else y.
Definition Qmax' (x y : Q) : Q := if Qle_bool x y then y else x.

(** [np.min] and [np.max] of a one-dimensional array. *)
Definition np_min (l : list Q) : result Q :=
  match l with
  | [] => Raise ValueError
  | x :: t => Ok (fold_left Qmin' t x)
  end.

Definition np_max (l : list Q) : result Q :=
  match l with
  | [] => Raise ValueError
  | x :: t => Ok (fold_left Qmax' t x)
  end.

(** The binary search of [np.searchsorted(a, v)] (side ['left']):
    [lo] and [hi] close in on the insertion point. *)
Fixpoint bisect_left (fuel : nat) (a : list Q) (v : Q) (lo hi : nat) : nat :=
  match fuel with
  | O => lo
  | S fuel' =>
      if (lo <? hi)%nat then
        let mid := (lo + (hi - lo) / 2)%nat in
        match a !! mid with
        | Some m =>
            if Qltb m v then bisect_left fuel' a v (S mid) hi
            else bisect_left fuel' a v lo mid
        | None => lo
        end
      else lo
  end.

Definition searchsorted (a : list Q) (v : Q) : Z :=
  Z.of_nat (bisect_left (length a) a v 0 (length a)).

(** [np.full((rows, cols), v)] *)
Definition np_full (rows cols : nat) (v : bool) : mask :=
  replicate rows (replicate cols v).

(** [mask[y, x] = v] *)
Definition setitem2 (m : mask) (y x : Z) (v : bool) : result mask :=
  let* row := getitem m y in
  let* row' := setitem row x v in
  setitem m y row'.

(** [mask[y_lo:y_hi, x_lo:x_hi] = v] on a mask of [cols] columns. *)
Definition setslice2 (m : mask) (cols : Z) (y_lo y_hi x_lo x_hi : Z) (v : bool)
  : mask :=
  imap (fun y row =>
          if in_slice (len m) y_lo y_hi y
          then imap (fun x b => if in_slice cols x_lo x_hi x then v else b) row
          else row) m.

(** [poly_points[:, k]], with [k] the projection of a vertex: of an
    empty list of vertices [np.array] makes an array of one axis, and
    the index along a second axis raises [IndexError]. *)
Definition column (k : point -> Q) (poly_points : list point)
  : result (list Q) :=
  match poly_points with
  | [] => Raise IndexError
  | _ :: _ => Ok (map k poly_points)
  end.

Definition get_poly_bounds (poly_points : list point) : result (Q * Q * Q * Q) :=
  let* xs := column fst poly_points in
  let* xmin := np_min xs in
  let* xs := column fst poly_points in
  let* xmax := np_max xs in
  let* ys := column snd poly_points in
  let* ymin := np_min ys in
  let* ys := column snd poly_points in
  let* ymax := np_max ys in
  Ok (xmin, xmax, ymin, ymax).

Definition get_circle_y_bounds (center : point) (radius : Q) : Q * Q :=
  let deg := radius / 110 in
  let ymin := snd center - deg in
  let ymax := snd center + deg in
  (ymin, ymax).

Definition is_rectangle (poly_points : list point) : bool :=
  match poly_points with
  | [p0; p1; p2; p3; p4] =>
      Qeq_bool (fst p0) (fst p1) &&
      Qeq_bool (fst p0) (fst p4) &&
      Qeq_bool (snd p0) (snd p3) &&
      Qeq_bool (snd p1) (snd p2) &&
      Qeq_bool (fst p2) (fst p3)
  | _ => false
  end.

(** The value of [selection['geometry']['coordinates']]: a position
    [[long, lat]] for a point, a list of rings for a polygon. *)
Inductive coordinates : Type :=
| Position (p : point)
| Rings (rings : list (list point)).

(** A drawn shape, as the draw control hands it over (a GeoJSON
    feature): [selection['geometry']['type']],
    [selection['geometry']['coordinates']] and, when present,
    [selection['properties']['style']['radius']]. *)
Record selection : Type := {
  geometry_type : string;
  geometry_coordinates : coordinates;
  style_radius : option Q
}.

Section WithLibrary.
Variable L : pylib.

(** Haversine distance, as written: [asin] is called with two
    arguments. *)
Definition distance (origin destination : point) : result Q :=
  let '(lon1, lat1) := origin in
  let '(lon2, lat2) := destination in
  let radius := 6371 in
  let dlat := radians L (lat2 - lat1) in
  let dlon := radians L (lon2 - lon1) in
  let a := sin L (dlat / 2) ^ 2
           + cos L (radians L lat1) * cos L (radians L lat2)
             * sin L (dlon / 2) ^ 2 in
  let* s1 := sqrt L a in
  let* s2 := sqrt L (1 - a) in
  let* c0 := call1 (asin L) [s1; s2] in
  let c := 2 * c0 in
  let d := radius * c in
  Ok d.

Definition find_selection_polygon (coords : list point) (lat long : list Q)
  : result mask :=
  let* b := get_poly_bounds coords in
  let '(xmin, xmax, ymin, ymax) := b in
  let x_lo := (searchsorted long xmin - 1)%Z in
  let x_hi := (searchsorted long xmax + 1)%Z in
  let y_lo := (len lat - searchsorted (rev lat) ymax - 1)%Z in
  let y_hi := (len lat - searchsorted (rev lat) ymin + 1)%Z in
  let mask0 := np_full (length lat) (length long) true in
  for_each (range y_lo y_hi) (fun y =>
    for_each (range x_lo x_hi) (fun x m =>
      let* lx := getitem long x in
      let* ly := getitem lat y in
      if contains_point L coords (lx, ly)
      then setitem2 m y x false
      else Ok m)) mask0.

Definition find_selection_rectangle (coords : list point) (lat long : list Q)
  : result mask :=
  let* b := get_poly_bounds coords in
  let '(xmin, xmax, ymin, ymax) := b in
  let x_lo := (searchsorted long xmin - 1)%Z in
  let x_hi := (searchsorted long xmax + 1)%Z in
  let y_lo := (len lat - searchsorted (rev lat) ymax - 1)%Z in
  let y_hi := (len lat - searchsorted (rev lat) ymin + 1)%Z in
  let mask0 := np_full (length lat) (length long) true in
  Ok (setslice2 mask0 (len long) y_lo y_hi x_lo x_hi false).

Definition find_selection_circle (center : point) (radius : Q)
  (lat long : list Q) : result mask :=
  let '(ymin, ymax) := get_circle_y_bounds center radius in
  let y_lo := (len lat - searchsorted (rev lat) ymax)%Z in
  let y_hi := (len lat - searchsorted (rev lat) ymin - 1)%Z in
  let mask0 := np_full (length lat) (length long) true in
  for_each (range y_lo y_hi) (fun y =>
    for_each (range 0 (len long)) (fun x m =>
      let* lx := getitem long x in
      let* ly := getitem lat y in
      let* d := distance center (lx, ly) in
      if Qltb d radius
      then setitem2 m y x false
      else Ok m)) mask0.

(** Determines the selection type and returns the selection. A
    geometry type other than ['Point'] and ['Polygon'] falls through
    both branches: the function returns [None]. *)
Definition find_selection (sel : selection) (lat long : list Q)
  : result (option mask) :=
  if String.eqb (geometry_type sel) "Point" then
    let* radius := match style_radius sel with
                   | Some r => Ok r
                   | None => Raise KeyError
                   end in
    match geometry_coordinates sel with
    | Position center =>
        let* m := find_selection_circle center (radius / 1000) lat long in
        Ok (Some m)
    | Rings rings =>
        (* [center[1] - deg] on a list of rings *)
        let* _ := getitem rings 1 in
        Raise TypeError
    end
  else if String.eqb (geometry_type sel) "Polygon" then
    match geometry_coordinates sel with
    | Rings rings =>
        let* coords := getitem rings 0 in
        if is_rectangle coords then
          let* m := find_selection_rectangle coords lat long in
          Ok (Some m)
        else
          let* m := find_selection_polygon coords lat long in
          Ok (Some m)
    | Position _ =>
        (* [len] of a number *)
        Raise TypeError
    end
  else Ok None.

End WithLibrary.

(** *** An executable library

    [Path.contains_point] as the even-odd rule: a ray from the point
    towards larger [x] is intersected with every edge of the closed
    path. The [math] functions are low-order rational approximations;
    they only serve to run the model, and no statement depends on their
    values. *)

Definition crosses (t p0 p1 : point) : bool :=
  let yflag0 := Qle_bool (snd t) (snd p0) in
  let yflag1 := Qle_bool (snd t) (snd p1) in
  negb (Bool.eqb yflag0 yflag1) &&
  Bool.eqb (Qle_bool ((fst p1 - fst t) * (snd p0 - snd p1))
                     ((snd p1 - snd t) * (fst p0 - fst p1)))
           yflag1.

Fixpoint crossings (t first prev : point) (rest : list point) : bool :=
  match rest with
  | [] => crosses t prev first
  | p :: rest' => xorb (crosses t prev p) (crossings t first p rest')
  end.

Definition even_odd (poly : list point) (t : point) : bool :=
  match poly with
  | [] => false
  | p :: rest => crossings t p p rest
  end.

Definition rational_math : pylib := {|
  radians := fun x => x * (355 # 113) / 180;
  sin := fun x => x - x ^ 3 / 6;
  cos := fun x => 1 - x ^ 2 / 2;
  sqrt := fun x => if Qltb x 0 then Raise ValueError else Ok ((x + 1) / 2);
  asin := fun x => if Qltb 1 x || Qltb x (-1) then Raise ValueError
                   else Ok (x + x ^ 3 / 6);
  contains_point := even_odd
|}.

End Selection.

(** ** layer.py *)

Module Layer.
Import Py Selection.

(** The argument of [get_selection]: one shape, or a list, tuple or
    array of shapes. *)
Inductive selection_arg : Type :=
| One (s : selection)
| Several (l : list selection).

(** [a & b] on two boolean arrays of the same shape. *)
Definition mask_and (a b : mask) : mask := zip_with (zip_with andb) a b.

(** [a & b] where either operand may be [None]. *)
Definition and_ (a b : option mask) : result (option mask) :=
  match a, b with
  | Some a, Some b => Ok (Some (mask_and a b))
  | _, _ => Raise TypeError
  end.

(** The mask both [get_selection] methods build from their argument. *)
Definition selection_mask (L : pylib) (sel : selection_arg) (lat long : list Q)
  : result (option mask) :=
  match sel with
  | Several l =>
      let* s0 := getitem l 0 in
      let* m0 := find_selection L s0 lat long in
      for_each (range 1 (len l)) (fun i m =>
        let* s := getitem l i in
        let* mi := find_selection L s lat long in
        and_ m mi) m0
  | One s => find_selection L s lat long
  end.

(** One time step of a variable: rows of cells. *)
Abbreviation grid V := (list (list V)).

Section MaskedArray.
Context {V : Type}.

Record masked_array : Type := {
  ma_data : grid V;
  ma_mask : mask
}.

Definition size {A} (a : list (list A)) : nat := length (concat a).

Fixpoint reshape_like {A} (flat : list A) (d : grid V) : list (list A) :=
  match d with
  | [] => []
  | row :: d' =>
      take (length row) flat :: reshape_like (drop (length row) flat) d'
  end.

Definition shape_eqb {A} (a : list (list A)) (d : grid V) : bool :=
  bool_decide (map length a = map length d).

(** [np.ma.array(d, mask=m)]: a mask of another shape is resized when
    it has one element, reshaped when it has as many elements as the
    data, and refused otherwise; [None] reads as the single value
    [False]. *)
Definition np_ma_array (d : grid V) (m : option mask) : result masked_array :=
  let m := match m with Some m => m | None => [[false]] end in
  if shape_eqb m d then Ok {| ma_data := d; ma_mask := m |}
  else if (size m =? 1)%nat then
    Ok {| ma_data := d;
          ma_mask := map (map (fun _ => default false (head (concat m)))) d |}
  else if (size m =? size d)%nat then
    Ok {| ma_data := d; ma_mask := reshape_like (concat m) d |}
  else Raise MaskError.
End MaskedArray.
Arguments masked_array : clear implicits.

End Layer.

(** *** RasterLayer *)

Module RasterLayer.
Import Py Selection Layer.

Section Raster.
Context {V bbox affine artifact : Type}.

(** The libraries behind [find_selection], and
    [process_frame('raster', data, bounds, transform, cmap)]. *)
Variable L : pylib.
Variable process_frame_raster : grid V -> bbox -> affine -> string -> artifact.

(** An entry of [self.cache]: the integer [0] until the frame has
    been rendered, the rendered frame afterwards. *)
Inductive entry : Type :=
| Zero
| Frame (a : artifact).

(** The attributes of a [RasterLayer]; [url] is [layer_obj.url]. *)
Record t : Type := {
  coords : list Q * list Q;
  data : list (grid V);
  cmap : string;
  cache : list entry;
  transform : affine;
  frame : Z;
  bounds : bbox;
  bounds_img : bbox;
  url : option artifact
}.

Definition set_cache (c : list entry) (l : t) : t :=
  {| coords := coords l; data := data l; cmap := cmap l; cache := c;
     transform := transform l; frame := frame l; bounds := bounds l;
     bounds_img := bounds_img l; url := url l |}.

Definition set_frame (f : Z) (l : t) : t :=
  {| coords := coords l; data := data l; cmap := cmap l; cache := cache l;
     transform := transform l; frame := f; bounds := bounds l;
     bounds_img := bounds_img l; url := url l |}.

Definition set_url (a : artifact) (l : t) : t :=
  {| coords := coords l; data := data l; cmap := cmap l; cache := cache l;
     transform := transform l; frame := frame l; bounds := bounds l;
     bounds_img := bounds_img l; url := Some a |}.

Definition get_selection (l : t) (sel : selection_arg)
  : result (masked_array V) :=
  let* m := selection_mask L sel (fst (coords l)) (snd (coords l)) in
  let* d := getitem (data l) (frame l) in
  np_ma_array d m.

(** The arguments of one [calc_frame] call handed to the pool. *)
Record task : Type := {
  task_frame : Z;
  task_data : grid V;
  task_bounds : bbox;
  task_transform : affine;
  task_cmap : string
}.

(** What surrounds the layer: the call of [buffer_frames] the
    debounce timer holds back, the tasks handed to a pool and not
    yet completed, and three logs: the calls of [buffer_frames], the
    frames rendered, and the cache positions assigned. *)
Record env : Type := {
  pending : option (Z * Z);
  in_flight : list task;
  requested : list (Z * Z);
  rendered : list (grid V);
  assigned : list nat
}.

Definition empty_env : env :=
  {| pending := None; in_flight := []; requested := []; rendered := [];
     assigned := [] |}.

(** The updates of the surroundings. *)
Definition hold_back (start n : Z) (e : env) : env :=
  {| pending := Some (start, n); in_flight := in_flight e;
     requested := requested e ++ [(start, n)];
     rendered := rendered e; assigned := assigned e |}.

Definition release (e : env) : env :=
  {| pending := None; in_flight := in_flight e; requested := requested e;
     rendered := rendered e; assigned := assigned e |}.

Definition log_rendered (d : grid V) (e : env) : env :=
  {| pending := pending e; in_flight := in_flight e;
     requested := requested e; rendered := rendered e ++ [d];
     assigned := assigned e |}.

Definition log_assigned (k : nat) (e : env) : env :=
  {| pending := pending e; in_flight := in_flight e;
     requested := requested e; rendered := rendered e;
     assigned := assigned e ++ [k] |}.

Definition submit (tk : task) (e : env) : env :=
  {| pending := pending e; in_flight := in_flight e ++ [tk];
     requested := requested e; rendered := rendered e;
     assigned := assigned e |}.

Definition retire (k : nat) (e : env) : env :=
  {| pending := pending e; in_flight := delete k (in_flight e);
     requested := requested e; rendered := rendered e;
     assigned := assigned e |}.

Definition state : Type := t * env.

Definition self : M state t := fun s => (Ok (fst s), s).

Definition environment : M state env := fun s => (Ok (snd s), s).

Definition on_layer (f : t -> t) : M state unit :=
  fun s => (Ok tt, (f (fst s), snd s)).

Definition on_env (f : env -> env) : M state unit :=
  fun s => (Ok tt, (fst s, f (snd s))).

(** Modelled from the spec: the [debounce] decorator of
    [vizmap/debounce.py], which is not among the sources. Calls that
    arrive faster than the interval collapse into the most recent
    call's arguments, and that call runs once the interval has
    elapsed: a call of the decorated [buffer_frames] replaces the call
    held back, and [timer] below runs the one held back. *)
Definition debounced_buffer_frames (start n : Z) : M state unit :=
  on_env (hold_back start n).

(** [process_frame('raster', d, b, t, c)], with the call logged. *)
Definition process_frame (d : grid V) (b : bbox) (tr : affine) (c : string)
  : M state artifact :=
  let! _ := on_env (log_rendered d) in
  ret (process_frame_raster d b tr c).

(** [self.cache[i] = a], with the position logged. *)
Definition cache_assign (i : Z) (a : artifact) : M state unit :=
  let! l := self in
  let! c := lift (setitem (cache l) i (Frame a)) in
  let! k := lift (norm_index (len (cache l)) i) in
  let! _ := on_layer (set_cache c) in
  on_env (log_assigned k).

Definition update_frame (i : option Z) : M state unit :=
  let! l := self in
  let i := match i with None => (frame l + 1)%Z | Some i => i end in
  let! _ := on_layer (set_frame i) in
  let! _ := (if (i mod 10 =? 0)%Z
             then let! l := self in
                  debounced_buffer_frames (frame l + 1) 40
             else ret tt) in
  let! l := self in
  let! c := lift (getitem (cache l) i) in
  match c with
  | Frame a => on_layer (set_url a)
  | Zero =>
      let! d := lift (getitem (data l) i) in
      let! img := process_frame d (bounds_img l) (transform l) (cmap l) in
      let! _ := on_layer (set_url img) in
      let! _ := cache_assign i img in
      debounced_buffer_frames (i + 1) 50
  end.

(** [pool.apply_async(calc_frame, args, callback=cache_frame)] *)
Definition apply_async (tk : task) : M state unit :=
  on_env (submit tk).

(** The body of [buffer_frames], with [finish=False]. *)
Definition buffer_frames (start n : Z) : M state unit :=
  let! l := self in
  let data := getslice (data l) start (start + n) in
  for_each_M (range 0 n) (fun i =>
    let! l := self in
    let! c := lift (getitem (cache l) (start + i)) in
    match c with
    | Frame _ => ret tt
    | Zero =>
        let! d := lift (getitem data i) in
        apply_async {| task_frame := (start + i)%Z; task_data := d;
                       task_bounds := bounds_img l;
                       task_transform := transform l;
                       task_cmap := cmap l |}
    end).

(** [calc_frame(frame, 'raster', data, bounds, transform, cmap)] *)
Definition calc_frame (tk : task) : artifact * Z :=
  let img := process_frame_raster (task_data tk) (task_bounds tk)
               (task_transform tk) (task_cmap tk) in
  (img, task_frame tk).

(** The callback [cache_frame] of [buffer_frames]. *)
Definition cache_frame (result : artifact * Z) : M state unit :=
  cache_assign (snd result) (fst result).

(** The debounce interval elapses: the call held back runs. *)
Definition timer : M state unit :=
  let! e := environment in
  match pending e with
  | None => ret tt
  | Some (start, n) =>
      let! _ := on_env release in
      buffer_frames start n
  end.

(** The [k]-th task in flight completes: a worker has run
    [calc_frame] on its arguments, and the pool calls the callback on
    the result. *)
Definition complete (k : nat) : M state unit :=
  let! e := environment in
  match in_flight e !! k with
  | None => ret tt
  | Some tk =>
      let! _ := on_env (retire k) in
      let! _ := on_env (log_rendered (task_data tk)) in
      cache_frame (calc_frame tk)
  end.

(** [create_layer], without the widgets. *)
Definition create_layer : M state unit :=
  let! l := self in
  let! d := lift (getitem (data l) (frame l)) in
  let! u := process_frame d (bounds l) (transform l) (cmap l) in
  let! _ := cache_assign (frame l) u in
  let! l := self in
  let! _ := debounced_buffer_frames (frame l + 1) 50 in
  on_layer (set_url u).

(** [__init__], on a dataset already read. *)
Definition init (lat long : list Q) (d : list (grid V)) (c : string)
  (tr : affine) (f : Z) (b b_img : bbox) : result unit * state :=
  create_layer
    ({| coords := (lat, long); data := d; cmap := c;
        cache := replicate (length d) Zero; transform := tr; frame := f;
        bounds := b; bounds_img := b_img; url := None |},
     empty_env).

(** What can happen to a layer: the slider calls [update_frame], the
    debounce timer fires, a task completes. An exception ends the
    call that raised it and no more. *)
Inductive event : Type :=
| Update (i : option Z)
| Timer
| Complete (k : nat).

Definition step (s : state) (ev : event) : state :=
  snd (match ev with
       | Update i => update_frame i s
       | Timer => timer s
       | Complete k => complete k s
       end).

Definition run (evs : list event) (s : state) : state :=
  fold_left step evs s.

End Raster.

Arguments entry : clear implicits.
Arguments t : clear implicits.
Arguments task : clear implicits.
Arguments env : clear implicits.
Arguments state : clear implicits.

End RasterLayer.

(** *** WindLayer *)

Module WindLayer.
Import Py Selection Layer.

(** [a[::stride]] for a stride of at least 1: the elements at the
    positions [0], [stride], [2 * stride] and so on. *)
Fixpoint strided_from {A} (stride skip : nat) (a : list A) : list A :=
  match a with
  | [] => []
  | x :: a' =>
      match skip with
      | O => x :: strided_from stride (stride - 1) a'
      | S skip' => strided_from stride skip' a'
      end
  end.

Definition strided {A} (stride : nat) (a : list A) : list A :=
  strided_from stride 0 a.

(** [self.coords] as [__init__] leaves it,
    [[ds[lat][::self.stride], ds[long][::self.stride]]]; [self.u] and
    [self.v] are the whole variables of the dataset. *)
Definition init_coords (stride : nat) (lat long : list Q) : list Q * list Q :=
  (strided stride lat, strided stride long).

Section Wind.
Context {V : Type}.
Variable L : pylib.

(** The attributes of a [WindLayer] that [get_selection] reads. *)
Record t : Type := {
  coords : list Q * list Q;
  u : list (grid V);
  v : list (grid V);
  frame : Z
}.

Definition get_selection (l : t) (sel : selection_arg)
  : result (masked_array V * masked_array V) :=
  let* m := selection_mask L sel (fst (coords l)) (snd (coords l)) in
  let* d1 := getitem (u l) (frame l) in
  let* a1 := np_ma_array d1 m in
  let* d2 := getitem (u l) (frame l) in
  let* a2 := np_ma_array d2 m in
  Ok (a1, a2).

End Wind.

Arguments t : clear implicits.

End WindLayer.

(** ** processing.py *)

Module Processing.
Import Py.

(** *** The normalisation of [process_frame_raster] *)

Section Normalisation.
Local Open Scope float_scope.

(** [np.fmin] and [np.fmax]: a NaN operand is ignored. *)
Definition fmin (x y : float) : float :=
  if is_nan x then y
  else if is_nan y then x
  else if x <=? y then x else y.

Definition fmax (x y : float) : float :=
  if is_nan x then y
  else if is_nan y then x
  else if x <=? y then y else x.

(** [np.nanmin] and [np.nanmax] of a two-dimensional array: NaN when
    every element is NaN, an exception on an empty array. *)
Definition np_nanmin (a : list (list float)) : result float :=
  match concat a with
  | [] => Raise ValueError
  | x :: rest => Ok (fold_left fmin rest x)
  end.

Definition np_nanmax (a : list (list float)) : result float :=
  match concat a with
  | [] => Raise ValueError
  | x :: rest => Ok (fold_left fmax rest x)
  end.

(** [np.where(np.isfinite(dst), data_norm, 0)] *)
Definition where_finite (dst data_norm : list (list float))
  : list (list float) :=
  zip_with (zip_with (fun d n => if is_finite d then n else 0)) dst data_norm.

(** The three assignments to [data_norm] in [process_frame_raster],
    on the reprojected array [dst]. *)
Definition data_norm (dst : list (list float)) : result (list (list float)) :=
  let* lo := np_nanmin dst in
  let data_norm := map (map (fun x => x - lo)) dst in
  let* hi := np_nanmax data_norm in
  let data_norm := map (map (fun x => x / hi)) data_norm in
  Ok (where_finite dst data_norm).
End Normalisation.

(** *** The arrows of [process_frame_geojson] *)

Section Arrow.
Local Open Scope R_scope.

(** [np.radians] *)
Definition radians (deg : R) : R := deg * PI / 180.

(** [np.arctan2(y, x)]: the angle of the point [(x, y)], in
    [(-pi, pi]]. *)
Definition arctan2 (y x : R) : R :=
  if Rlt_dec 0 x then atan (y / x)
  else if Rlt_dec x 0 then
    if Rle_dec 0 y then atan (y / x) + PI else atan (y / x) - PI
  else if Rlt_dec 0 y then PI / 2
  else if Rlt_dec y 0 then - PI / 2
  else 0.

Definition calc_arrow (u v long lat : R) (autoscale : bool) (scale : R)
  : list (R * R) :=
  let angle := arctan2 v u in
  let length := if autoscale then R_sqrt.sqrt (Rabs (u * v)) * scale
                else scale in
  let head_scale := 1 / 10 in
  let head_angle := 50 in
  let head_angle_l := radians 270 - radians head_angle in
  let head_angle_r := radians 270 + radians head_angle in
  let dx := (length / 2) * Rtrigo_def.cos angle in
  let dy := (length / 2) * Rtrigo_def.sin angle in
  let begin := (long - dx, lat - dy) in
  let end_ := (long + dx, lat + dy) in
  let dx_head_l := (length * head_scale) * Rtrigo_def.cos (angle + head_angle_l) in
  let dy_head_l := (length * head_scale) * Rtrigo_def.sin (angle + head_angle_l) in
  let dx_head_r := (length * head_scale) * Rtrigo_def.cos (angle + head_angle_r) in
  let dy_head_r := (length * head_scale) * Rtrigo_def.sin (angle + head_angle_r) in
  let head_l := (fst end_ + dx_head_l, snd end_ + dy_head_l) in
  let head_r := (fst end_ - dx_head_r, snd end_ - dy_head_r) in
  [begin; end_; head_l; end_; head_r].
End Arrow.

End Processing.

(** ** layer.py: the bounds of a grid *)

Module Bounds.
Import Py Selection.
Local Open Scope Q_scope.

(** The builtins [min] and [max] on a sequence: the first of the
    smallest (largest) elements, [ValueError] on an empty sequence. *)
Definition builtin_min (l : list Q) : result Q :=
  match l with
  | [] => Raise ValueError
  | x :: t => Ok (fold_left (fun m y => if Qltb y m then y else m) t x)
  end.

Definition builtin_max (l : list Q) : result Q :=
  match l with
  | [] => Raise ValueError
  | x :: t => Ok (fold_left (fun m y => if Qltb m y then y else m) t x)
  end.

(** [np.abs] *)
Definition np_abs (x : Q) : Q := if Qltb x 0 then - x else x.

(** [calc_bounds(coords, step, type)]: [coords] is the list
    [[lat, long]]; the result is [None] when the function falls off its
    end. *)
Definition calc_bounds (coords : list (list Q)) (step : option (Q * Q))
  (type : string) : result (option (Q * Q * Q * Q)) :=
  let* c1 := getitem coords 1 in
  let* left := builtin_min c1 in
  let* c0 := getitem coords 0 in
  let* bottom := builtin_min c0 in
  let* c1 := getitem coords 1 in
  let* right := builtin_max c1 in
  let* c0 := getitem coords 0 in
  let* top := builtin_max c0 in
  let* step :=
    match step with
    | Some step => Ok step
    | None =>
        let* c1 := getitem coords 1 in
        let* x1 := getitem c1 1 in
        let* c1 := getitem coords 1 in
        let* x0 := getitem c1 0 in
        let* c0 := getitem coords 0 in
        let* y1 := getitem c0 1 in
        let* c0 := getitem coords 0 in
        let* y0 := getitem c0 0 in
        Ok (np_abs (x1 - x0), np_abs (y1 - y0))
    end in
  if String.eqb type "true" then Ok (Some (left, bottom, right, top))
  else if String.eqb type "edge" then
    Ok (Some (left - fst step / 2, bottom - snd step / 2,
              right + fst step / 2, top + snd step / 2))
  else Ok None.

End Bounds.

(** ** processing.py: the frames of a vector field *)

Module Frames.
Import Py Processing.

Section Geojson.
Local Open Scope R_scope.

(** [process_frame_geojson]: the list of arrows it hands to
    [MultiLineString]. *)
Definition process_frame_geojson (u v : list (list R)) (long lat : list R)
  (autoscale : bool) (scale : R) : result (list (list (R * R))) :=
  for_each (range 0 (len lat)) (fun i arrows =>
    for_each (range 0 (len long)) (fun j arrows =>
      let* ui := getitem u i in
      let* uij := getitem ui j in
      let* vi := getitem v i in
      let* vij := getitem vi j in
      let* lo := getitem long j in
      let* la := getitem lat i in
      Ok (arrows ++ [calc_arrow uij vij lo la autoscale scale])) arrows) [].
End Geojson.

Section Quiver.
Local Open Scope R_scope.

(** The two assignments of [process_frame_quiver] for
    [autoscale=False], element by element on two arrays of one shape:
    the second assignment reads the [dst_u] the first has made. *)
Definition normalise (dst_u dst_v : list (list R))
  : list (list R) * list (list R) :=
  let dst_u :=
    zip_with (zip_with (fun u v => u / R_sqrt.sqrt (u ^ 2 + v ^ 2)))
      dst_u dst_v in
  let dst_v :=
    zip_with (zip_with (fun u v => v / R_sqrt.sqrt (u ^ 2 + v ^ 2)))
      dst_u dst_v in
  (dst_u, dst_v).
End Quiver.

End Frames.

(** * Properties *)

(** ** Indexing and loops *)

Module PyFacts.
Import Py.

Lemma norm_index_nonneg (n i : Z) (k : nat) :
  (0 <= i)%Z -> norm_index n i = Ok k -> k = Z.to_nat i /\ (i < n)%Z.
Proof.
  unfold norm_index. intros Hi.
  destruct (Z.leb_spec 0 i); [|lia].
  destruct (Z.ltb_spec i n); simpl.
  - intros [= <-]. lia.
  - destruct (Z.leb_spec (- n) i), (Z.ltb_spec i 0); simpl;
      try discriminate; lia.
Qed.

Lemma norm_index_valid (n i : Z) :
  (0 <= i < n)%Z -> norm_index n i = Ok (Z.to_nat i).
Proof.
  intros [H0 Hn]. unfold norm_index.
  destruct (Z.leb_spec 0 i); [|lia].
  destruct (Z.ltb_spec i n); [reflexivity|lia].
Qed.

Lemma getitem_valid {A} (l : list A) (i : Z) :
  (0 <= i < len l)%Z -> exists x, getitem l i = Ok x /\ l !! Z.to_nat i = Some x.
Proof.
  intros Hi. unfold getitem. rewrite norm_index_valid by assumption. simpl.
  destruct (lookup_lt_is_Some_2 l (Z.to_nat i)) as [x Hx].
  { unfold len in Hi. lia. }
  exists x. rewrite Hx. auto.
Qed.

Lemma getitem_nonneg {A} (l : list A) (i : Z) (x : A) :
  (0 <= i)%Z -> getitem l i = Ok x -> l !! Z.to_nat i = Some x.
Proof.
  intros Hi. unfold getitem.
  destruct (norm_index (len l) i) as [k|] eqn:Hk; simpl; [|discriminate].
  apply norm_index_nonneg in Hk as [-> _]; [|assumption].
  destruct (l !! Z.to_nat i); congruence.
Qed.

Lemma setitem_valid {A} (l : list A) (i : Z) (v : A) :
  (0 <= i < len l)%Z -> setitem l i v = Ok (<[Z.to_nat i:=v]> l).
Proof.
  intros Hi. unfold setitem. rewrite norm_index_valid by assumption.
  reflexivity.
Qed.

Lemma setitem_nonneg {A} (l l' : list A) (i : Z) (v : A) :
  (0 <= i)%Z -> setitem l i v = Ok l' -> l' = <[Z.to_nat i:=v]> l.
Proof.
  intros Hi. unfold setitem.
  destruct (norm_index (len l) i) as [k|] eqn:Hk; simpl; [|discriminate].
  apply norm_index_nonneg in Hk as [-> _]; [|assumption].
  congruence.
Qed.

Lemma setitem_length {A} (l l' : list A) (i : Z) (v : A) :
  setitem l i v = Ok l' -> length l' = length l.
Proof.
  unfold setitem. destruct (norm_index (len l) i); simpl; [|discriminate].
  intros [= <-]. apply length_insert.
Qed.

Lemma range_ge (lo hi i : Z) : i ∈ range lo hi -> (lo <= i < hi)%Z.
Proof.
  unfold range. intros Hin.
  apply list_elem_of_In, in_map_iff in Hin as (k & <- & Hk).
  apply in_seq in Hk. lia.
Qed.

Lemma range_cons (lo hi : Z) :
  (lo < hi)%Z -> range lo hi = lo :: range (lo + 1) hi.
Proof.
  intros H. unfold range.
  replace (Z.to_nat (hi - lo)) with (S (Z.to_nat (hi - (lo + 1)))) by lia.
  simpl. f_equal; [lia|].
  rewrite <- seq_shift, map_map. apply map_ext. intros; lia.
Qed.

Lemma range_nil (lo hi : Z) : (hi <= lo)%Z -> range lo hi = [].
Proof.
  intros H. unfold range. replace (Z.to_nat (hi - lo)) with 0%nat by lia.
  reflexivity.
Qed.

(** A property that every iteration keeps holds after the loop. *)
Lemma for_each_invariant {A S} (P : S -> Prop) (xs : list A)
  (body : A -> S -> result S) (s s' : S) :
  (forall x t t', x ∈ xs -> P t -> body x t = Ok t' -> P t') ->
  P s -> for_each xs body s = Ok s' -> P s'.
Proof.
  revert s. induction xs as [|x xs IH]; intros s Hbody Hs; simpl.
  - intros [= <-]. assumption.
  - destruct (body x s) as [t|] eqn:Hx; simpl; [|discriminate].
    apply IH.
    + intros y t1 t2 Hy. apply Hbody. now right.
    + eapply Hbody; [left|exact Hs|exact Hx].
Qed.

Lemma mbind_run {S A B} (m : M S A) (k : A -> M S B) (s : S) :
  mbind m k s
  = match m s with
    | (Ok a, s') => k a s'
    | (Raise e, s') => (Raise e, s')
    end.
Proof. reflexivity. Qed.

(** A loop whose first iteration raises, raises. *)
Lemma for_each_raise_first {A S} (x : A) (xs : list A)
  (body : A -> S -> result S) (s : S) (e : exn) :
  body x s = Raise e -> for_each (x :: xs) body s = Raise e.
Proof. intros H. simpl. rewrite H. reflexivity. Qed.

End PyFacts.

(** ** The selection engine *)

Module SelectionFacts.
Import Py PyFacts Selection.
Local Open Scope Q_scope.

(** The grid and the shapes of the examples: latitudes from north to
    south, longitudes from west to east, and two rectangles whose
    sides lie between the grid lines. *)
Definition lat4 : list Q := [3; 2; 1; 0].
Definition long6 : list Q := [0; 1; 2; 3; 4; 5].

Definition rect_west : list point :=
  [(3#2, 1#2); (3#2, 5#2); (7#2, 5#2); (7#2, 1#2); (3#2, 1#2)].
Definition rect_east : list point :=
  [(5#2, 1#2); (5#2, 5#2); (9#2, 5#2); (9#2, 1#2); (5#2, 1#2)].

Definition polygon_of (ring : list point) : selection :=
  {| geometry_type := "Polygon"; geometry_coordinates := Rings [ring];
     style_radius := None |}.

Definition line_string : selection :=
  {| geometry_type := "LineString";
     geometry_coordinates := Rings [[(0, 0); (1, 1)]];
     style_radius := None |}.

(** The value of cell [(y, x)] of a mask. *)
Definition cell (m : mask) (y x : nat) : option bool :=
  match m !! y with
  | Some row => row !! x
  | None => None
  end.

(** The rows the loop of [find_selection_circle] visits. *)
Definition circle_rows (center : point) (radius : Q) (lat : list Q) : Z * Z :=
  let '(ymin, ymax) := get_circle_y_bounds center radius in
  ((len lat - searchsorted (rev lat) ymax)%Z,
   (len lat - searchsorted (rev lat) ymin - 1)%Z).

Lemma bisect_left_bounds (fuel : nat) (a : list Q) (v : Q) (lo hi : nat) :
  (lo <= hi)%nat ->
  (lo <= bisect_left fuel a v lo hi <= hi)%nat.
Proof.
  revert lo hi. induction fuel as [|fuel IH]; intros lo hi Hle;
    cbn [bisect_left].
  - lia.
  - destruct (Nat.ltb_spec lo hi) as [Hlt|]; [|lia].
    assert (Hmid : ((hi - lo) / 2 < hi - lo)%nat) by (apply Nat.div_lt; lia).
    destruct (a !! (lo + (hi - lo) / 2)%nat); [|lia].
    destruct (Qltb q v).
    + specialize (IH (S (lo + (hi - lo) / 2)) hi). lia.
    + specialize (IH lo (lo + (hi - lo) / 2)%nat). lia.
Qed.

Lemma searchsorted_bounds (a : list Q) (v : Q) :
  (0 <= searchsorted a v <= len a)%Z.
Proof.
  unfold searchsorted, len.
  pose proof (bisect_left_bounds (length a) a v 0 (length a)). lia.
Qed.

(** [distance] never returns a number: the call of [asin] with two
    arguments raises, unless one of the square roots did before. *)
Lemma distance_raises (L : pylib) (origin destination : point) :
  exists e, distance L origin destination = Raise e.
Proof.
  destruct origin as [lon1 lat1], destination as [lon2 lat2].
  unfold distance.
  destruct (sqrt L _) as [s1|e1]; simpl; [|eauto].
  destruct (sqrt L _) as [s2|e2]; simpl; eauto.
Qed.

(** *** Shapes and cells of masks *)

(** An array of [rows] rows and [cols] columns. *)
Definition shaped {A} (rows cols : nat) (m : list (list A)) : Prop :=
  length m = rows /\ Forall (fun row => length row = cols) m.

Lemma shaped_lengths {A} (rows cols : nat) (m : list (list A)) :
  shaped rows cols m -> map length m = replicate rows cols.
Proof.
  intros [<- Hrows]. induction Hrows as [|row m Hrow _ IH]; simpl.
  - reflexivity.
  - rewrite Hrow, IH. reflexivity.
Qed.

Lemma np_full_shaped (rows cols : nat) (v : bool) :
  shaped rows cols (np_full rows cols v).
Proof.
  unfold shaped, np_full. split.
  - apply length_replicate.
  - apply Forall_replicate, length_replicate.
Qed.

Lemma np_full_cell (rows cols : nat) (v : bool) (y x : nat) :
  (y < rows)%nat -> (x < cols)%nat -> cell (np_full rows cols v) y x = Some v.
Proof.
  intros Hy Hx. unfold cell, np_full.
  rewrite lookup_replicate_2 by assumption.
  apply lookup_replicate_2. assumption.
Qed.

Lemma shaped_cell (rows cols : nat) (m : mask) (y x : nat) :
  shaped rows cols m -> (y < rows)%nat -> (x < cols)%nat ->
  exists b, cell m y x = Some b.
Proof.
  intros [Hlen Hrows] Hy Hx. unfold cell.
  destruct (lookup_lt_is_Some_2 m y) as [row Hrow]; [lia|].
  rewrite Hrow.
  apply (proj1 (Forall_lookup _ _) Hrows) in Hrow.
  apply lookup_lt_is_Some_2. lia.
Qed.

Lemma setitem2_shaped (rows cols : nat) (m m' : mask) (y x : Z) (v : bool) :
  setitem2 m y x v = Ok m' -> shaped rows cols m -> shaped rows cols m'.
Proof.
  unfold setitem2, getitem.
  destruct (norm_index (len m) y) as [ky|] eqn:Hy; simpl; [|discriminate].
  destruct (m !! ky) as [row|] eqn:Hrow; simpl; [|discriminate].
  destruct (setitem row x v) as [row'|] eqn:Hset; simpl; [|discriminate].
  unfold setitem. rewrite Hy. simpl. intros [= <-] [Hlen Hrows].
  split.
  - rewrite length_insert. assumption.
  - apply Forall_insert; [assumption|].
    apply setitem_length in Hset. rewrite Hset.
    exact (proj1 (Forall_lookup _ _) Hrows _ _ Hrow).
Qed.

(** An assignment to one cell leaves the other cells as they were. *)
Lemma setitem2_other (m m' : mask) (y x : Z) (v : bool) (y0 x0 : nat) :
  setitem2 m y x v = Ok m' -> (0 <= y)%Z -> (0 <= x)%Z ->
  (Z.to_nat y, Z.to_nat x) <> (y0, x0) ->
  cell m' y0 x0 = cell m y0 x0.
Proof.
  unfold setitem2. intros Hset Hy Hx Hne.
  destruct (getitem m y) as [row|] eqn:Hrow; simpl in Hset; [|discriminate].
  destruct (setitem row x v) as [row'|] eqn:Hrow'; simpl in Hset;
    [|discriminate].
  apply getitem_nonneg in Hrow; [|assumption].
  apply setitem_nonneg in Hrow'; [|assumption].
  apply setitem_nonneg in Hset; [|assumption].
  subst m' row'. unfold cell.
  destruct (decide (Z.to_nat y = y0)) as [<-|Hy0].
  - rewrite list_lookup_insert_eq by (eapply lookup_lt_Some; eassumption).
    rewrite Hrow. apply list_lookup_insert_ne. congruence.
  - rewrite list_lookup_insert_ne by assumption. reflexivity.
Qed.

Lemma setslice2_shaped (rows cols : nat) (m : mask) (n y_lo y_hi x_lo x_hi : Z)
  (v : bool) :
  shaped rows cols m -> shaped rows cols (setslice2 m n y_lo y_hi x_lo x_hi v).
Proof.
  unfold shaped, setslice2. intros [Hlen Hrows]. split.
  - rewrite length_imap. assumption.
  - apply Forall_lookup. intros y row Hrow.
    rewrite list_lookup_imap in Hrow.
    destruct (m !! y) as [row0|] eqn:Hrow0; simpl in Hrow; [|discriminate].
    pose proof (proj1 (Forall_lookup _ _) Hrows _ _ Hrow0) as Hcols.
    destruct (in_slice (len m) y_lo y_hi y); injection Hrow as <-;
      [rewrite length_imap|]; assumption.
Qed.

Lemma polygon_shaped (L : pylib) (coords : list point) (lat long : list Q)
  (m : mask) :
  find_selection_polygon L coords lat long = Ok m ->
  shaped (length lat) (length long) m.
Proof.
  unfold find_selection_polygon.
  destruct (get_poly_bounds coords) as [[[[xmin xmax] ymin] ymax]|]; simpl;
    [|discriminate].
  apply for_each_invariant; [|apply np_full_shaped].
  intros y t t' _ Ht. apply for_each_invariant; [|assumption].
  intros x r r' _ Hr.
  destruct (getitem long x); simpl; [|discriminate].
  destruct (getitem lat y); simpl; [|discriminate].
  destruct (contains_point L coords _).
  - intros Hset. eapply setitem2_shaped; eassumption.
  - intros [= <-]. assumption.
Qed.

Lemma rectangle_shaped (coords : list point) (lat long : list Q) (m : mask) :
  find_selection_rectangle coords lat long = Ok m ->
  shaped (length lat) (length long) m.
Proof.
  unfold find_selection_rectangle.
  destruct (get_poly_bounds coords) as [[[[xmin xmax] ymin] ymax]|]; simpl;
    [|discriminate].
  intros [= <-]. apply setslice2_shaped, np_full_shaped.
Qed.

Lemma circle_shaped (L : pylib) (center : point) (radius : Q)
  (lat long : list Q) (m : mask) :
  find_selection_circle L center radius lat long = Ok m ->
  shaped (length lat) (length long) m.
Proof.
  unfold find_selection_circle.
  destruct (get_circle_y_bounds center radius) as [ymin ymax].
  apply for_each_invariant; [|apply np_full_shaped].
  intros y t t' _ Ht. apply for_each_invariant; [|assumption].
  intros x r r' _ Hr.
  destruct (getitem long x); simpl; [|discriminate].
  destruct (getitem lat y); simpl; [|discriminate].
  destruct (distance L center _); simpl; [|discriminate].
  destruct (Qltb _ _).
  - intros Hset. eapply setitem2_shaped; eassumption.
  - intros [= <-]. assumption.
Qed.

(** Every mask [find_selection] returns has one row per latitude and
    one column per longitude. *)
Lemma find_selection_shaped (L : pylib) (sel : selection) (lat long : list Q)
  (m : mask) :
  find_selection L sel lat long = Ok (Some m) ->
  shaped (length lat) (length long) m.
Proof.
  unfold find_selection.
  destruct (String.eqb _ "Point").
  - destruct (style_radius sel); simpl; [|discriminate].
    destruct (geometry_coordinates sel) as [center|rings].
    + destruct (find_selection_circle _ _ _ _ _) eqn:Hc; simpl;
        [|discriminate].
      intros [= <-]. eapply circle_shaped; eassumption.
    + destruct (getitem rings 1); discriminate.
  - destruct (String.eqb _ "Polygon"); [|discriminate].
    destruct (geometry_coordinates sel) as [center|rings]; [discriminate|].
    destruct (getitem rings 0) as [coords|]; simpl; [|discriminate].
    destruct (is_rectangle coords).
    + destruct (find_selection_rectangle _ _ _) eqn:Hr; simpl; [|discriminate].
      intros [= <-]. eapply rectangle_shaped; eassumption.
    + destruct (find_selection_polygon _ _ _ _) eqn:Hp; simpl; [|discriminate].
      intros [= <-]. eapply polygon_shaped; eassumption.
Qed.

(** *** The rectangle path against the polygon path *)

(** The index ranges both paths derive from the bounds of the shape:
    [(x_lo, x_hi, y_lo, y_hi)]. *)
Definition index_box (coords : list point) (lat long : list Q)
  : result (Z * Z * Z * Z) :=
  let* b := get_poly_bounds coords in
  let '(xmin, xmax, ymin, ymax) := b in
  Ok ((searchsorted long xmin - 1)%Z,
      (searchsorted long xmax + 1)%Z,
      (len lat - searchsorted (rev lat) ymax - 1)%Z,
      (len lat - searchsorted (rev lat) ymin + 1)%Z).

(** The polygon path leaves a cell masked when [contains_point] says
    that its coordinates are outside the polygon (shown for index
    ranges that start inside the grid, where no index wraps around). *)
Lemma polygon_keeps_cell (L : pylib) (coords : list point) (lat long : list Q)
  (m : mask) (x_lo x_hi y_lo y_hi : Z) (y0 x0 : nat) (lx ly : Q) :
  find_selection_polygon L coords lat long = Ok m ->
  index_box coords lat long = Ok (x_lo, x_hi, y_lo, y_hi) ->
  (0 <= x_lo)%Z -> (0 <= y_lo)%Z ->
  long !! x0 = Some lx -> lat !! y0 = Some ly ->
  contains_point L coords (lx, ly) = false ->
  cell m y0 x0 = Some true.
Proof.
  unfold find_selection_polygon, index_box.
  destruct (get_poly_bounds coords) as [[[[xmin xmax] ymin] ymax]|]; simpl;
    [|discriminate].
  intros Hm [= <- <- <- <-] Hx_lo Hy_lo Hlx Hly Hout.
  revert Hm. apply (for_each_invariant (fun t => cell t y0 x0 = Some true)).
  - intros y t t' Hy Ht. apply range_ge in Hy.
    apply (for_each_invariant (fun t => cell t y0 x0 = Some true));
      [|assumption].
    intros x r r' Hx Hr. apply range_ge in Hx.
    destruct (getitem long x) as [lx'|] eqn:Hlx'; simpl; [|discriminate].
    destruct (getitem lat y) as [ly'|] eqn:Hly'; simpl; [|discriminate].
    apply getitem_nonneg in Hlx'; [|lia].
    apply getitem_nonneg in Hly'; [|lia].
    destruct (contains_point L coords (lx', ly')) eqn:Hin.
    + intros Hset. rewrite <- Hr.
      apply (setitem2_other _ _ _ _ _ _ _ Hset); [lia|lia|].
      intros [= Hy0 Hx0]. subst y0 x0.
      rewrite Hlx in Hlx'. rewrite Hly in Hly'.
      injection Hlx' as <-. injection Hly' as <-. congruence.
    + intros [= <-]. assumption.
  - apply np_full_cell; eapply lookup_lt_Some; eassumption.
Qed.

(** C3, at the rectangle [rect_west] on the grid [lat4] x [long6].
    The point (1, 3) lies outside the rectangle (its sides are at
    longitudes 1.5 and 3.5 and latitudes 0.5 and 2.5). Whenever
    [contains_point] says so, the two paths disagree: the rectangle path
    includes the cell of that point, which is in the padded index range,
    and the polygon path does not. *)
Theorem rectangle_path_differs_from_polygon_path (L : pylib) :
  contains_point L rect_west (1, 3) = false ->
  find_selection_polygon L rect_west lat4 long6
  <> find_selection_rectangle rect_west lat4 long6.
Proof.
  intros Hout Heq.
  assert (Hrect : exists m, find_selection_rectangle rect_west lat4 long6 = Ok m
                            /\ cell m 0 1 = Some false).
  { eexists. split; reflexivity. }
  destruct Hrect as (m & Hm & Hcell).
  rewrite Hm in Heq.
  assert (Hkept : cell m 0 1 = Some true).
  { eapply (polygon_keeps_cell L rect_west lat4 long6 m 1 5 0 4 0 1 1 3);
      try reflexivity; try assumption; lia. }
  congruence.
Qed.

Lemma rectangle_path_differs_from_polygon_path_witness :
  find_selection_polygon rational_math rect_west lat4 long6
  <> find_selection_rectangle rect_west lat4 long6.
Proof.
  apply (rectangle_path_differs_from_polygon_path rational_math).
  reflexivity.
Defined.

(** C2. Whenever the loop of [find_selection_circle] reaches a sample
    point (the band of rows it searches is not empty and there is a
    column), the function raises instead of returning a mask: no point
    is ever marked as included by comparing a haversine distance with
    the radius. *)
Theorem find_selection_circle_raises (L : pylib) (center : point)
  (radius : Q) (lat long : list Q) :
  (fst (circle_rows center radius lat) < snd (circle_rows center radius lat))%Z ->
  long <> [] ->
  exists e, find_selection_circle L center radius lat long = Raise e.
Proof.
  unfold circle_rows, find_selection_circle.
  destruct (get_circle_y_bounds center radius) as [ymin ymax]. simpl.
  intros Hrows Hlong.
  pose proof (searchsorted_bounds (rev lat) ymax) as Hmax.
  pose proof (searchsorted_bounds (rev lat) ymin) as Hmin.
  unfold len in Hmax, Hmin. rewrite length_rev in Hmax, Hmin.
  fold (len lat) in Hmax, Hmin.
  set (y_lo := (len lat - searchsorted (rev lat) ymax)%Z) in *.
  set (y_hi := (len lat - searchsorted (rev lat) ymin - 1)%Z) in *.
  rewrite (range_cons y_lo y_hi) by assumption.
  assert (Hcols : (0 < len long)%Z).
  { destruct long; [congruence|]. unfold len. simpl. lia. }
  rewrite (range_cons 0 (len long)) by assumption.
  destruct (getitem_valid long 0) as (lx & Hlx & _); [lia|].
  destruct (getitem_valid lat y_lo) as (ly & Hly & _); [lia|].
  destruct (distance_raises L center (lx, ly)) as [e He].
  exists e. apply for_each_raise_first. apply for_each_raise_first.
  rewrite Hlx. simpl. rewrite Hly. simpl. rewrite He. reflexivity.
Qed.

(** The circle of the specification's example, centre (0, 0) and
    radius 111 km, on latitudes 1.5, 0.5, -0.5 and -1.5: the sample
    half a degree from the centre is reached, and the call raises. *)
Lemma find_selection_circle_raises_witness :
  exists e,
    find_selection_circle rational_math (0, 0) 111
      [3#2; 1#2; -1#2; -3#2] [0] = Raise e.
Proof.
  apply (find_selection_circle_raises rational_math (0, 0) 111
           [3#2; 1#2; -1#2; -3#2] [0]).
  - vm_compute. reflexivity.
  - discriminate.
Defined.

(** C9 (as the code has it). A selection whose geometry type is
    neither ['Point'] nor ['Polygon'] raises nothing: [find_selection]
    returns [None], no mask at all. *)
Theorem find_selection_other_type (L : pylib) (sel : selection)
  (lat long : list Q) :
  geometry_type sel <> "Point"%string ->
  geometry_type sel <> "Polygon"%string ->
  find_selection L sel lat long = Ok None.
Proof.
  intros Hpoint Hpolygon. unfold find_selection.
  destruct (String.eqb_spec (geometry_type sel) "Point"); [contradiction|].
  destruct (String.eqb_spec (geometry_type sel) "Polygon"); [contradiction|].
  reflexivity.
Qed.

Lemma find_selection_other_type_witness :
  find_selection rational_math line_string lat4 long6 = Ok None.
Proof.
  apply (find_selection_other_type rational_math line_string lat4 long6);
    discriminate.
Defined.

(** C9, refuted as stated: a ['LineString'] selection is answered with
    [None] and without an exception. *)
Lemma line_string_not_reported :
  is_ok (find_selection rational_math line_string lat4 long6) = true /\
  find_selection rational_math line_string lat4 long6 = Ok None.
Proof. split; reflexivity. Qed.

End SelectionFacts.

(** ** Combining the masks of several shapes *)

Module LayerFacts.
Import Py PyFacts Selection SelectionFacts Layer.

(** Cell [(y, x)] of the mask is [true]: the cell is excluded. *)
Definition masked_out (m : mask) (y x : nat) : bool :=
  bool_decide (cell m y x = Some true).

Lemma mask_and_cell (a b : mask) (y x : nat) :
  cell (mask_and a b) y x =
  match cell a y x, cell b y x with
  | Some p, Some q => Some (p && q)
  | _, _ => None
  end.
Proof.
  unfold cell, mask_and. rewrite lookup_zip_with.
  destruct (a !! y) as [ra|]; simpl; [|reflexivity].
  destruct (b !! y) as [rb|]; simpl.
  - rewrite lookup_zip_with.
    destruct (ra !! x); simpl; [|reflexivity].
    destruct (rb !! x); reflexivity.
  - destruct (ra !! x); reflexivity.
Qed.

Lemma mask_and_shaped (rows cols : nat) (a b : mask) :
  shaped rows cols a -> shaped rows cols b -> shaped rows cols (mask_and a b).
Proof.
  intros [Ha Hra] [Hb Hrb]. unfold mask_and. split.
  - rewrite length_zip_with. lia.
  - apply Forall_lookup. intros y row Hrow.
    apply lookup_zip_with_Some in Hrow as (ra & rb & -> & Hya & Hyb).
    rewrite length_zip_with.
    rewrite (proj1 (Forall_lookup _ _) Hra _ _ Hya).
    rewrite (proj1 (Forall_lookup _ _) Hrb _ _ Hyb). lia.
Qed.

(** A loop over the positions of a list that fetches each element is a
    loop over the elements. *)
Lemma for_each_by_index {A S} (F : A -> S -> result S) (pre tl : list A)
  (acc : S) :
  for_each (range (len pre) (len (pre ++ tl)))
    (fun i m => let* s := getitem (pre ++ tl) i in F s m) acc
  = for_each tl F acc.
Proof.
  revert pre acc. induction tl as [|s tl IH]; intros pre acc.
  - rewrite app_nil_r, range_nil by lia. reflexivity.
  - assert (Hlen : (len pre < len (pre ++ s :: tl))%Z).
    { unfold len. rewrite length_app. simpl. lia. }
    rewrite range_cons by assumption. cbn [for_each].
    destruct (getitem_valid (pre ++ s :: tl) (len pre)) as (s' & -> & Hs').
    { split; [unfold len; lia|assumption]. }
    unfold len in Hs'. rewrite Nat2Z.id, list_lookup_middle in Hs'
      by reflexivity.
    injection Hs' as <-. cbn [bind].
    destruct (F s acc) as [acc'|e]; [|reflexivity]. cbn [bind].
    specialize (IH (pre ++ [s]) acc').
    rewrite <- app_assoc in IH. simpl in IH.
    replace (len (pre ++ [s])) with (len pre + 1)%Z in IH
      by (unfold len; rewrite length_app; simpl; lia).
    exact IH.
Qed.

Section Combination.
Variable L : pylib.
Variables lat long : list Q.

(** The body of the loop of [get_selection]. *)
Definition and_next (s : selection) (m : option mask) : result (option mask) :=
  let* mi := find_selection L s lat long in and_ m mi.

Lemma and_loop (tl : list selection) (m0 m : mask) :
  shaped (length lat) (length long) m0 ->
  for_each tl and_next (Some m0) = Ok (Some m) ->
  exists ms,
    Forall2 (fun s mi => find_selection L s lat long = Ok (Some mi)) tl ms /\
    shaped (length lat) (length long) m /\
    forall y x,
      cell m y x =
      fold_left (fun c mi => match c, cell mi y x with
                             | Some p, Some q => Some (p && q)
                             | _, _ => None
                             end) ms (cell m0 y x).
Proof.
  revert m0. induction tl as [|s tl IH]; intros m0 Hm0; cbn [for_each].
  - intros [= <-]. exists []. split; [constructor|]. split; [assumption|].
    reflexivity.
  - unfold and_next at 1.
    destruct (find_selection L s lat long) as [[mi|]|] eqn:Hs; cbn [bind and_];
      try discriminate.
    intros Hloop.
    pose proof (find_selection_shaped _ _ _ _ _ Hs) as Hmi.
    destruct (IH (mask_and m0 mi) (mask_and_shaped _ _ _ _ Hm0 Hmi) Hloop)
      as (ms & Hms & Hm & Hcell).
    exists (mi :: ms). split; [constructor; assumption|].
    split; [assumption|].
    intros y x. rewrite Hcell. simpl. rewrite mask_and_cell. reflexivity.
Qed.

(** On cells of the grid the combination is a conjunction: the cell
    is excluded when every shape excludes it. *)
Lemma fold_cells (ms : list mask) (y x : nat) (b0 : bool) :
  Forall (shaped (length lat) (length long)) ms ->
  (y < length lat)%nat -> (x < length long)%nat ->
  fold_left (fun c mi => match c, cell mi y x with
                         | Some p, Some q => Some (p && q)
                         | _, _ => None
                         end) ms (Some b0)
  = Some (b0 && forallb (fun mi => masked_out mi y x) ms).
Proof.
  intros Hms Hy Hx. revert b0.
  induction Hms as [|mi ms Hmi _ IH]; intros b0; simpl.
  - rewrite andb_true_r. reflexivity.
  - destruct (shaped_cell _ _ _ _ _ Hmi Hy Hx) as [q Hq].
    rewrite Hq, IH. unfold masked_out at 2. rewrite Hq.
    destruct b0, q; simpl; try reflexivity;
      rewrite ?bool_decide_eq_true_2, ?bool_decide_eq_false_2
        by congruence; reflexivity.
Qed.

(** The mask of two or more shapes. *)
Lemma selection_mask_several (sels : list selection) (om : option mask) :
  (2 <= length sels)%nat ->
  selection_mask L (Several sels) lat long = Ok om ->
  exists m ms,
    om = Some m /\
    Forall2 (fun s mi => find_selection L s lat long = Ok (Some mi)) sels ms /\
    shaped (length lat) (length long) m /\
    forall y x, (y < length lat)%nat -> (x < length long)%nat ->
      cell m y x = Some (forallb (fun mi => masked_out mi y x) ms).
Proof.
  intros Hlen. unfold selection_mask.
  destruct sels as [|s0 tl]; [simpl in Hlen; lia|].
  destruct (getitem_valid (s0 :: tl) 0) as (s & Hs & Hlook).
  { unfold len. simpl. lia. }
  rewrite Hs. simpl in Hlook. injection Hlook as <-. cbn [bind].
  destruct (find_selection L s0 lat long) as [om0|] eqn:H0; cbn [bind];
    [|discriminate].
  pose proof (for_each_by_index and_next [s0] tl om0) as Hloop.
  change ([s0] ++ tl) with (s0 :: tl) in Hloop.
  change (len [s0]) with 1%Z in Hloop.
  unfold and_next at 1 in Hloop. rewrite Hloop. clear Hloop.
  destruct tl as [|s1 tl]; [simpl in Hlen; lia|].
  cbn [for_each]. unfold and_next at 1.
  destruct (find_selection L s1 lat long) as [[m1|]|] eqn:H1; cbn [bind];
    try (destruct om0; discriminate).
  destruct om0 as [m0|]; [|discriminate]. cbn [and_ bind].
  pose proof (find_selection_shaped _ _ _ _ _ H0) as Hm0.
  pose proof (find_selection_shaped _ _ _ _ _ H1) as Hm1.
  intros Hfold.
  assert (Hom : exists m, om = Some m).
  { destruct om as [m|]; [eauto|]. exfalso. clear -Hfold.
    revert Hfold. generalize (mask_and m0 m1).
    induction tl as [|s tl IH]; intros acc; cbn [for_each].
    - discriminate.
    - unfold and_next at 1.
      destruct (find_selection L s lat long) as [[mi|]|]; cbn [bind and_];
        try discriminate.
      apply IH. }
  destruct Hom as [m ->].
  destruct (and_loop tl _ m (mask_and_shaped _ _ _ _ Hm0 Hm1) Hfold)
    as (ms & Hms & Hm & Hcell).
  exists m, (m0 :: m1 :: ms). split; [reflexivity|].
  split; [repeat constructor; assumption|]. split; [assumption|].
  intros y x Hy Hx. rewrite Hcell, mask_and_cell.
  destruct (shaped_cell _ _ _ _ _ Hm0 Hy Hx) as [b0 Hb0].
  destruct (shaped_cell _ _ _ _ _ Hm1 Hy Hx) as [b1 Hb1].
  rewrite Hb0, Hb1, fold_cells; try assumption.
  - f_equal. simpl. unfold masked_out at 2 3. rewrite Hb0, Hb1.
    destruct b0, b1; simpl; try reflexivity;
      rewrite ?bool_decide_eq_true_2, ?bool_decide_eq_false_2
        by congruence; reflexivity.
  - clear -Hms. induction Hms as [|s mi tl ms Hs _ IH]; constructor.
    + eapply find_selection_shaped; eassumption.
    + assumption.
Qed.
End Combination.

(** *** [get_selection] *)

Lemma np_ma_array_same_shape {V} (rows cols : nat) (d : grid V) (m : mask) :
  shaped rows cols d -> shaped rows cols m ->
  np_ma_array d (Some m) = Ok {| ma_data := d; ma_mask := m |}.
Proof.
  intros Hd Hm. unfold np_ma_array, shape_eqb.
  rewrite bool_decide_eq_true_2; [reflexivity|].
  rewrite (shaped_lengths _ _ _ Hd), (shaped_lengths _ _ _ Hm). reflexivity.
Qed.

(** A raster layer on the grid [lat4] x [long6] with a single frame,
    and two overlapping rectangles drawn on it. *)
Definition frame0 : grid Z := replicate 4 (replicate 6 0%Z).

Definition raster0 : RasterLayer.t Z unit unit unit :=
  {| RasterLayer.coords := (lat4, long6);
     RasterLayer.data := [frame0];
     RasterLayer.cmap := "viridis";
     RasterLayer.cache := [RasterLayer.Frame tt];
     RasterLayer.transform := tt;
     RasterLayer.frame := 0;
     RasterLayer.bounds := tt;
     RasterLayer.bounds_img := tt;
     RasterLayer.url := Some tt |}.

Definition west : selection := polygon_of rect_west.
Definition east : selection := polygon_of rect_east.

Definition mask_west : mask :=
  [[true; false; false; false; false; true];
   [true; false; false; false; false; true];
   [true; false; false; false; false; true];
   [true; false; false; false; false; true]].

Definition mask_east : mask :=
  [[true; true; false; false; false; false];
   [true; true; false; false; false; false];
   [true; true; false; false; false; false];
   [true; true; false; false; false; false]].

(** Only the westmost column is outside both rectangles. *)
Definition mask_west_east : mask :=
  [[true; false; false; false; false; false];
   [true; false; false; false; false; false];
   [true; false; false; false; false; false];
   [true; false; false; false; false; false]].

(** C1 (as the code has it). For a query of two or more shapes on a
    layer whose frames have one row per latitude and one column per
    longitude, every shape has a mask of its own and the mask
    [get_selection] returns is their conjunction ([&]): a cell is
    excluded exactly when every shape excludes it, so a cell that some
    shape includes is included. *)
Theorem get_selection_several_is_and {V bbox affine artifact : Type}
  (L : pylib) (l : RasterLayer.t V bbox affine artifact)
  (sels : list selection) (r : masked_array V) :
  Forall (shaped (length (fst (RasterLayer.coords l)))
                 (length (snd (RasterLayer.coords l))))
         (RasterLayer.data l) ->
  (2 <= length sels)%nat ->
  RasterLayer.get_selection L l (Several sels) = Ok r ->
  exists ms,
    Forall2 (fun s mi =>
               find_selection L s (fst (RasterLayer.coords l))
                 (snd (RasterLayer.coords l)) = Ok (Some mi)) sels ms /\
    forall y x,
      (y < length (fst (RasterLayer.coords l)))%nat ->
      (x < length (snd (RasterLayer.coords l)))%nat ->
      cell (ma_mask r) y x = Some (forallb (fun mi => masked_out mi y x) ms) /\
      (forall mi, mi ∈ ms -> cell mi y x = Some false ->
                  cell (ma_mask r) y x = Some false).
Proof.
  intros Hdata Hsels. unfold RasterLayer.get_selection.
  destruct (selection_mask L (Several sels) _ _) as [om|] eqn:Hmask;
    cbn [bind]; [|discriminate].
  destruct (selection_mask_several _ _ _ _ _ Hsels Hmask)
    as (m & ms & -> & Hms & Hm & Hcell).
  destruct (getitem (RasterLayer.data l) (RasterLayer.frame l)) as [d|] eqn:Hd;
    cbn [bind]; [|discriminate].
  assert (Hshape : shaped (length (fst (RasterLayer.coords l)))
                          (length (snd (RasterLayer.coords l))) d).
  { unfold getitem in Hd.
    destruct (norm_index _ _) as [k|]; cbn [bind] in Hd; [|discriminate].
    destruct (RasterLayer.data l !! k) as [d'|] eqn:Hk; [|discriminate].
    injection Hd as <-.
    exact (proj1 (Forall_lookup _ _) Hdata _ _ Hk). }
  rewrite (np_ma_array_same_shape _ _ _ _ Hshape Hm). intros [= <-].
  exists ms. split; [assumption|]. intros y x Hy Hx. cbn [ma_mask].
  split; [apply Hcell; assumption|].
  intros mi Hmi Hin. rewrite Hcell by assumption. f_equal.
  apply not_true_is_false. intros Hall.
  rewrite forallb_forall in Hall.
  specialize (Hall mi (proj1 (list_elem_of_In _ _) Hmi)).
  unfold masked_out in Hall. apply bool_decide_eq_true_1 in Hall. congruence.
Qed.

Lemma get_selection_several_is_and_witness :
  exists ms,
    Forall2 (fun s mi => find_selection rational_math s lat4 long6 = Ok (Some mi))
            [west; east] ms /\
    forall y x, (y < 4)%nat -> (x < 6)%nat ->
      cell mask_west_east y x = Some (forallb (fun mi => masked_out mi y x) ms) /\
      (forall mi, mi ∈ ms -> cell mi y x = Some false ->
                  cell mask_west_east y x = Some false).
Proof.
  apply (get_selection_several_is_and rational_math raster0 [west; east]
           {| ma_data := frame0; ma_mask := mask_west_east |}).
  - repeat constructor.
  - simpl. lia.
  - reflexivity.
Defined.

(** C1, refuted as stated: the cell in the first row and the last
    column is excluded by the western rectangle taken alone, and the
    mask of the two rectangles together includes it. The combined mask
    is not the disjunction of the two exclusion masks. *)
Lemma combination_includes_excluded_cell :
  find_selection rational_math west lat4 long6 = Ok (Some mask_west) /\
  find_selection rational_math east lat4 long6 = Ok (Some mask_east) /\
  cell mask_west 0 5 = Some true /\
  RasterLayer.get_selection rational_math raster0 (Several [west; east])
    = Ok {| ma_data := frame0; ma_mask := mask_west_east |} /\
  cell mask_west_east 0 5 = Some false /\
  mask_west_east <> zip_with (zip_with orb) mask_west mask_east.
Proof. repeat split; try reflexivity. discriminate. Qed.

(** *** [WindLayer.get_selection] *)

(** C10 (as the code has it). Whenever [WindLayer.get_selection]
    returns, both elements of the pair are the masked array of the
    eastward component [u] of the current frame; the result is the same
    whatever the northward component [v] holds. *)
Theorem wind_get_selection_u_twice {V : Type} (L : pylib)
  (l : WindLayer.t V) (sel : selection_arg)
  (r : masked_array V * masked_array V) :
  WindLayer.get_selection L l sel = Ok r ->
  (exists d m,
      getitem (WindLayer.u l) (WindLayer.frame l) = Ok d /\
      selection_mask L sel (fst (WindLayer.coords l)) (snd (WindLayer.coords l))
        = Ok m /\
      np_ma_array d m = Ok (fst r) /\
      np_ma_array d m = Ok (snd r)) /\
  (forall v' : list (grid V),
      WindLayer.get_selection L
        {| WindLayer.coords := WindLayer.coords l; WindLayer.u := WindLayer.u l;
           WindLayer.v := v'; WindLayer.frame := WindLayer.frame l |} sel
      = Ok r).
Proof.
  unfold WindLayer.get_selection. cbn [WindLayer.coords WindLayer.u WindLayer.frame].
  intros Hr. split; [|intros v'; exact Hr].
  destruct (selection_mask L sel _ _) as [m|]; cbn [bind] in Hr; [|discriminate].
  destruct (getitem (WindLayer.u l) (WindLayer.frame l)) as [d|];
    cbn [bind] in Hr; [|discriminate].
  destruct (np_ma_array d m) as [a|] eqn:Ha; cbn [bind] in Hr; [|discriminate].
  injection Hr as <-. exists d, m. auto.
Qed.

(** A wind layer on the grid [lat4] x [long6] whose two components
    differ in every cell. *)
Definition wind0 : WindLayer.t Z :=
  {| WindLayer.coords := (lat4, long6);
     WindLayer.u := [replicate 4 (replicate 6 1%Z)];
     WindLayer.v := [replicate 4 (replicate 6 2%Z)];
     WindLayer.frame := 0 |}.

Definition masked_u : masked_array Z :=
  {| ma_data := replicate 4 (replicate 6 1%Z); ma_mask := mask_west |}.

Lemma wind_get_selection_u_twice_witness :
  (exists d m,
      getitem (WindLayer.u wind0) 0 = Ok d /\
      selection_mask rational_math (One west) lat4 long6 = Ok m /\
      np_ma_array d m = Ok masked_u /\
      np_ma_array d m = Ok masked_u) /\
  (forall v' : list (grid Z),
      WindLayer.get_selection rational_math
        {| WindLayer.coords := (lat4, long6);
           WindLayer.u := [replicate 4 (replicate 6 1%Z)];
           WindLayer.v := v'; WindLayer.frame := 0 |} (One west)
      = Ok (masked_u, masked_u)).
Proof.
  apply (wind_get_selection_u_twice rational_math wind0 (One west)
           (masked_u, masked_u)).
  reflexivity.
Defined.

(** The same dataset read with stride 2: the coordinates are every
    second latitude and longitude, the components are whole. *)
Definition wind_stride2 : WindLayer.t Z :=
  {| WindLayer.coords := WindLayer.init_coords 2 lat4 long6;
     WindLayer.u := [replicate 4 (replicate 6 1%Z)];
     WindLayer.v := [replicate 4 (replicate 6 2%Z)];
     WindLayer.frame := 0 |}.

(** A circle of 111 km around the point (0, 0). *)
Definition circle : selection :=
  {| geometry_type := "Point"; geometry_coordinates := Position (0%Q, 0%Q);
     style_radius := Some 111000%Q |}.

(** C10, refuted as stated: [get_selection] does not return a pair for
    every wind layer and every selection. On a layer read with stride 2
    the mask has the shape of the strided coordinates, 2 x 3, and the
    frame of [u] the shape of the dataset, 4 x 6, and [np.ma.array]
    refuses the mask; on any layer a circle whose band of latitudes
    reaches a row of the grid makes [distance] raise. *)
Lemma wind_get_selection_raises :
  WindLayer.coords wind_stride2 = ([3; 1]%Q, [0; 2; 4]%Q) /\
  WindLayer.get_selection rational_math wind_stride2 (One west)
  = Raise MaskError /\
  WindLayer.get_selection rational_math wind0 (One circle) = Raise TypeError.
Proof. repeat split; vm_compute; reflexivity. Qed.

End LayerFacts.


(** ** The frame cache *)

Module RasterFacts.
Import Py PyFacts Selection Layer RasterLayer.

Section Cache.
Context {V bbox affine artifact : Type}.
Variable process_frame_raster : grid V -> bbox -> affine -> string -> artifact.

Local Abbreviation state := (RasterLayer.state V bbox affine artifact).
Local Abbreviation update_frame := (RasterLayer.update_frame process_frame_raster).
Local Abbreviation buffer_frames := (@RasterLayer.buffer_frames V bbox affine artifact).
Local Abbreviation step := (RasterLayer.step process_frame_raster).
Local Abbreviation run := (RasterLayer.run process_frame_raster).

(** The calls of [buffer_frames] one call of [update_frame(i)] makes. *)
Definition requests_of (c : list (entry artifact)) (i : Z) : list (Z * Z) :=
  (if (i mod 10 =? 0)%Z then [((i + 1)%Z, 40%Z)] else [])
  ++ match c !! Z.to_nat i with
     | Some Zero => [((i + 1)%Z, 50%Z)]
     | _ => []
     end.

(** [update_frame(i)] on an entry that holds a frame. *)
Lemma update_frame_hit (s : state) (i : Z) (a : artifact) :
  getitem (cache s.1) i = Ok (Frame a) ->
  update_frame (Some i) s
  = (Ok tt, (set_url a (set_frame i s.1),
             if (i mod 10 =? 0)%Z then hold_back (i + 1) 40 s.2 else s.2)).
Proof.
  destruct s as [l e]. cbn [fst snd]. intros Hget.
  unfold RasterLayer.update_frame, mbind, self, on_layer, lift, ret,
    debounced_buffer_frames, on_env.
  cbn [fst snd].
  destruct (i mod 10 =? 0)%Z; cbn [fst snd set_frame cache frame];
    rewrite Hget; reflexivity.
Qed.

(** [update_frame(i)] on an entry that is still [0]. *)
Lemma update_frame_miss (s : state) (i : Z) (d : grid V) :
  (0 <= i < len (cache s.1))%Z ->
  cache s.1 !! Z.to_nat i = Some Zero ->
  getitem (data s.1) i = Ok d ->
  let img := process_frame_raster d (bounds_img s.1) (transform s.1) (cmap s.1) in
  update_frame (Some i) s
  = (Ok tt,
     (set_cache (<[Z.to_nat i:=Frame img]> (cache s.1))
        (set_url img (set_frame i s.1)),
      hold_back (i + 1) 50
        (log_assigned (Z.to_nat i)
           (log_rendered d
              (if (i mod 10 =? 0)%Z then hold_back (i + 1) 40 s.2 else s.2))))).
Proof.
  destruct s as [l e]. cbn [fst snd]. intros Hi Hzero Hd. cbv zeta.
  assert (Hget : getitem (cache l) i = Ok Zero).
  { destruct (getitem_valid (cache l) i Hi) as (x & Hx & Hlook). congruence. }
  unfold RasterLayer.update_frame, mbind, self, on_layer, lift, ret,
    debounced_buffer_frames, on_env, process_frame, cache_assign.
  cbn [fst snd].
  destruct (i mod 10 =? 0)%Z;
    cbn [fst snd mbind set_frame set_url cache frame data bounds_img transform cmap];
    rewrite Hget, Hd; unfold mbind, self, on_layer, lift, on_env, ret;
    cbn [fst snd set_frame set_url cache];
    rewrite (setitem_valid _ _ _ Hi), (norm_index_valid _ _ Hi);
    reflexivity.
Qed.

Lemma getitem_lookup {A} (l : list A) (i : Z) (x : A) :
  (0 <= i < len l)%Z -> l !! Z.to_nat i = Some x -> getitem l i = Ok x.
Proof.
  intros Hi Hx. destruct (getitem_valid l i Hi) as (y & Hy & Hlook). congruence.
Qed.

(** C4. For a valid frame index [i], [update_frame(i)] returns with the
    cache entry at [i] holding the frame it displays, and a second
    [update_frame(i)] displays that same frame from the cache: it
    renders nothing and assigns nothing to the cache. *)
Theorem update_frame_twice (s : state) (i : Z) :
  (0 <= i < len (cache s.1))%Z ->
  length (data s.1) = length (cache s.1) ->
  exists a s1 s2,
    update_frame (Some i) s = (Ok tt, s1) /\
    cache s1.1 !! Z.to_nat i = Some (Frame a) /\
    url s1.1 = Some a /\
    update_frame (Some i) s1 = (Ok tt, s2) /\
    url s2.1 = Some a /\
    cache s2.1 = cache s1.1 /\
    rendered s2.2 = rendered s1.2 /\
    assigned s2.2 = assigned s1.2.
Proof.
  intros Hi Hlen.
  destruct (getitem_valid (cache s.1) i Hi) as (x & Hx & Hlook).
  destruct x as [|a].
  - destruct (getitem_valid (data s.1) i) as (d & Hd & _).
    { unfold len in *. lia. }
    pose proof (update_frame_miss s i d Hi Hlook Hd) as Hmiss. cbv zeta in Hmiss.
    set (img := process_frame_raster d (bounds_img s.1) (transform s.1)
                  (cmap s.1)) in Hmiss.
    eexists img, _, _. split; [exact Hmiss|].
    cbn [fst snd set_cache cache url set_url].
    assert (Hnew : <[Z.to_nat i:=Frame img]> (cache s.1) !! Z.to_nat i
                   = Some (Frame img)).
    { apply list_lookup_insert_eq. unfold len in Hi. lia. }
    split; [exact Hnew|]. split; [reflexivity|].
    split.
    + apply update_frame_hit. cbn [fst set_cache cache].
      apply getitem_lookup; [|exact Hnew].
      unfold len. rewrite length_insert. exact Hi.
    + cbn [fst snd set_url set_frame set_cache url cache].
      destruct (i mod 10 =? 0)%Z; repeat split; reflexivity.
  - pose proof (update_frame_hit s i a Hx) as Hhit.
    eexists a, _, _. split; [exact Hhit|].
    cbn [fst snd set_url set_frame url cache].
    split; [exact Hlook|]. split; [reflexivity|].
    split.
    + apply update_frame_hit. exact Hx.
    + cbn [fst snd set_url set_frame url cache].
      destruct (i mod 10 =? 0)%Z; repeat split; reflexivity.
Qed.

(** C5 (as the code has it). For a valid frame index [i],
    [update_frame(i)] calls [buffer_frames(i+1, 40)] when [i] is a
    multiple of 10, and then [buffer_frames(i+1, 50)] when the cache entry
    at [i] was still [0]; it makes no other call. On a hit at an index
    that is not a multiple of 10 it asks for no prefetch. *)
Theorem update_frame_requests (s : state) (i : Z) :
  (0 <= i < len (cache s.1))%Z ->
  length (data s.1) = length (cache s.1) ->
  requested (update_frame (Some i) s).2.2
  = requested s.2 ++ requests_of (cache s.1) i.
Proof.
  intros Hi Hlen. unfold requests_of.
  destruct (getitem_valid (cache s.1) i Hi) as (x & Hx & Hlook).
  rewrite Hlook. destruct x as [|a].
  - destruct (getitem_valid (data s.1) i) as (d & Hd & _).
    { unfold len in *. lia. }
    rewrite (update_frame_miss s i d Hi Hlook Hd). cbn [fst snd].
    destruct (i mod 10 =? 0)%Z; cbn [requested hold_back log_assigned log_rendered];
      rewrite <- ?app_assoc; reflexivity.
  - rewrite (update_frame_hit s i a Hx). cbn [fst snd].
    destruct (i mod 10 =? 0)%Z; cbn [requested hold_back];
      rewrite ?app_nil_r; reflexivity.
Qed.

(** *** Entries that hold a frame keep holding one *)

(** [c'] has a frame wherever [c] has one. *)
Definition grows (c c' : list (entry artifact)) : Prop :=
  length c' = length c /\
  forall k a, c !! k = Some (Frame a) -> exists a', c' !! k = Some (Frame a').

(** Code that never turns an entry with a frame back into [0]. *)
Definition keeps_frames {A} (m : M state A) : Prop :=
  forall s, grows (cache s.1) (cache (m s).2.1).

Lemma grows_refl (c : list (entry artifact)) : grows c c.
Proof. split; eauto. Qed.

Lemma grows_trans (c1 c2 c3 : list (entry artifact)) :
  grows c1 c2 -> grows c2 c3 -> grows c1 c3.
Proof.
  intros [H12 F12] [H23 F23]. split; [congruence|].
  intros k a Hk. destruct (F12 k a Hk) as [a' Hk']. eauto.
Qed.

Lemma grows_insert (c : list (entry artifact)) (k : nat) (a : artifact) :
  grows c (<[k:=Frame a]> c).
Proof.
  split; [apply length_insert|]. intros j b Hj.
  destruct (decide (k = j)) as [->|Hne].
  - exists a. apply list_lookup_insert_eq. eapply lookup_lt_Some; eassumption.
  - exists b. rewrite list_lookup_insert_ne by assumption. assumption.
Qed.

Lemma keeps_frames_same {A} (m : M state A) :
  (forall s, cache (m s).2.1 = cache s.1) -> keeps_frames m.
Proof. intros H s. rewrite H. apply grows_refl. Qed.

Lemma keeps_frames_bind {A B} (m : M state A) (k : A -> M state B) :
  keeps_frames m -> (forall a, keeps_frames (k a)) -> keeps_frames (mbind m k).
Proof.
  intros Hm Hk s. unfold mbind. specialize (Hm s).
  destruct (m s) as [[a|e] s']; cbn [fst snd] in *.
  - eapply grows_trans; [exact Hm|apply Hk].
  - exact Hm.
Qed.

Lemma keeps_frames_for_each {A} (xs : list A) (body : A -> M state unit) :
  (forall x, keeps_frames (body x)) -> keeps_frames (for_each_M xs body).
Proof.
  intros Hbody. induction xs as [|x xs IH]; cbn [for_each_M].
  - apply keeps_frames_same. reflexivity.
  - apply keeps_frames_bind; [apply Hbody|intros _; exact IH].
Qed.

Lemma keeps_frames_cache_assign (i : Z) (a : artifact) :
  keeps_frames (cache_assign i a).
Proof.
  intros [l e]. unfold cache_assign, mbind, self, lift, on_layer, on_env, setitem.
  cbn [fst snd].
  destruct (norm_index (len (cache l)) i) as [k|]; cbn [bind fst snd cache set_cache].
  - apply grows_insert.
  - apply grows_refl.
Qed.

Ltac keeps_frames_tac :=
  repeat first
    [ apply keeps_frames_cache_assign
    | apply keeps_frames_bind; [|intros ?]
    | apply keeps_frames_for_each; intros ?
    | match goal with
      | |- keeps_frames (if ?b then _ else _) => destruct b
      | |- keeps_frames (match ?c with _ => _ end) => destruct c
      end
    | apply keeps_frames_same; intros [? ?]; reflexivity ].

Lemma keeps_frames_update_frame (i : option Z) : keeps_frames (update_frame i).
Proof.
  unfold RasterLayer.update_frame, process_frame, debounced_buffer_frames.
  keeps_frames_tac.
Qed.

Lemma keeps_frames_buffer_frames (start n : Z) :
  keeps_frames (buffer_frames start n).
Proof. unfold RasterLayer.buffer_frames, apply_async. keeps_frames_tac. Qed.

Lemma keeps_frames_timer : keeps_frames (@timer V bbox affine artifact).
Proof. unfold timer. keeps_frames_tac. Qed.

Lemma keeps_frames_complete (k : nat) :
  keeps_frames (complete process_frame_raster k).
Proof. unfold complete, cache_frame. keeps_frames_tac. Qed.

Lemma step_grows (s : state) (ev : event) :
  grows (cache s.1) (cache (step s ev).1).
Proof.
  unfold RasterLayer.step. destruct ev.
  - apply keeps_frames_update_frame.
  - apply keeps_frames_timer.
  - apply keeps_frames_complete.
Qed.

Lemma run_grows (evs : list event) (s : state) :
  grows (cache s.1) (cache (run evs s).1).
Proof.
  revert s. induction evs as [|ev evs IH]; intros s; cbn.
  - apply grows_refl.
  - eapply grows_trans; [apply step_grows|apply IH].
Qed.

(** *** What [buffer_frames] hands to the pool *)

Lemma buffer_frames_loop (data : list (grid V)) (start : Z) (xs : list Z)
  (s : state) :
  let body := fun i : Z =>
    let! l := self in
    let! c := lift (getitem (cache l) (start + i)) in
    match c with
    | Frame _ => ret tt
    | Zero =>
        let! d := lift (getitem data i) in
        apply_async {| task_frame := (start + i)%Z; task_data := d;
                       task_bounds := bounds_img l;
                       task_transform := transform l;
                       task_cmap := cmap l |}
    end in
  let s' := (for_each_M xs body s).2 in
  s'.1 = s.1 /\
  rendered s'.2 = rendered s.2 /\
  assigned s'.2 = assigned s.2 /\
  exists new,
    in_flight s'.2 = in_flight s.2 ++ new /\
    Forall (fun tk => getitem (cache s.1) (task_frame tk) = Ok Zero) new.
Proof.
  intros body. cbv zeta. revert s. induction xs as [|x xs IH]; intros [l e].
  - cbn. repeat split. exists []. rewrite app_nil_r. auto.
  - assert (Hbody :
      body x (l, e) =
      match getitem (cache l) (start + x) with
      | Ok Zero =>
          match getitem data x with
          | Ok d =>
              (Ok tt,
               (l, submit {| task_frame := (start + x)%Z; task_data := d;
                             task_bounds := bounds_img l;
                             task_transform := transform l;
                             task_cmap := cmap l |} e))
          | Raise err => (Raise err, (l, e))
          end
      | Ok (Frame _) => (Ok tt, (l, e))
      | Raise err => (Raise err, (l, e))
      end).
    { unfold body, mbind, self, lift, apply_async, on_env, ret. cbn [fst snd].
      destruct (getitem (cache l) (start + x)) as [[|a]|err]; reflexivity. }
    cbn [for_each_M]. rewrite mbind_run, Hbody. clear Hbody.
    destruct (getitem (cache l) (start + x)) as [[|a]|err] eqn:Hc.
    + destruct (getitem data x) as [d|err].
      * match goal with |- context [for_each_M xs body ?st] =>
          destruct (IH st) as (Hl & Hr & Ha & new & Hnew & Hall) end.
        cbn [fst snd] in *. rewrite Hl, Hr, Ha, Hnew.
        repeat split. eexists (_ :: new). cbn [submit in_flight].
        rewrite <- app_assoc. split; [reflexivity|].
        constructor; [exact Hc|exact Hall].
      * cbn [fst snd]. repeat split. exists []. rewrite app_nil_r. auto.
    + apply (IH (l, e)).
    + cbn [fst snd]. repeat split. exists []. rewrite app_nil_r. auto.
Qed.

(** C6 (as the code has it). An entry that holds a frame holds one after
    any sequence of updates, timer expiries and task completions, so that
    an entry goes from [0] to a frame at most once; [update_frame] on such
    an entry renders nothing and assigns nothing; and [buffer_frames]
    renders and assigns nothing itself and hands to the pool only tasks
    for entries that are [0] at that moment. *)
Theorem present_entries_stay (s : state) :
  (forall evs k a,
      cache s.1 !! k = Some (Frame a) ->
      exists a', cache (run evs s).1 !! k = Some (Frame a')) /\
  (forall i a,
      getitem (cache s.1) i = Ok (Frame a) ->
      let s' := (update_frame (Some i) s).2 in
      cache s'.1 = cache s.1 /\ rendered s'.2 = rendered s.2 /\
      assigned s'.2 = assigned s.2 /\ in_flight s'.2 = in_flight s.2) /\
  (forall start n,
      let s' := (buffer_frames start n s).2 in
      cache s'.1 = cache s.1 /\ rendered s'.2 = rendered s.2 /\
      assigned s'.2 = assigned s.2 /\
      exists new,
        in_flight s'.2 = in_flight s.2 ++ new /\
        Forall (fun tk => getitem (cache s.1) (task_frame tk) = Ok Zero) new).
Proof.
  split; [|split].
  - intros evs k a Hk. exact (proj2 (run_grows evs s) k a Hk).
  - intros i a Hget. cbv zeta. rewrite (update_frame_hit s i a Hget).
    cbn [fst snd set_url set_frame cache].
    destruct (i mod 10 =? 0)%Z; repeat split; reflexivity.
  - intros start n. cbv zeta. unfold RasterLayer.buffer_frames.
    unfold mbind at 1, self at 1. cbn [fst snd].
    destruct (buffer_frames_loop (getslice (data s.1) start (start + n)) start
                (range 0 n) s) as (Hl & Hr & Ha & new & Hnew & Hall).
    cbv zeta in Hl, Hr, Ha, Hnew.
    rewrite Hl. repeat split; try assumption. exists new. auto.
Qed.

End Cache.

(** *** A layer of sixty frames *)

(** Frame [k] is the 1 x 1 grid that holds [k], and rendering a frame
    gives back its data, so that the logs show which frame was rendered. *)
Definition frames60 : list (grid Z) := map (fun k => [[Z.of_nat k]]) (seq 0 60).

Definition render (d : grid Z) (_ _ : unit) (_ : string) : grid Z := d.

(** The layer as [__init__] leaves it: frame 0 rendered and cached,
    [buffer_frames(1, 50)] held back by the debounce timer. *)
Definition created : RasterLayer.state Z unit unit (grid Z) :=
  (init render [0%Q] [0%Q] frames60 "viridis" tt 0 tt tt).2.

(** The timer fires and the tasks for frames 1 to 50 go to the pool. *)
Definition dispatched : RasterLayer.state Z unit unit (grid Z) :=
  step render created Timer.

(** Before any task completes the slider moves to frame 1. *)
Definition shown : RasterLayer.state Z unit unit (grid Z) :=
  step render dispatched (Update (Some 1%Z)).

(** The first task in flight, the one for frame 1, completes. *)
Definition completed : RasterLayer.state Z unit unit (grid Z) :=
  step render shown (Complete 0).

Lemma update_frame_twice_witness :
  exists a s1 s2,
    update_frame render (Some 1%Z) created = (Ok tt, s1) /\
    cache s1.1 !! 1%nat = Some (Frame a) /\
    url s1.1 = Some a /\
    update_frame render (Some 1%Z) s1 = (Ok tt, s2) /\
    url s2.1 = Some a /\
    cache s2.1 = cache s1.1 /\
    rendered s2.2 = rendered s1.2 /\
    assigned s2.2 = assigned s1.2.
Proof.
  apply (update_frame_twice render created 1).
  - vm_compute. split; [discriminate|reflexivity].
  - reflexivity.
Defined.

Lemma update_frame_requests_witness :
  requested (update_frame render (Some 10%Z) created).2.2
  = requested created.2 ++ [(11%Z, 40%Z); (11%Z, 50%Z)].
Proof.
  apply (update_frame_requests render created 10).
  - vm_compute. split; [discriminate|reflexivity].
  - reflexivity.
Defined.

(** C5, refuted as stated: frame 1 is in the cache and 1 is not a
    multiple of 10, and [update_frame(1)] makes no call of
    [buffer_frames]: the log of calls and the call held back are as
    before. *)
Lemma hit_requests_no_prefetch :
  getitem (cache shown.1) 1 = Ok (Frame [[1%Z]]) /\
  requested (update_frame render (Some 1%Z) shown).2.2 = requested shown.2 /\
  pending (update_frame render (Some 1%Z) shown).2.2 = pending shown.2.
Proof. repeat split; vm_compute; reflexivity. Qed.

(** C6, refuted as stated: once frame 1 has been shown its cache entry
    holds a frame, and the completion of the task that was handed to the
    pool beforehand renders frame 1 a second time and assigns the entry a
    second time. *)
Lemma present_entry_assigned_again :
  cache shown.1 !! 1%nat = Some (Frame [[1%Z]]) /\
  rendered shown.2 = [[[0%Z]]; [[1%Z]]] /\
  assigned shown.2 = [0%nat; 1%nat] /\
  rendered completed.2 = [[[0%Z]]; [[1%Z]]; [[1%Z]]] /\
  assigned completed.2 = [0%nat; 1%nat; 1%nat].
Proof. repeat split; vm_compute; reflexivity. Qed.

End RasterFacts.


(** ** Frame processing *)

Module ProcessingFacts.
Import Py PyFacts Processing.

(** *** Normalisation *)

Section NormalisationFacts.
Local Open Scope float_scope.

(** The smaller and the larger of two comparable floats. *)
Definition minf (x y : float) : float := if x <=? y then x else y.
Definition maxf (x y : float) : float := if x <=? y then y else x.

Definition not_nan (x : float) : bool := negb (is_nan x).

(** Normalisation as the specification words it: minimum and maximum
    over the finite values only. An array without a finite value
    normalises to zeros. *)
Definition norm_over_finite (dst : list (list float)) : list (list float) :=
  match filter (fun x => is_finite x = true) (concat dst) with
  | [] => map (map (fun _ => 0)) dst
  | x :: rest =>
      let lo := fold_left minf rest x in
      let hi := fold_left maxf rest x in
      map (map (fun v => if is_finite v then (v - lo) / (hi - lo) else 0)) dst
  end.

Lemma fold_fmin_from_number (rest : list float) (x : float) :
  is_nan x = false ->
  fold_left fmin rest x
  = fold_left minf (filter (fun v => not_nan v = true) rest) x.
Proof.
  revert x. induction rest as [|y rest IH]; intros x Hx; [reflexivity|].
  cbn [fold_left]. unfold fmin at 2. rewrite Hx.
  destruct (is_nan y) eqn:Hy.
  - rewrite filter_cons_False by (unfold not_nan; rewrite Hy; discriminate).
    apply IH. assumption.
  - rewrite filter_cons_True by (unfold not_nan; rewrite Hy; reflexivity).
    cbn [fold_left]. fold (minf x y). apply IH.
    unfold minf. destruct (x <=? y); assumption.
Qed.

Lemma fold_fmax_from_number (rest : list float) (x : float) :
  is_nan x = false ->
  fold_left fmax rest x
  = fold_left maxf (filter (fun v => not_nan v = true) rest) x.
Proof.
  revert x. induction rest as [|y rest IH]; intros x Hx; [reflexivity|].
  cbn [fold_left]. unfold fmax at 2. rewrite Hx.
  destruct (is_nan y) eqn:Hy.
  - rewrite filter_cons_False by (unfold not_nan; rewrite Hy; discriminate).
    apply IH. assumption.
  - rewrite filter_cons_True by (unfold not_nan; rewrite Hy; reflexivity).
    cbn [fold_left]. fold (maxf x y). apply IH.
    unfold maxf. destruct (x <=? y); assumption.
Qed.

(** [np.nanmin] is the minimum over the elements that are not NaN. *)
Lemma fold_fmin_skips_nan (l : list float) (a x : float) (rest : list float) :
  filter (fun v => not_nan v = true) (a :: l) = x :: rest ->
  fold_left fmin l a = fold_left minf rest x.
Proof.
  revert a. induction l as [|b l IH]; intros a.
  - destruct (is_nan a) eqn:Ha.
    + rewrite filter_cons_False by (unfold not_nan; rewrite Ha; discriminate).
      discriminate.
    + rewrite filter_cons_True by (unfold not_nan; rewrite Ha; reflexivity).
      intros [= <- <-]. reflexivity.
  - destruct (is_nan a) eqn:Ha.
    + rewrite filter_cons_False by (unfold not_nan; rewrite Ha; discriminate).
      intros Hf. cbn [fold_left]. unfold fmin at 2. rewrite Ha.
      apply IH. assumption.
    + rewrite filter_cons_True by (unfold not_nan; rewrite Ha; reflexivity).
      intros [= <- <-]. apply fold_fmin_from_number. assumption.
Qed.

Lemma fold_fmax_skips_nan (l : list float) (a x : float) (rest : list float) :
  filter (fun v => not_nan v = true) (a :: l) = x :: rest ->
  fold_left fmax l a = fold_left maxf rest x.
Proof.
  revert a. induction l as [|b l IH]; intros a.
  - destruct (is_nan a) eqn:Ha.
    + rewrite filter_cons_False by (unfold not_nan; rewrite Ha; discriminate).
      discriminate.
    + rewrite filter_cons_True by (unfold not_nan; rewrite Ha; reflexivity).
      intros [= <- <-]. reflexivity.
  - destruct (is_nan a) eqn:Ha.
    + rewrite filter_cons_False by (unfold not_nan; rewrite Ha; discriminate).
      intros Hf. cbn [fold_left]. unfold fmax at 2. rewrite Ha.
      apply IH. assumption.
    + rewrite filter_cons_True by (unfold not_nan; rewrite Ha; reflexivity).
      intros [= <- <-]. apply fold_fmax_from_number. assumption.
Qed.

(** Without infinities, the elements that are not NaN are the finite
    ones. *)
Lemma not_nan_is_finite (l : list float) :
  Forall (fun v => is_infinity v = false) l ->
  filter (fun v => not_nan v = true) l = filter (fun v => is_finite v = true) l.
Proof.
  induction 1 as [|v l Hv _ IH]; [reflexivity|].
  assert (Hsame : is_finite v = not_nan v).
  { unfold is_finite, not_nan. rewrite Hv, orb_false_r. reflexivity. }
  destruct (not_nan v) eqn:Hn.
  - rewrite filter_cons_True by assumption.
    rewrite filter_cons_True by assumption. rewrite IH. reflexivity.
  - rewrite filter_cons_False by (rewrite Hn; discriminate).
    rewrite filter_cons_False by (rewrite Hsame; discriminate). exact IH.
Qed.

Lemma where_finite_map (f : float -> float) (dst : list (list float)) :
  where_finite dst (map (map f) dst)
  = map (map (fun v => if is_finite v then f v else 0)) dst.
Proof.
  unfold where_finite.
  induction dst as [|row dst IH]; [reflexivity|].
  cbn [map zip_with]. rewrite IH. f_equal.
  induction row as [|v row IHrow]; [reflexivity|].
  cbn [map zip_with]. rewrite IHrow. reflexivity.
Qed.

Lemma map_map_rows {A B C} (f : A -> B) (g : B -> C) (a : list (list A)) :
  map (map g) (map (map f) a) = map (map (fun x => g (f x))) a.
Proof.
  rewrite map_map. apply map_ext. intros row. apply map_map.
Qed.

Lemma concat_map_rows {A B} (f : A -> B) (a : list (list A)) :
  concat (map (map f) a) = map f (concat a).
Proof. symmetry. apply concat_map. Qed.

(** C7 (as the code has it). On a non-empty array [data_norm] returns,
    position by position, [(value - lo) / hi] where the value is finite and
    0 where it is not; [lo] is [np.nanmin] of the array, the minimum over
    the values that are not NaN (over the finite values when the array
    holds no infinity), and [hi] is [np.nanmax] of the shifted array, the
    maximum over the shifted values that are not NaN. *)
Theorem data_norm_pointwise (dst : list (list float)) :
  concat dst <> [] ->
  exists lo hi,
    np_nanmin dst = Ok lo /\
    np_nanmax (map (map (fun v => v - lo)) dst) = Ok hi /\
    data_norm dst
    = Ok (map (map (fun v => if is_finite v then (v - lo) / hi else 0)) dst) /\
    (forall x rest,
        filter (fun v => not_nan v = true) (concat dst) = x :: rest ->
        lo = fold_left minf rest x) /\
    (forall x rest,
        Forall (fun v => is_infinity v = false) (concat dst) ->
        filter (fun v => is_finite v = true) (concat dst) = x :: rest ->
        lo = fold_left minf rest x) /\
    (forall x rest,
        filter (fun v => not_nan v = true)
               (map (fun v => v - lo) (concat dst)) = x :: rest ->
        hi = fold_left maxf rest x).
Proof.
  intros Hne. unfold data_norm, np_nanmin.
  destruct (concat dst) as [|a l] eqn:Hdst; [congruence|].
  cbn [bind]. unfold np_nanmax. rewrite concat_map_rows, Hdst.
  cbn [bind map].
  exists (fold_left fmin l a).
  exists (fold_left fmax (map (fun v => v - fold_left fmin l a) l)
                    (a - fold_left fmin l a)).
  split; [reflexivity|].
  split; [rewrite concat_map_rows, Hdst; reflexivity|].
  split.
  - rewrite map_map_rows, where_finite_map. reflexivity.
  - split; [|split].
    + intros x rest Hf. apply fold_fmin_skips_nan. assumption.
    + intros x rest Hinf Hf. apply fold_fmin_skips_nan.
      rewrite not_nan_is_finite; assumption.
    + intros x rest Hf. apply fold_fmax_skips_nan. assumption.
Qed.

(** The slice of the specification's example: 1, 2, 3 and a NaN. *)
Lemma data_norm_pointwise_witness :
  exists lo hi,
    np_nanmin [[1; 2; 3; nan]] = Ok lo /\
    np_nanmax (map (map (fun v => v - lo)) [[1; 2; 3; nan]]) = Ok hi /\
    data_norm [[1; 2; 3; nan]]
    = Ok (map (map (fun v => if is_finite v then (v - lo) / hi else 0))
              [[1; 2; 3; nan]]) /\
    (forall x rest,
        filter (fun v => not_nan v = true) (concat [[1; 2; 3; nan]]) = x :: rest ->
        lo = fold_left minf rest x) /\
    (forall x rest,
        Forall (fun v => is_infinity v = false) (concat [[1; 2; 3; nan]]) ->
        filter (fun v => is_finite v = true) (concat [[1; 2; 3; nan]]) = x :: rest ->
        lo = fold_left minf rest x) /\
    (forall x rest,
        filter (fun v => not_nan v = true)
               (map (fun v => v - lo) (concat [[1; 2; 3; nan]])) = x :: rest ->
        hi = fold_left maxf rest x).
Proof.
  apply (data_norm_pointwise [[1; 2; 3; nan]]). discriminate.
Defined.

(** The example of the specification: 1, 2, 3 and NaN normalise to 0,
    0.5, 1 and 0. *)
Example data_norm_with_nan :
  data_norm [[1; 2; 3; nan]] = Ok [[0; 0.5; 1; 0]].
Proof. vm_compute. reflexivity. Qed.

(** C7, refuted as stated: with an infinity in the slice the maximum is
    the infinity, and the finite values 1, 2 and 3 all normalise to 0;
    minimum and maximum over the finite values only would give 0, 0.5
    and 1. *)
Lemma data_norm_with_infinity :
  data_norm [[1; 2; 3; infinity]] = Ok [[0; 0; 0; 0]] /\
  norm_over_finite [[1; 2; 3; infinity]] = [[0; 0.5; 1; 0]] /\
  data_norm [[1; 2; 3; infinity]] <> Ok (norm_over_finite [[1; 2; 3; infinity]]).
Proof.
  split; [vm_compute; reflexivity|]. split; [vm_compute; reflexivity|].
  intros H.
  apply (f_equal (fun r => match r with
                           | Ok [[_; b; _; _]] => b =? 0
                           | _ => true
                           end)) in H.
  vm_compute in H. discriminate.
Qed.

End NormalisationFacts.

(** *** Arrows *)

Section ArrowFacts.
Local Open Scope R_scope.

(** The point at distance [len] from [tip] in the direction [dir]. *)
Definition barb (tip : R * R) (len dir : R) : R * R :=
  (fst tip + len * Rtrigo_def.cos dir, snd tip + len * Rtrigo_def.sin dir).

(** The arrow as the specification words it, for barbs at [deg] degrees
    on either side of the reverse shaft direction [theta + pi]: tail,
    tip, one barb, tip, other barb. *)
Definition arrow_with_barbs (deg : R) (u v long lat : R) (autoscale : bool)
  (scale : R) : list (R * R) :=
  let theta := arctan2 v u in
  let length := if autoscale then R_sqrt.sqrt (Rabs (u * v)) * scale
                else scale in
  let tail := (long - length / 2 * Rtrigo_def.cos theta,
               lat - length / 2 * Rtrigo_def.sin theta) in
  let tip := (long + length / 2 * Rtrigo_def.cos theta,
              lat + length / 2 * Rtrigo_def.sin theta) in
  [tail; tip;
   barb tip (length / 10) (theta + PI + radians deg);
   tip;
   barb tip (length / 10) (theta + PI - radians deg)].

(** C8 (as the code has it). The arrow is the five-point line from the
    tail [center - length/2 (cos theta, sin theta)] to the tip
    [center + length/2 (cos theta, sin theta)], then to one barb, back to
    the tip and to the other barb, with [theta = atan2(v, u)], [length]
    the scale times [sqrt |u v|] when autoscaling and the scale
    otherwise, and barbs of a tenth of the length at 40 degrees on either
    side of the reverse shaft direction. *)
Theorem calc_arrow_barbs_40 (u v long lat : R) (autoscale : bool) (scale : R) :
  calc_arrow u v long lat autoscale scale
  = arrow_with_barbs 40 u v long lat autoscale scale.
Proof.
  unfold calc_arrow, arrow_with_barbs, barb. cbv zeta. cbn [fst snd].
  set (theta := arctan2 v u).
  set (length := if autoscale then R_sqrt.sqrt (Rabs (u * v)) * scale else scale).
  replace (theta + (radians 270 - radians 50)) with (theta + PI + radians 40)
    by (unfold radians; field).
  replace (theta + (radians 270 + radians 50))
    with (theta + PI - radians 40 + PI) by (unfold radians; field).
  rewrite neg_cos, neg_sin.
  repeat (f_equal; try field).
Qed.

Lemma arctan2_east : arctan2 0 1 = 0.
Proof.
  unfold arctan2. destruct (Rlt_dec 0 1) as [_|H]; [|lra].
  replace (0 / 1) with 0 by field. apply atan_0.
Qed.

Lemma cos_40_50 : Rtrigo_def.cos (radians 50) < Rtrigo_def.cos (radians 40).
Proof.
  pose proof PI_RGT_0 as Hpi.
  apply cos_decreasing_1; unfold radians; lra.
Qed.

(** C8, refuted as stated: for the unit vector pointing east at the
    origin, drawn with length 1, the first barb of [calc_arrow] is
    neither of the two points at 50 degrees from the reverse shaft
    direction. *)
Lemma barbs_not_at_50 :
  nth 2 (calc_arrow 1 0 0 0 false 1) (0, 0)
  <> nth 2 (arrow_with_barbs 50 1 0 0 0 false 1) (0, 0) /\
  nth 2 (calc_arrow 1 0 0 0 false 1) (0, 0)
  <> nth 4 (arrow_with_barbs 50 1 0 0 0 false 1) (0, 0) /\
  calc_arrow 1 0 0 0 false 1 <> arrow_with_barbs 50 1 0 0 0 false 1.
Proof.
  pose proof cos_40_50 as Hlt.
  assert (Hangle : 0 + (radians 270 - radians 50) = radians 40 + PI)
    by (unfold radians; field).
  assert (H1 : nth 2 (calc_arrow 1 0 0 0 false 1) (0, 0)
               <> nth 2 (arrow_with_barbs 50 1 0 0 0 false 1) (0, 0)).
  { unfold calc_arrow, arrow_with_barbs, barb. cbv zeta.
    cbn [nth fst snd]. rewrite arctan2_east, Hangle. intros [= Hx _].
    replace (0 + PI + radians 50) with (radians 50 + PI) in Hx by ring.
    rewrite !neg_cos in Hx. lra. }
  split; [exact H1|]. split.
  - unfold calc_arrow, arrow_with_barbs, barb. cbv zeta.
    cbn [nth fst snd]. rewrite arctan2_east, Hangle. intros [= Hx _].
    replace (0 + PI - radians 50) with (- radians 50 + PI) in Hx by ring.
    rewrite !neg_cos, cos_neg in Hx. lra.
  - intros Heq. apply H1. rewrite Heq. reflexivity.
Qed.

End ArrowFacts.

End ProcessingFacts.


(** ** More on the selection engine *)

Module SelectionMore.
Import Py PyFacts Selection SelectionFacts.
Local Open Scope Q_scope.

(** *** Comparisons and bounds *)

Lemma Qltb_lt (x y : Q) : Qltb x y = true <-> x < y.
Proof.
  unfold Qltb. rewrite negb_true_iff, <- not_true_iff_false, Qle_bool_iff.
  split; [apply Qnot_le_lt|apply Qlt_not_le].
Qed.

Lemma Qltb_ge (x y : Q) : Qltb x y = false <-> y <= x.
Proof.
  unfold Qltb. rewrite negb_false_iff. apply Qle_bool_iff.
Qed.

Lemma fold_Qmin'_le (l : list Q) (x0 : Q) :
  fold_left Qmin' l x0 <= x0 /\ Forall (fun x => fold_left Qmin' l x0 <= x) l.
Proof.
  revert x0. induction l as [|y l IH]; intros x0; cbn [fold_left].
  - split; [apply Qle_refl|constructor].
  - destruct (IH (Qmin' x0 y)) as [Hle Hall].
    assert (Hmin : Qmin' x0 y <= x0 /\ Qmin' x0 y <= y).
    { unfold Qmin'. destruct (Qle_bool x0 y) eqn:Hc.
      - apply Qle_bool_iff in Hc. split; [apply Qle_refl|assumption].
      - split; [|apply Qle_refl].
        apply Qlt_le_weak, Qltb_lt. unfold Qltb. rewrite Hc. reflexivity. }
    destruct Hmin as [H0 Hy].
    split; [eapply Qle_trans; eassumption|].
    constructor; [eapply Qle_trans; eassumption|assumption].
Qed.

Lemma fold_Qmax'_ge (l : list Q) (x0 : Q) :
  x0 <= fold_left Qmax' l x0 /\ Forall (fun x => x <= fold_left Qmax' l x0) l.
Proof.
  revert x0. induction l as [|y l IH]; intros x0; cbn [fold_left].
  - split; [apply Qle_refl|constructor].
  - destruct (IH (Qmax' x0 y)) as [Hle Hall].
    assert (Hmax : x0 <= Qmax' x0 y /\ y <= Qmax' x0 y).
    { unfold Qmax'. destruct (Qle_bool x0 y) eqn:Hc.
      - apply Qle_bool_iff in Hc. split; [assumption|apply Qle_refl].
      - split; [apply Qle_refl|].
        apply Qlt_le_weak, Qltb_lt. unfold Qltb. rewrite Hc. reflexivity. }
    destruct Hmax as [H0 Hy].
    split; [eapply Qle_trans; eassumption|].
    constructor; [eapply Qle_trans; eassumption|assumption].
Qed.

Lemma np_min_le (l : list Q) (lo : Q) :
  np_min l = Ok lo -> Forall (fun x => lo <= x) l.
Proof.
  destruct l as [|x0 l]; [discriminate|]. intros [= <-].
  destruct (fold_Qmin'_le l x0). constructor; assumption.
Qed.

Lemma np_max_ge (l : list Q) (hi : Q) :
  np_max l = Ok hi -> Forall (fun x => x <= hi) l.
Proof.
  destruct l as [|x0 l]; [discriminate|]. intros [= <-].
  destruct (fold_Qmax'_ge l x0). constructor; assumption.
Qed.

(** X1. [get_poly_bounds] raises on an empty ring and on no other,
    and the exception is [IndexError]; on any other ring it returns
    bounds that enclose every vertex. *)
Theorem get_poly_bounds_encloses (poly_points : list point) :
  match get_poly_bounds poly_points with
  | Ok (xmin, xmax, ymin, ymax) =>
      poly_points <> [] /\
      forall p, p ∈ poly_points ->
        xmin <= fst p /\ fst p <= xmax /\ ymin <= snd p /\ snd p <= ymax
  | Raise e => poly_points = [] /\ e = IndexError
  end.
Proof.
  unfold get_poly_bounds.
  destruct poly_points as [|p0 ps]; [split; reflexivity|].
  cbn [column bind].
  destruct (np_min (@map point Q fst (p0 :: ps))) as [xmin|] eqn:Hxmin;
    [|discriminate].
  destruct (np_max (@map point Q fst (p0 :: ps))) as [xmax|] eqn:Hxmax;
    [|discriminate].
  destruct (np_min (@map point Q snd (p0 :: ps))) as [ymin|] eqn:Hymin;
    [|discriminate].
  destruct (np_max (@map point Q snd (p0 :: ps))) as [ymax|] eqn:Hymax;
    [|discriminate].
  cbn [bind]. split; [discriminate|]. intros p Hp.
  apply np_min_le in Hxmin, Hymin. apply np_max_ge in Hxmax, Hymax.
  rewrite Forall_forall in Hxmin, Hxmax, Hymin, Hymax.
  repeat split.
  - apply Hxmin, list_elem_of_In, in_map, list_elem_of_In, Hp.
  - apply Hxmax, list_elem_of_In, in_map, list_elem_of_In, Hp.
  - apply Hymin, list_elem_of_In, in_map, list_elem_of_In, Hp.
  - apply Hymax, list_elem_of_In, in_map, list_elem_of_In, Hp.
Qed.

(** X2. [find_selection_circle] never marks a cell as included:
    whenever it returns, the mask is [True] everywhere. (Every sample
    point it reaches makes [distance] raise.) *)
Theorem find_selection_circle_selects_nothing (L : pylib) (center : point)
  (radius : Q) (lat long : list Q) (m : mask) :
  find_selection_circle L center radius lat long = Ok m ->
  m = np_full (length lat) (length long) true.
Proof.
  unfold find_selection_circle.
  destruct (get_circle_y_bounds center radius) as [ymin ymax].
  apply (for_each_invariant
           (fun t => t = np_full (length lat) (length long) true));
    [|reflexivity].
  intros y t t' _ Ht.
  apply (for_each_invariant
           (fun t => t = np_full (length lat) (length long) true));
    [|assumption].
  intros x r r' _ Hr.
  destruct (getitem long x) as [lx|]; cbn [bind]; [|discriminate].
  destruct (getitem lat y) as [ly|]; cbn [bind]; [|discriminate].
  destruct (distance_raises L center (lx, ly)) as [e He]. rewrite He.
  discriminate.
Qed.

Lemma find_selection_circle_selects_nothing_witness :
  find_selection_circle rational_math (0, 0) 111 [3#2; 1#2] [0]
  = Ok [[true]; [true]] /\
  [[true]; [true]] = np_full 2 1 true.
Proof.
  split; [reflexivity|].
  apply (find_selection_circle_selects_nothing rational_math (0, 0) 111
           [3#2; 1#2] [0] [[true]; [true]]).
  reflexivity.
Defined.

(** *** [np.searchsorted] on a sorted array *)

(** Ascending, not necessarily strictly. *)
Definition ascending (a : list Q) : Prop :=
  forall i j x y, (i <= j)%nat -> a !! i = Some x -> a !! j = Some y -> x <= y.

Lemma bisect_left_sorted (fuel : nat) (a : list Q) (v : Q) (lo hi : nat) :
  ascending a ->
  (lo <= hi <= length a)%nat -> (hi - lo <= fuel)%nat ->
  (forall i x, (i < lo)%nat -> a !! i = Some x -> x < v) ->
  (forall i x, (hi <= i)%nat -> a !! i = Some x -> v <= x) ->
  (forall i x, (i < bisect_left fuel a v lo hi)%nat -> a !! i = Some x -> x < v) /\
  (forall i x, (bisect_left fuel a v lo hi <= i)%nat -> a !! i = Some x -> v <= x).
Proof.
  intros Hasc. revert lo hi.
  induction fuel as [|fuel IH]; intros lo hi Hb Hfuel Hlo Hhi; cbn [bisect_left].
  - assert (lo = hi) by lia. subst hi. split; assumption.
  - destruct (Nat.ltb_spec lo hi) as [Hlt|Hge].
    + assert (Hmid : ((hi - lo) / 2 < hi - lo)%nat) by (apply Nat.div_lt; lia).
      set (mid := (lo + (hi - lo) / 2)%nat) in *.
      destruct (lookup_lt_is_Some_2 a mid) as [m Hm]; [lia|].
      rewrite Hm. destruct (Qltb m v) eqn:Hc.
      * apply Qltb_lt in Hc. apply IH; try lia; [|assumption].
        intros i x Hi Hx.
        eapply Qle_lt_trans; [|exact Hc].
        apply (Hasc i mid); [lia|assumption|assumption].
      * apply Qltb_ge in Hc. apply IH; try lia; [assumption|].
        intros i x Hi Hx.
        eapply Qle_trans; [exact Hc|].
        apply (Hasc mid i); [lia|assumption|assumption].
    + assert (lo = hi) by lia. subst hi. split; assumption.
Qed.

(** On an ascending array [searchsorted] returns the number of
    elements that are smaller than the value. *)
Lemma searchsorted_sorted (a : list Q) (v : Q) (i : nat) (x : Q) :
  ascending a -> a !! i = Some x ->
  ((Z.of_nat i < searchsorted a v)%Z <-> x < v).
Proof.
  intros Hasc Hx. unfold searchsorted.
  destruct (bisect_left_sorted (length a) a v 0 (length a) Hasc)
    as [Hbelow Habove]; try lia.
  - intros j y Hj Hy. apply lookup_lt_Some in Hy. lia.
  - split.
    + intros Hi. apply (Hbelow i); [lia|assumption].
    + intros Hlt.
      destruct (Nat.lt_ge_cases i (bisect_left (length a) a v 0 (length a)))
        as [Hi|Hi]; [lia|].
      specialize (Habove i x Hi Hx). exfalso.
      exact (Qlt_not_le _ _ Hlt Habove).
Qed.

(** Without any assumption on the order: when no element is smaller
    than the value the search ends at 0, and when every element is
    smaller it ends at the length. *)
Lemma bisect_left_none_smaller (fuel : nat) (a : list Q) (v : Q) (lo hi : nat) :
  Forall (fun x => v <= x) a -> bisect_left fuel a v lo hi = lo.
Proof.
  intros Hall. revert hi. induction fuel as [|fuel IH]; intros hi;
    cbn [bisect_left]; [reflexivity|].
  destruct (lo <? hi)%nat; [|reflexivity].
  destruct (a !! (lo + (hi - lo) / 2)%nat) as [m|] eqn:Hm; [|reflexivity].
  rewrite (proj2 (Qltb_ge m v)); [apply IH|].
  exact (proj1 (Forall_lookup _ _) Hall _ _ Hm).
Qed.

Lemma bisect_left_all_smaller (fuel : nat) (a : list Q) (v : Q) (lo hi : nat) :
  Forall (fun x => x < v) a ->
  (lo <= hi <= length a)%nat -> (hi - lo <= fuel)%nat ->
  bisect_left fuel a v lo hi = hi.
Proof.
  intros Hall. revert lo. induction fuel as [|fuel IH]; intros lo Hb Hfuel;
    cbn [bisect_left]; [lia|].
  destruct (Nat.ltb_spec lo hi) as [Hlt|Hge]; [|lia].
  assert (Hmid : ((hi - lo) / 2 < hi - lo)%nat) by (apply Nat.div_lt; lia).
  destruct (lookup_lt_is_Some_2 a (lo + (hi - lo) / 2)%nat) as [m Hm]; [lia|].
  rewrite Hm.
  rewrite (proj2 (Qltb_lt m v)); [apply IH; lia|].
  exact (proj1 (Forall_lookup _ _) Hall _ _ Hm).
Qed.

Lemma searchsorted_none_smaller (a : list Q) (v : Q) :
  Forall (fun x => v <= x) a -> searchsorted a v = 0%Z.
Proof.
  intros Hall. unfold searchsorted.
  rewrite bisect_left_none_smaller by assumption. reflexivity.
Qed.

Lemma searchsorted_all_smaller (a : list Q) (v : Q) :
  Forall (fun x => x < v) a -> searchsorted a v = len a.
Proof.
  intros Hall. unfold searchsorted.
  rewrite bisect_left_all_smaller by (assumption || lia). reflexivity.
Qed.

Lemma rev_lookup {A} (l : list A) (i : nat) (x : A) :
  l !! i = Some x -> rev l !! (length l - S i)%nat = Some x.
Proof.
  intros Hx. pose proof (lookup_lt_Some _ _ _ Hx) as Hi.
  rewrite rev_alt. change (rev_append l []) with (reverse l).
  rewrite reverse_lookup by lia.
  replace (length l - S (length l - S i))%nat with i by lia. assumption.
Qed.

(** *** The rectangle path *)

Lemma slice_bound_nonneg (n i : Z) : (0 <= i)%Z -> slice_bound n i = Z.min i n.
Proof.
  intros Hi. unfold slice_bound. destruct (Z.ltb_spec i 0); [lia|reflexivity].
Qed.

Lemma slice_bound_neg (n i : Z) : (i < 0)%Z -> slice_bound n i = Z.max 0 (i + n).
Proof.
  intros Hi. unfold slice_bound. destruct (Z.ltb_spec i 0); [reflexivity|lia].
Qed.

(** The cells the rectangle path includes are those of the index box,
    read as two Python slices. *)
Lemma rectangle_cell (coords : list point) (lat long : list Q) (m : mask)
  (x_lo x_hi y_lo y_hi : Z) (y x : nat) :
  find_selection_rectangle coords lat long = Ok m ->
  index_box coords lat long = Ok (x_lo, x_hi, y_lo, y_hi) ->
  (y < length lat)%nat -> (x < length long)%nat ->
  cell m y x
  = Some (negb (in_slice (len lat) y_lo y_hi y && in_slice (len long) x_lo x_hi x)).
Proof.
  unfold find_selection_rectangle, index_box.
  destruct (get_poly_bounds coords) as [[[[xmin xmax] ymin] ymax]|];
    cbn [bind]; [|discriminate].
  intros [= <-] [= <- <- <- <-] Hy Hx.
  unfold cell, setslice2, np_full.
  rewrite list_lookup_imap, lookup_replicate_2 by assumption. cbn [fmap option_fmap option_map].
  unfold len at 1. rewrite length_replicate. fold (len lat).
  destruct (in_slice (len lat) _ _ y); cbn [andb negb].
  - rewrite list_lookup_imap, lookup_replicate_2 by assumption.
    cbn [fmap option_fmap option_map].
    destruct (in_slice (len long) _ _ x); reflexivity.
  - apply lookup_replicate_2. assumption.
Qed.

(** X3. On longitudes in ascending and latitudes in descending order,
    when some longitude lies west of the rectangle and some latitude
    lies at or north of its top, the rectangle path includes every grid
    point inside the rectangle (the eastern and the northern side
    excepted). *)
Theorem rectangle_includes_inside (coords : list point) (lat long : list Q)
  (m : mask) (xmin xmax ymin ymax : Q) (y x : nat) (lx ly : Q) :
  ascending long -> ascending (rev lat) ->
  get_poly_bounds coords = Ok (xmin, xmax, ymin, ymax) ->
  find_selection_rectangle coords lat long = Ok m ->
  (exists i l, long !! i = Some l /\ l < xmin) ->
  (exists j l, lat !! j = Some l /\ ymax <= l) ->
  long !! x = Some lx -> lat !! y = Some ly ->
  xmin <= lx -> lx < xmax -> ymin <= ly -> ly < ymax ->
  cell m y x = Some false.
Proof.
  intros Hlong Hlat Hb Hm (i & lw & Hi & Hwest) (j & ln & Hj & Hnorth)
    Hlx Hly Hx1 Hx2 Hy1 Hy2.
  pose proof (lookup_lt_Some _ _ _ Hlx) as Hxlen.
  pose proof (lookup_lt_Some _ _ _ Hly) as Hylen.
  pose proof (lookup_lt_Some _ _ _ Hj) as Hjlen.
  rewrite (rectangle_cell coords lat long m _ _ _ _ y x Hm
             ltac:(unfold index_box; rewrite Hb; reflexivity) Hylen Hxlen).
  f_equal. apply negb_false_iff, andb_true_iff.
  pose proof (searchsorted_bounds long xmin) as Bx1.
  pose proof (searchsorted_bounds long xmax) as Bx2.
  pose proof (searchsorted_bounds (rev lat) ymin) as By1.
  pose proof (searchsorted_bounds (rev lat) ymax) as By2.
  unfold len in By1, By2. rewrite length_rev in By1, By2.
  pose proof (proj2 (searchsorted_sorted long xmin i lw Hlong Hi) Hwest) as Hw.
  assert (Hx_lo : ~ (Z.of_nat x < searchsorted long xmin)%Z).
  { intros H. apply (searchsorted_sorted long xmin x lx Hlong Hlx) in H.
    exact (Qlt_not_le _ _ H Hx1). }
  pose proof (proj2 (searchsorted_sorted long xmax x lx Hlong Hlx) Hx2) as Hx_hi.
  pose proof (rev_lookup lat y ly Hly) as Hry.
  pose proof (rev_lookup lat j ln Hj) as Hrj.
  assert (Hn : ~ (Z.of_nat (length lat - S j) < searchsorted (rev lat) ymax)%Z).
  { intros H. apply (searchsorted_sorted _ ymax _ ln Hlat Hrj) in H.
    exact (Qlt_not_le _ _ H Hnorth). }
  pose proof (proj2 (searchsorted_sorted _ ymax _ ly Hlat Hry) Hy2) as Hy_lo.
  assert (Hy_hi : ~ (Z.of_nat (length lat - S y) < searchsorted (rev lat) ymin)%Z).
  { intros H. apply (searchsorted_sorted _ ymin _ ly Hlat Hry) in H.
    exact (Qlt_not_le _ _ H Hy1). }
  unfold in_slice, len in *.
  rewrite !slice_bound_nonneg by lia.
  split; apply andb_true_iff; split;
    first [apply Z.leb_le|apply Z.ltb_lt]; lia.
Qed.

Lemma ascending_nil : ascending [].
Proof. intros i j x y _ Hi. destruct i; discriminate. Qed.

Lemma ascending_cons (x : Q) (l : list Q) :
  Forall (fun y => x <= y) l -> ascending l -> ascending (x :: l).
Proof.
  intros Hx Hl i j a b Hij Ha Hb. destruct i as [|i], j as [|j]; cbn in Ha, Hb.
  - injection Ha as <-. injection Hb as <-. apply Qle_refl.
  - injection Ha as <-. exact (proj1 (Forall_lookup _ _) Hx _ _ Hb).
  - lia.
  - apply (Hl i j); [lia|assumption|assumption].
Qed.

Ltac ascending_tac :=
  repeat (apply ascending_cons;
          [repeat constructor; vm_compute; discriminate|]);
  apply ascending_nil.

Lemma rectangle_includes_inside_witness :
  exists m,
    find_selection_rectangle rect_west lat4 long6 = Ok m /\
    cell m 1 2 = Some false.
Proof.
  eexists. split; [reflexivity|].
  apply (rectangle_includes_inside rect_west lat4 long6 _
           (3#2) (7#2) (1#2) (5#2) 1 2 2 2).
  - unfold long6. ascending_tac.
  - unfold lat4. cbn [rev app]. ascending_tac.
  - reflexivity.
  - reflexivity.
  - exists 0%nat, 0. split; [reflexivity|]. vm_compute. reflexivity.
  - exists 0%nat, 3. split; [reflexivity|]. vm_compute. discriminate.
  - reflexivity.
  - reflexivity.
  - vm_compute. discriminate.
  - vm_compute. reflexivity.
  - vm_compute. discriminate.
  - vm_compute. reflexivity.
Defined.

(** X4. A rectangle that reaches the western edge of the grid (no
    longitude lies west of it) can only include cells of the last column,
    and a rectangle whose top lies north of every latitude can only
    include cells of the last row: the lower index -1 is read as a slice
    bound that counts from the end. *)
Theorem rectangle_at_the_edge (coords : list point) (lat long : list Q)
  (m : mask) (xmin xmax ymin ymax : Q) :
  get_poly_bounds coords = Ok (xmin, xmax, ymin, ymax) ->
  find_selection_rectangle coords lat long = Ok m ->
  (Forall (fun l => xmin <= l) long ->
   forall y x, cell m y x = Some false -> x = (length long - 1)%nat) /\
  (Forall (fun l => l < ymax) lat ->
   forall y x, cell m y x = Some false -> y = (length lat - 1)%nat).
Proof.
  intros Hb Hm.
  assert (Hcell : forall y x, cell m y x = Some false ->
            in_slice (len lat)
              (len lat - searchsorted (rev lat) ymax - 1)
              (len lat - searchsorted (rev lat) ymin + 1) y = true /\
            in_slice (len long)
              (searchsorted long xmin - 1) (searchsorted long xmax + 1) x = true).
  { intros y x Hc.
    destruct (rectangle_shaped _ _ _ _ Hm) as [Hrows Hcols].
    unfold cell in Hc. destruct (m !! y) as [row|] eqn:Hrow; [|discriminate].
    pose proof (lookup_lt_Some _ _ _ Hrow) as Hy.
    pose proof (lookup_lt_Some _ _ _ Hc) as Hx.
    rewrite (proj1 (Forall_lookup _ _) Hcols _ _ Hrow) in Hx.
    rewrite Hrows in Hy.
    assert (Hc' : cell m y x = Some false) by (unfold cell; rewrite Hrow; exact Hc).
    rewrite (rectangle_cell coords lat long m _ _ _ _ y x Hm
               ltac:(unfold index_box; rewrite Hb; reflexivity) Hy Hx) in Hc'.
    injection Hc' as Hc'. apply negb_false_iff, andb_true_iff in Hc'.
    exact Hc'. }
  split.
  - intros Hwest y x Hc. destruct (Hcell y x Hc) as [_ Hx].
    rewrite (searchsorted_none_smaller long xmin Hwest) in Hx.
    pose proof (searchsorted_bounds long xmax) as Bx.
    unfold in_slice, len in *.
    rewrite slice_bound_neg, slice_bound_nonneg in Hx by lia.
    apply andb_true_iff in Hx as [Hx1 Hx2].
    apply Z.leb_le in Hx1. apply Z.ltb_lt in Hx2. lia.
  - intros Hnorth y x Hc. destruct (Hcell y x Hc) as [Hy _].
    assert (Hall : Forall (fun l => l < ymax) (rev lat)).
    { apply Forall_forall. intros l Hl. rewrite Forall_forall in Hnorth.
      apply Hnorth, list_elem_of_In, in_rev, list_elem_of_In, Hl. }
    rewrite (searchsorted_all_smaller (rev lat) ymax Hall) in Hy.
    pose proof (searchsorted_bounds (rev lat) ymin) as By.
    unfold in_slice, len in *. rewrite length_rev in *.
    rewrite slice_bound_neg, slice_bound_nonneg in Hy by lia.
    apply andb_true_iff in Hy as [Hy1 Hy2].
    apply Z.leb_le in Hy1. apply Z.ltb_lt in Hy2. lia.
Qed.

(** A rectangle drawn around the whole grid: it reaches west of every
    longitude and north of every latitude, and of the 24 grid points it
    encloses it includes one, that of the last row and the last column. *)
Definition rect_around : list point :=
  [(-1#2, -1#2); (-1#2, 7#2); (11#2, 7#2); (11#2, -1#2); (-1#2, -1#2)].

Definition corner_only : mask :=
  [[true; true; true; true; true; true];
   [true; true; true; true; true; true];
   [true; true; true; true; true; true];
   [true; true; true; true; true; false]].

Lemma rectangle_at_the_edge_witness :
  find_selection_rectangle rect_around lat4 long6 = Ok corner_only /\
  cell corner_only 3 5 = Some false /\
  Forall (fun l => -1#2 <= l) long6 /\
  Forall (fun l => l < 7#2) lat4 /\
  (forall y x, cell corner_only y x = Some false -> x = 5%nat) /\
  (forall y x, cell corner_only y x = Some false -> y = 3%nat).
Proof.
  assert (Hwest : Forall (fun l => -1#2 <= l) long6)
    by (unfold long6;
        repeat (apply List.Forall_cons; [vm_compute; discriminate|]);
        apply List.Forall_nil).
  assert (Hnorth : Forall (fun l => l < 7#2) lat4)
    by (unfold lat4;
        repeat (apply List.Forall_cons; [vm_compute; reflexivity|]);
        apply List.Forall_nil).
  destruct (rectangle_at_the_edge rect_around lat4 long6 corner_only
              (-1#2) (11#2) (-1#2) (7#2) eq_refl eq_refl) as [Hx Hy].
  split; [reflexivity|]. split; [reflexivity|].
  split; [exact Hwest|]. split; [exact Hnorth|].
  split; [exact (Hx Hwest)|exact (Hy Hnorth)].
Defined.

(** *** The polygon path *)

Lemma norm_index_raises (n i : Z) (e : exn) :
  norm_index n i = Raise e -> e = IndexError.
Proof.
  unfold norm_index. destruct (_ && _); [discriminate|].
  destruct (_ && _); [discriminate|]. congruence.
Qed.

Lemma getitem_raises {A} (l : list A) (i : Z) (e : exn) :
  getitem l i = Raise e -> e = IndexError.
Proof.
  unfold getitem. destruct (norm_index (len l) i) as [k|e'] eqn:Hk; cbn [bind].
  - destruct (l !! k); [discriminate|congruence].
  - intros [= <-]. eapply norm_index_raises; eassumption.
Qed.

Lemma setitem_raises {A} (l : list A) (i : Z) (v : A) (e : exn) :
  setitem l i v = Raise e -> e = IndexError.
Proof.
  unfold setitem. destruct (norm_index (len l) i) as [k|e'] eqn:Hk; cbn [bind].
  - discriminate.
  - intros [= <-]. eapply norm_index_raises; eassumption.
Qed.

Lemma setitem2_raises (m : mask) (y x : Z) (v : bool) (e : exn) :
  setitem2 m y x v = Raise e -> e = IndexError.
Proof.
  unfold setitem2.
  destruct (getitem m y) as [row|e1] eqn:H1; cbn [bind].
  - destruct (setitem row x v) as [row'|e2] eqn:H2; cbn [bind].
    + apply setitem_raises.
    + intros [= <-]. eapply setitem_raises; eassumption.
  - intros [= <-]. eapply getitem_raises; eassumption.
Qed.

Lemma getitem_past_the_end {A} (l : list A) : getitem l (len l) = Raise IndexError.
Proof.
  unfold getitem, norm_index.
  destruct (Z.ltb_spec (len l) (len l)); [lia|]. rewrite andb_false_r.
  destruct (Z.ltb_spec (len l) 0); [unfold len in *; lia|].
  rewrite andb_false_r. reflexivity.
Qed.

(** A loop raises [e0] when one of its iterations raises [e0] in every
    state and no iteration raises anything else. *)
Lemma for_each_raises_at {A S} (xs : list A) (body : A -> S -> result S)
  (s : S) (e0 : exn) (x0 : A) :
  x0 ∈ xs ->
  (forall t, body x0 t = Raise e0) ->
  (forall x t e, body x t = Raise e -> e = e0) ->
  for_each xs body s = Raise e0.
Proof.
  intros Hin Hx0 Honly. revert s.
  induction xs as [|x xs IH]; intros s; [inversion Hin|].
  cbn [for_each]. destruct (body x s) as [t|e] eqn:Hx; cbn [bind].
  - apply elem_of_cons in Hin as [->|Hin]; [rewrite Hx0 in Hx; discriminate|].
    apply IH. assumption.
  - f_equal. eapply Honly. eassumption.
Qed.

Lemma for_each_raises_only {A S} (xs : list A) (body : A -> S -> result S)
  (s : S) (e e0 : exn) :
  (forall x t e, body x t = Raise e -> e = e0) ->
  for_each xs body s = Raise e -> e = e0.
Proof.
  intros Honly. revert s. induction xs as [|x xs IH]; intros s; cbn [for_each];
    [discriminate|].
  destruct (body x s) as [t|e'] eqn:Hx; cbn [bind].
  - apply IH.
  - intros [= <-]. eapply Honly. eassumption.
Qed.

Lemma range_elem (lo hi i : Z) : (lo <= i < hi)%Z -> i ∈ range lo hi.
Proof.
  intros Hi. unfold range. apply list_elem_of_In, in_map_iff.
  exists (Z.to_nat (i - lo)). split; [lia|]. apply in_seq. lia.
Qed.

Lemma searchsorted_monotone (a : list Q) (v w : Q) :
  ascending a -> v <= w -> (searchsorted a v <= searchsorted a w)%Z.
Proof.
  intros Hasc Hvw.
  destruct (Z.le_gt_cases (searchsorted a v) (searchsorted a w)) as [|Hgt];
    [assumption|exfalso].
  pose proof (searchsorted_bounds a v) as Bv.
  pose proof (searchsorted_bounds a w) as Bw.
  destruct (lookup_lt_is_Some_2 a (Z.to_nat (searchsorted a w))) as [x Hx].
  { unfold len in *. lia. }
  assert (Hv : x < v).
  { apply (searchsorted_sorted a v _ x Hasc Hx). lia. }
  assert (Hw : ~ x < w).
  { intros H. apply (searchsorted_sorted a w _ x Hasc Hx) in H. lia. }
  apply Hw. eapply Qlt_le_trans; eassumption.
Qed.

(** X5. On latitudes in descending order, a polygon whose bounds reach
    east of every longitude makes the polygon path raise [IndexError]:
    the padded column range ends one past the last column, and
    [long[len(long)]] is read. *)
Theorem polygon_east_of_the_grid (L : pylib) (coords : list point)
  (lat long : list Q) (xmin xmax ymin ymax : Q) :
  get_poly_bounds coords = Ok (xmin, xmax, ymin, ymax) ->
  ascending (rev lat) ->
  Forall (fun l => l < xmax) long ->
  find_selection_polygon L coords lat long = Raise IndexError.
Proof.
  intros Hb Hlat Heast. unfold find_selection_polygon. rewrite Hb. cbn [bind].
  rewrite (searchsorted_all_smaller long xmax Heast).
  assert (Hy : ymin <= ymax).
  { unfold get_poly_bounds in Hb.
    destruct coords as [|p0 ps]; [discriminate|]. cbn [column bind] in Hb.
    destruct (np_min (@map point Q fst (p0 :: ps))); cbn [bind] in Hb;
      [|discriminate].
    destruct (np_max (@map point Q fst (p0 :: ps))); cbn [bind] in Hb;
      [|discriminate].
    destruct (np_min (@map point Q snd (p0 :: ps))) as [lo|] eqn:Hlo;
      cbn [bind] in Hb; [|discriminate].
    destruct (np_max (@map point Q snd (p0 :: ps))) as [hi|] eqn:Hhi;
      cbn [bind] in Hb; [|discriminate].
    injection Hb as -> -> -> ->.
    apply np_min_le in Hlo. apply np_max_ge in Hhi.
    inversion Hlo; inversion Hhi; subst. eapply Qle_trans; eassumption. }
  pose proof (searchsorted_monotone (rev lat) ymin ymax Hlat Hy) as Hmono.
  pose proof (searchsorted_bounds long xmin) as Bx.
  set (inner := fun (y x : Z) (m : mask) =>
    let* lx := getitem long x in
    let* ly := getitem lat y in
    if contains_point L coords (lx, ly) then setitem2 m y x false else Ok m).
  assert (Hinner_only : forall y x t e, inner y x t = Raise e -> e = IndexError).
  { intros y x t e. unfold inner.
    destruct (getitem long x) as [lx|e1] eqn:H1; cbn [bind];
      [|intros [= <-]; eapply getitem_raises; eassumption].
    destruct (getitem lat y) as [ly|e2] eqn:H2; cbn [bind];
      [|intros [= <-]; eapply getitem_raises; eassumption].
    destruct (contains_point L coords (lx, ly)); cbv iota;
      [apply setitem2_raises|discriminate]. }
  apply (for_each_raises_at _ _ _ _
           (len lat - searchsorted (rev lat) ymax - 1)%Z).
  - apply range_elem. lia.
  - intros t. apply (for_each_raises_at _ _ _ _ (len long)).
    + apply range_elem. lia.
    + intros r. rewrite getitem_past_the_end. reflexivity.
    + intros x r e. apply (Hinner_only _ x r e).
  - intros y t e. apply for_each_raises_only.
    intros x r e'. apply (Hinner_only y x r e').
Qed.

(** A triangle whose eastern corner lies beyond the last longitude. *)
Definition triangle_east : list point :=
  [(3#2, 1#2); (11#2, 3#2); (3#2, 5#2); (3#2, 1#2)].

Lemma polygon_east_of_the_grid_witness :
  find_selection_polygon rational_math triangle_east lat4 long6
  = Raise IndexError.
Proof.
  apply (polygon_east_of_the_grid rational_math triangle_east lat4 long6
           (3#2) (11#2) (1#2) (5#2)).
  - reflexivity.
  - unfold lat4. cbn [rev app]. ascending_tac.
  - unfold long6. repeat constructor.
Defined.

(** A property that every iteration keeps and one iteration of the
    loop establishes holds after the loop. *)
Lemma for_each_establishes {A S} (P : S -> Prop) (xs : list A)
  (body : A -> S -> result S) (s s' : S) (x0 : A) :
  x0 ∈ xs ->
  (forall x t t', x ∈ xs -> P t -> body x t = Ok t' -> P t') ->
  (forall t t', body x0 t = Ok t' -> P t') ->
  for_each xs body s = Ok s' -> P s'.
Proof.
  intros Hin Hkeep Hest. revert s.
  induction xs as [|x xs IH]; intros s; [inversion Hin|].
  cbn [for_each]. destruct (body x s) as [t|] eqn:Hx; cbn [bind]; [|discriminate].
  apply elem_of_cons in Hin as [->|Hin].
  - apply (for_each_invariant P).
    + intros y t1 t2 Hy. apply Hkeep. now right.
    + eapply Hest. eassumption.
  - apply IH; [assumption|].
    intros y t1 t2 Hy. apply Hkeep. now right.
Qed.

Lemma setitem2_same (m m' : mask) (y x : Z) (v : bool) :
  setitem2 m y x v = Ok m' -> (0 <= y)%Z -> (0 <= x)%Z ->
  cell m' (Z.to_nat y) (Z.to_nat x) = Some v.
Proof.
  unfold setitem2. intros Hset Hy Hx.
  destruct (getitem m y) as [row|] eqn:Hrow; cbn [bind] in Hset; [|discriminate].
  destruct (setitem row x v) as [row'|] eqn:Hrow'; cbn [bind] in Hset;
    [|discriminate].
  apply getitem_nonneg in Hrow; [|assumption].
  assert (Hxlen : (x < len row)%Z).
  { unfold setitem in Hrow'.
    destruct (norm_index (len row) x) as [k|] eqn:Hk; [|discriminate].
    apply norm_index_nonneg in Hk; [tauto|assumption]. }
  apply setitem_nonneg in Hrow'; [|assumption].
  apply setitem_nonneg in Hset; [|assumption].
  subst m' row'. unfold cell.
  rewrite list_lookup_insert_eq by (eapply lookup_lt_Some; eassumption).
  apply list_lookup_insert_eq. unfold len in Hxlen. lia.
Qed.

(** X6. When the polygon path returns and its index ranges start inside
    the grid, a cell is included exactly when it lies in the padded index
    ranges and [contains_point] accepts its coordinates. *)
Theorem polygon_cell (L : pylib) (coords : list point) (lat long : list Q)
  (m : mask) (x_lo x_hi y_lo y_hi : Z) (y x : nat) (lx ly : Q) :
  find_selection_polygon L coords lat long = Ok m ->
  index_box coords lat long = Ok (x_lo, x_hi, y_lo, y_hi) ->
  (0 <= x_lo)%Z -> (0 <= y_lo)%Z ->
  long !! x = Some lx -> lat !! y = Some ly ->
  cell m y x
  = Some (negb ((y_lo <=? Z.of_nat y)%Z && (Z.of_nat y <? y_hi)%Z
                && (x_lo <=? Z.of_nat x)%Z && (Z.of_nat x <? x_hi)%Z
                && contains_point L coords (lx, ly))).
Proof.
  unfold find_selection_polygon, index_box.
  destruct (get_poly_bounds coords) as [[[[xmin xmax] ymin] ymax]|]; cbn [bind];
    [|discriminate].
  intros Hm [= <- <- <- <-] Hx_lo Hy_lo Hlx Hly.
  set (x_lo := (searchsorted long xmin - 1)%Z) in *.
  set (x_hi := (searchsorted long xmax + 1)%Z) in *.
  set (y_lo := (len lat - searchsorted (rev lat) ymax - 1)%Z) in *.
  set (y_hi := (len lat - searchsorted (rev lat) ymin + 1)%Z) in *.
  set (inner := fun (y' x' : Z) (t : mask) =>
    let* lx' := getitem long x' in
    let* ly' := getitem lat y' in
    if contains_point L coords (lx', ly') then setitem2 t y' x' false else Ok t)
    in *.
  (* what one iteration does to the cell *)
  assert (Hvisit : forall y' x' t t', (0 <= y')%Z -> (0 <= x')%Z ->
            inner y' x' t = Ok t' ->
            (Z.to_nat y', Z.to_nat x') = (y, x) /\
              (contains_point L coords (lx, ly) = true /\ cell t' y x = Some false
               \/ contains_point L coords (lx, ly) = false /\ t' = t)
            \/ (Z.to_nat y', Z.to_nat x') <> (y, x) /\ cell t' y x = cell t y x).
  { intros y' x' t t' Hy' Hx'. unfold inner.
    destruct (getitem long x') as [lx'|] eqn:Hlx'; cbn [bind]; [|discriminate].
    destruct (getitem lat y') as [ly'|] eqn:Hly'; cbn [bind]; [|discriminate].
    apply getitem_nonneg in Hlx'; [|assumption].
    apply getitem_nonneg in Hly'; [|assumption].
    intros Hbody.
    destruct (decide ((Z.to_nat y', Z.to_nat x') = (y, x))) as [Heq|Hne].
    - left. split; [assumption|]. injection Heq as Hy0 Hx0.
      rewrite Hx0, Hlx in Hlx'. rewrite Hy0, Hly in Hly'.
      injection Hlx' as <-. injection Hly' as <-.
      destruct (contains_point L coords (lx, ly)).
      + left. split; [reflexivity|].
        rewrite <- Hy0, <- Hx0. eapply setitem2_same; eassumption.
      + injection Hbody as <-. right. split; reflexivity.
    - right. split; [assumption|].
      destruct (contains_point L coords (lx', ly')).
      + eapply setitem2_other; eassumption.
      + injection Hbody as <-. reflexivity. }
  destruct ((y_lo <=? Z.of_nat y)%Z && (Z.of_nat y <? y_hi)%Z
            && (x_lo <=? Z.of_nat x)%Z && (Z.of_nat x <? x_hi)%Z
            && contains_point L coords (lx, ly)) eqn:Hin; cbn [negb].
  - repeat (apply andb_true_iff in Hin as [Hin ?]).
    apply Z.leb_le in Hin.
    repeat match goal with
           | H : (_ <=? _)%Z = true |- _ => apply Z.leb_le in H
           | H : (_ <? _)%Z = true |- _ => apply Z.ltb_lt in H
           end.
    revert Hm.
    apply (for_each_establishes (fun t => cell t y x = Some false) _ _ _ _
             (Z.of_nat y)).
    + apply range_elem. lia.
    + intros y' t t' Hy' Ht. apply range_ge in Hy'.
      apply (for_each_invariant (fun t => cell t y x = Some false));
        [|assumption].
      intros x' r r' Hx' Hr Hbody. apply range_ge in Hx'.
      destruct (Hvisit y' x' r r') as [[_ [[_ Hc]|[_ ->]]]|[_ Hc]];
        try lia; try assumption; congruence.
    + intros t t'.
      apply (for_each_establishes (fun t => cell t y x = Some false) _ _ _ _
               (Z.of_nat x)).
      * apply range_elem. lia.
      * intros x' r r' Hx' Hr Hbody. apply range_ge in Hx'.
        destruct (Hvisit (Z.of_nat y) x' r r') as [[_ [[_ Hc]|[_ ->]]]|[_ Hc]];
          try lia; try assumption; congruence.
      * intros r r' Hbody.
        destruct (Hvisit (Z.of_nat y) (Z.of_nat x) r r')
          as [[_ [[_ Hc]|[Hc _]]]|[Hne _]]; try lia; try assumption.
        -- congruence.
        -- exfalso. apply Hne. rewrite !Nat2Z.id. reflexivity.
  - revert Hm.
    apply (for_each_invariant (fun t => cell t y x = Some true)).
    + intros y' t t' Hy' Ht. apply range_ge in Hy'.
      apply (for_each_invariant (fun t => cell t y x = Some true));
        [|assumption].
      intros x' r r' Hx' Hr Hbody. apply range_ge in Hx'.
      destruct (Hvisit y' x' r r') as [[Heq [[Hc _]|[_ ->]]]|[_ Hc]];
        try lia; try assumption; [|congruence].
      exfalso. injection Heq as Hy0 Hx0.
      rewrite Hc, andb_true_r in Hin.
      assert (H1 : (y_lo <=? Z.of_nat y)%Z = true) by (apply Z.leb_le; lia).
      assert (H2 : (Z.of_nat y <? y_hi)%Z = true) by (apply Z.ltb_lt; lia).
      assert (H3 : (x_lo <=? Z.of_nat x)%Z = true) by (apply Z.leb_le; lia).
      assert (H4 : (Z.of_nat x <? x_hi)%Z = true) by (apply Z.ltb_lt; lia).
      rewrite H1, H2, H3, H4 in Hin. discriminate.
    + apply np_full_cell; eapply lookup_lt_Some; eassumption.
Qed.

Lemma polygon_cell_witness :
  exists m,
    find_selection_polygon rational_math rect_west lat4 long6 = Ok m /\
    cell m 1 2 = Some false /\ cell m 0 1 = Some true.
Proof.
  eexists. split; [reflexivity|]. split.
  - apply (polygon_cell rational_math rect_west lat4 long6 _ 1 5 0 4 1 2 2 2);
      try reflexivity; discriminate.
  - apply (polygon_cell rational_math rect_west lat4 long6 _ 1 5 0 4 0 1 1 3);
      try reflexivity; discriminate.
Defined.

End SelectionMore.


(** ** More on [get_selection] *)

Module LayerMore.
Import Py PyFacts Selection SelectionFacts Layer LayerFacts.

Lemma find_selection_falls_through (L : pylib) (sel : selection)
  (lat long : list Q) :
  geometry_type sel <> "Point"%string ->
  geometry_type sel <> "Polygon"%string ->
  find_selection L sel lat long = Ok None.
Proof.
  intros Hpoint Hpolygon. unfold find_selection.
  rewrite (proj2 (String.eqb_neq _ _) Hpoint).
  rewrite (proj2 (String.eqb_neq _ _) Hpolygon). reflexivity.
Qed.

Lemma np_ma_array_none {V} (d : grid V) :
  np_ma_array d None
  = Ok {| ma_data := d; ma_mask := map (map (fun _ => false)) d |}.
Proof.
  unfold np_ma_array. destruct (shape_eqb [[false]] d) eqn:Hshape.
  - unfold shape_eqb in Hshape. apply bool_decide_eq_true_1 in Hshape.
    destruct d as [|[|v [|v' row]] [|row' d]]; try discriminate. reflexivity.
  - reflexivity.
Qed.

(** X7. A shape whose geometry type is neither ['Point'] nor
    ['Polygon'] masks nothing when it is passed alone: [get_selection]
    returns the whole current frame, every cell included. As the first of
    several shapes it makes [get_selection] raise [TypeError], unless the
    second shape raises first. *)
Theorem get_selection_of_unknown_shape {V bbox affine artifact : Type}
  (L : pylib) (l : RasterLayer.t V bbox affine artifact) (s : selection)
  (d : grid V) :
  geometry_type s <> "Point"%string ->
  geometry_type s <> "Polygon"%string ->
  getitem (RasterLayer.data l) (RasterLayer.frame l) = Ok d ->
  RasterLayer.get_selection L l (One s)
  = Ok {| ma_data := d; ma_mask := map (map (fun _ => false)) d |} /\
  forall s' tl,
    RasterLayer.get_selection L l (Several (s :: s' :: tl))
    = match find_selection L s' (fst (RasterLayer.coords l))
              (snd (RasterLayer.coords l)) with
      | Ok _ => Raise TypeError
      | Raise e => Raise e
      end.
Proof.
  intros Hpoint Hpolygon Hd. unfold RasterLayer.get_selection. split.
  - cbn [selection_mask].
    rewrite (find_selection_falls_through L s _ _ Hpoint Hpolygon).
    cbn [bind]. rewrite Hd. cbn [bind]. apply np_ma_array_none.
  - intros s' tl. cbn [selection_mask].
    destruct (getitem_valid (s :: s' :: tl) 0) as (x & -> & Hx).
    { unfold len. cbn [length]. lia. }
    injection Hx as <-. cbn [bind].
    rewrite (find_selection_falls_through L s _ _ Hpoint Hpolygon).
    cbn [bind].
    rewrite range_cons by (unfold len; cbn [length]; lia).
    cbn [for_each].
    destruct (getitem_valid (s :: s' :: tl) 1) as (x & -> & Hx).
    { unfold len. cbn [length]. lia. }
    injection Hx as <-. cbn [bind].
    destruct (find_selection L s' _ _) as [m'|e]; reflexivity.
Qed.

Lemma get_selection_of_unknown_shape_witness :
  RasterLayer.get_selection rational_math raster0 (One line_string)
  = Ok {| ma_data := frame0; ma_mask := replicate 4 (replicate 6 false) |} /\
  forall s' tl,
    RasterLayer.get_selection rational_math raster0
      (Several (line_string :: s' :: tl))
    = match find_selection rational_math s' lat4 long6 with
      | Ok _ => Raise TypeError
      | Raise e => Raise e
      end.
Proof.
  apply (get_selection_of_unknown_shape rational_math raster0 line_string frame0);
    [discriminate|discriminate|reflexivity].
Defined.

End LayerMore.


(** ** More on the frame cache *)

Module RasterMore.
Import Py PyFacts Selection Layer RasterLayer RasterFacts.

Section CacheContents.
Context {V bbox affine artifact : Type}.
Variable process_frame_raster : grid V -> bbox -> affine -> string -> artifact.

Local Abbreviation layer := (RasterLayer.t V bbox affine artifact).
Local Abbreviation state := (RasterLayer.state V bbox affine artifact).
Local Abbreviation update_frame := (RasterLayer.update_frame process_frame_raster).
Local Abbreviation buffer_frames := (@RasterLayer.buffer_frames V bbox affine artifact).
Local Abbreviation complete := (RasterLayer.complete process_frame_raster).
Local Abbreviation step := (RasterLayer.step process_frame_raster).
Local Abbreviation run := (RasterLayer.run process_frame_raster).

(** The frame as [update_frame] and the pool tasks render it, and as
    [create_layer] renders it. *)
Definition rendered_img (l : layer) (d : grid V) : artifact :=
  process_frame_raster d (bounds_img l) (transform l) (cmap l).

Definition rendered_true (l : layer) (d : grid V) : artifact :=
  process_frame_raster d (bounds l) (transform l) (cmap l).

(** Two layers with the same dataset and the same settings. *)
Definition same_settings (l l' : layer) : Prop :=
  data l' = data l /\ coords l' = coords l /\ cmap l' = cmap l /\
  transform l' = transform l /\ bounds l' = bounds l /\
  bounds_img l' = bounds_img l.

Lemma same_settings_refl (l : layer) : same_settings l l.
Proof. repeat split. Qed.

Lemma same_settings_trans (l1 l2 l3 : layer) :
  same_settings l1 l2 -> same_settings l2 l3 -> same_settings l1 l3.
Proof.
  unfold same_settings. intros (?&?&?&?&?&?) (?&?&?&?&?&?).
  repeat split; congruence.
Qed.

Lemma getitem_inv {A} (l : list A) (i : Z) (x : A) :
  getitem l i = Ok x ->
  exists k, norm_index (len l) i = Ok k /\ l !! k = Some x.
Proof.
  unfold getitem. destruct (norm_index (len l) i) as [k|]; cbn [bind];
    [|discriminate].
  destruct (l !! k) as [y|] eqn:Hk; [|discriminate].
  intros [= <-]. eauto.
Qed.

(** [update_frame], branch by branch. *)
Lemma update_frame_run (l : layer) (e : env V bbox affine) (i : option Z) :
  let i0 := match i with None => (frame l + 1)%Z | Some i => i end in
  let e0 := if (i0 mod 10 =? 0)%Z then hold_back (i0 + 1) 40 e else e in
  update_frame i (l, e)
  = match getitem (cache l) i0 with
    | Raise err => (Raise err, (set_frame i0 l, e0))
    | Ok (Frame a) => (Ok tt, (set_url a (set_frame i0 l), e0))
    | Ok Zero =>
        match getitem (data l) i0 with
        | Raise err => (Raise err, (set_frame i0 l, e0))
        | Ok d =>
            let img := rendered_img l d in
            match norm_index (len (cache l)) i0 with
            | Ok k =>
                (Ok tt,
                 (set_cache (<[k:=Frame img]> (cache l))
                    (set_url img (set_frame i0 l)),
                  hold_back (i0 + 1) 50 (log_assigned k (log_rendered d e0))))
            | Raise err =>
                (Raise err, (set_url img (set_frame i0 l), log_rendered d e0))
            end
        end
    end.
Proof.
  cbv zeta.
  set (i0 := match i with None => (frame l + 1)%Z | Some i => i end).
  unfold RasterLayer.update_frame, debounced_buffer_frames, process_frame,
    cache_assign, rendered_img, setitem.
  unfold mbind, self, on_layer, on_env, lift, ret.
  cbn [fst snd]. fold i0.
  destruct (i0 mod 10 =? 0)%Z;
    cbn [fst snd set_frame set_url cache frame data bounds_img transform cmap];
    (destruct (getitem (cache l) i0) as [[|a]|err]; [|reflexivity|reflexivity]);
    (destruct (getitem (data l) i0) as [d|err]; [|reflexivity]);
    cbn [fst snd set_frame set_url cache frame data bounds_img transform cmap];
    (destruct (norm_index (len (cache l)) i0) as [k|err]; reflexivity).
Qed.

(** What [update_frame] does to the cache: nothing, or it fills one
    entry that was [0] with the rendering of that frame's data. *)
Lemma update_frame_effect (s : state) (i : option Z) :
  length (data s.1) = length (cache s.1) ->
  same_settings s.1 (update_frame i s).2.1 /\
  in_flight (update_frame i s).2.2 = in_flight s.2 /\
  (cache (update_frame i s).2.1 = cache s.1 \/
   exists k d,
     cache s.1 !! k = Some Zero /\ data s.1 !! k = Some d /\
     cache (update_frame i s).2.1
     = <[k:=Frame (rendered_img s.1 d)]> (cache s.1)).
Proof.
  destruct s as [l e]. cbn [fst snd]. intros Hlen.
  rewrite update_frame_run. cbv zeta.
  set (i0 := match i with None => (frame l + 1)%Z | Some i => i end).
  assert (Hfl : in_flight (if (i0 mod 10 =? 0)%Z
                           then hold_back (i0 + 1) 40 e else e) = in_flight e).
  { destruct (i0 mod 10 =? 0)%Z; reflexivity. }
  destruct (getitem (cache l) i0) as [[|a]|err] eqn:Hc; cbn [fst snd].
  - destruct (getitem_inv _ _ _ Hc) as (k & Hk & Hzero).
    destruct (getitem (data l) i0) as [d|err] eqn:Hd; cbn [fst snd].
    + destruct (getitem_inv _ _ _ Hd) as (k' & Hk' & Hdk).
      unfold len in Hk'. rewrite Hlen in Hk'. fold (len (cache l)) in Hk'.
      rewrite Hk in Hk'. injection Hk' as <-. rewrite Hk. cbn [fst snd].
      split; [repeat split|]. split; [exact Hfl|].
      right. exists k, d. repeat split; assumption.
    + split; [repeat split|]. split; [exact Hfl|]. left. reflexivity.
  - split; [repeat split|]. split; [exact Hfl|]. left. reflexivity.
  - split; [repeat split|]. split; [exact Hfl|]. left. reflexivity.
Qed.

(** *** What the pool is handed *)

(** A task made from the layer's own data and settings, for an entry
    that is [0]. *)
Definition fresh_task (l : layer) (tk : task V bbox affine) : Prop :=
  exists k,
    norm_index (len (cache l)) (task_frame tk) = Ok k /\
    cache l !! k = Some Zero /\
    data l !! k = Some (task_data tk) /\
    task_bounds tk = bounds_img l /\
    task_transform tk = transform l /\
    task_cmap tk = cmap l.

(** [self.data[start:start+n][i]] is [self.data[start+i]] whenever
    [self.cache[start]] and [self.cache[start+i]] exist. *)
Lemma getslice_getitem {A B} (data : list A) (cache : list B) (start n i : Z)
  (d : A) (k0 k : nat) :
  length data = length cache ->
  (0 <= i)%Z ->
  norm_index (len cache) start = Ok k0 ->
  norm_index (len cache) (start + i) = Ok k ->
  getitem (getslice data start (start + n)) i = Ok d ->
  data !! k = Some d.
Proof.
  intros Hlen Hi Hk0 Hk Hd.
  apply getitem_nonneg in Hd; [|assumption].
  unfold getslice in Hd.
  apply lookup_take_Some in Hd as [Hd Hlt].
  rewrite lookup_drop in Hd.
  pose proof (lookup_lt_Some _ _ _ Hd) as Hin.
  unfold len in *. rewrite Hlen in *.
  replace k with (Z.to_nat (slice_bound (Z.of_nat (length cache)) start)
                  + Z.to_nat i)%nat; [assumption|].
  unfold norm_index in Hk0, Hk. unfold slice_bound in *.
  destruct (Z.leb_spec 0 start), (Z.ltb_spec start (Z.of_nat (length cache)));
    cbn [andb] in Hk0;
    destruct (Z.leb_spec (- Z.of_nat (length cache)) start),
             (Z.ltb_spec start 0); cbn [andb] in Hk0; try discriminate;
    destruct (Z.leb_spec 0 (start + i)),
             (Z.ltb_spec (start + i) (Z.of_nat (length cache)));
    cbn [andb] in Hk;
    destruct (Z.leb_spec (- Z.of_nat (length cache)) (start + i)),
             (Z.ltb_spec (start + i) 0); cbn [andb] in Hk; try discriminate;
    injection Hk as <-; lia.
Qed.

Lemma buffer_loop_tasks (dslice : list (grid V)) (start : Z) (xs : list Z)
  (s : state) :
  let body := fun i : Z =>
    let! l := self in
    let! c := lift (getitem (cache l) (start + i)) in
    match c with
    | Frame _ => ret tt
    | Zero =>
        let! d := lift (getitem dslice i) in
        apply_async {| task_frame := (start + i)%Z; task_data := d;
                       task_bounds := bounds_img l;
                       task_transform := transform l;
                       task_cmap := cmap l |}
    end in
  exists new,
    (for_each_M xs body s).2 = (s.1, fold_left (fun e tk => submit tk e) new s.2) /\
    Forall (fun tk =>
              exists i, i ∈ xs /\ task_frame tk = (start + i)%Z /\
                getitem (cache s.1) (start + i) = Ok Zero /\
                getitem dslice i = Ok (task_data tk) /\
                task_bounds tk = bounds_img s.1 /\
                task_transform tk = transform s.1 /\
                task_cmap tk = cmap s.1) new /\
    (new <> [] ->
     exists x c, head xs = Some x /\ getitem (cache s.1) (start + x) = Ok c).
Proof.
  intros body. revert s. induction xs as [|x xs IH]; intros [l e].
  - exists []. split; [reflexivity|]. split; [constructor|congruence].
  - assert (Hbody :
      body x (l, e) =
      match getitem (cache l) (start + x) with
      | Ok Zero =>
          match getitem dslice x with
          | Ok d =>
              (Ok tt,
               (l, submit {| task_frame := (start + x)%Z; task_data := d;
                             task_bounds := bounds_img l;
                             task_transform := transform l;
                             task_cmap := cmap l |} e))
          | Raise err => (Raise err, (l, e))
          end
      | Ok (Frame _) => (Ok tt, (l, e))
      | Raise err => (Raise err, (l, e))
      end).
    { unfold body, mbind, self, lift, apply_async, on_env, ret. cbn [fst snd].
      destruct (getitem (cache l) (start + x)) as [[|a]|err]; reflexivity. }
    cbn [for_each_M]. rewrite mbind_run, Hbody. clear Hbody.
    destruct (getitem (cache l) (start + x)) as [[|a]|err] eqn:Hc.
    + destruct (getitem dslice x) as [d|err] eqn:Hd.
      * match goal with |- context [for_each_M xs body ?st] =>
          destruct (IH st) as (new & Hrun & Hall & _) end.
        cbn [fst snd] in Hrun, Hall.
        eexists (_ :: new). split; [rewrite Hrun; reflexivity|].
        split; [|intros _; exists x, Zero; split; [reflexivity|exact Hc]].
        constructor.
        -- exists x. cbn [task_frame task_data task_bounds task_transform task_cmap].
           repeat split; try assumption. now left.
        -- eapply Forall_impl; [exact Hall|].
           intros tk (i & Hi & Hrest). exists i. split; [now right|exact Hrest].
      * exists []. split; [reflexivity|]. split; [constructor|congruence].
    + destruct (IH (l, e)) as (new & Hrun & Hall & _).
      exists new. split; [exact Hrun|].
      split; [|intros _; exists x, (Frame a); split; [reflexivity|exact Hc]].
      eapply Forall_impl; [exact Hall|].
      intros tk (i & Hi & Hrest). exists i. split; [now right|exact Hrest].
    + exists []. split; [reflexivity|]. split; [constructor|congruence].
Qed.

(** [buffer_frames] leaves the layer as it is and hands the pool tasks
    made from the layer's own data, each for an entry that is [0]. *)
Lemma buffer_frames_effect (s : state) (start n : Z) :
  length (data s.1) = length (cache s.1) ->
  exists new,
    (buffer_frames start n s).2
    = (s.1, fold_left (fun e tk => submit tk e) new s.2) /\
    Forall (fresh_task s.1) new.
Proof.
  intros Hlen. unfold RasterLayer.buffer_frames.
  rewrite mbind_run. unfold self at 1. cbn [fst snd].
  destruct (buffer_loop_tasks (getslice (data s.1) start (start + n)) start
              (range 0 n) s) as (new & Hrun & Hall & Hfirst).
  cbv zeta in Hrun. exists new. split; [exact Hrun|].
  destruct new as [|tk0 new']; [constructor|].
  destruct Hfirst as (x & c & Hhead & Hc); [discriminate|].
  assert (x = 0%Z) as ->.
  { destruct (Z.le_gt_cases n 0) as [Hn|Hn].
    - rewrite range_nil in Hhead by lia. discriminate.
    - rewrite range_cons in Hhead by lia. injection Hhead as <-. reflexivity. }
  replace (start + 0)%Z with start in Hc by lia.
  destruct (getitem_inv _ _ _ Hc) as (k0 & Hk0 & _).
  eapply Forall_impl; [exact Hall|].
  intros tk (i & Hi & Hframe & Hzero & Hd & Hb & Ht & Hm).
  apply range_ge in Hi.
  destruct (getitem_inv _ _ _ Hzero) as (k & Hk & Hzk).
  exists k. rewrite Hframe. repeat split; try assumption.
  apply (getslice_getitem (data s.1) (cache s.1) start n i _ k0 k Hlen
           ltac:(lia) Hk0 Hk Hd).
Qed.

(** *** Task completion, timer and constructor, branch by branch *)

Lemma complete_run (l : layer) (e : env V bbox affine) (k : nat) :
  complete k (l, e)
  = match in_flight e !! k with
    | None => (Ok tt, (l, e))
    | Some tk =>
        let img := process_frame_raster (task_data tk) (task_bounds tk)
                     (task_transform tk) (task_cmap tk) in
        let e1 := log_rendered (task_data tk) (retire k e) in
        match norm_index (len (cache l)) (task_frame tk) with
        | Ok j => (Ok tt, (set_cache (<[j:=Frame img]> (cache l)) l,
                           log_assigned j e1))
        | Raise err => (Raise err, (l, e1))
        end
    end.
Proof.
  unfold RasterLayer.complete, cache_frame, calc_frame, cache_assign, setitem.
  unfold mbind, environment, self, on_layer, on_env, lift, ret. cbn [fst snd].
  destruct (in_flight e !! k) as [tk|]; [|reflexivity].
  cbn [fst snd]. destruct (norm_index (len (cache l)) (task_frame tk));
    reflexivity.
Qed.

Lemma timer_run (l : layer) (e : env V bbox affine) :
  timer (l, e)
  = match pending e with
    | None => (Ok tt, (l, e))
    | Some (start, n) => buffer_frames start n (l, release e)
    end.
Proof.
  unfold timer, mbind, environment, on_env. cbn [fst snd].
  destruct (pending e) as [[start n]|]; reflexivity.
Qed.

Lemma init_run (lat long : list Q) (d : list (grid V)) (c : string)
  (tr : affine) (f : Z) (b b_img : bbox) :
  let l0 := {| coords := (lat, long); data := d; cmap := c;
               cache := replicate (length d) Zero; transform := tr;
               frame := f; bounds := b; bounds_img := b_img; url := None |} in
  init process_frame_raster lat long d c tr f b b_img
  = match getitem d f with
    | Raise err => (Raise err, (l0, empty_env))
    | Ok d0 =>
        let u := process_frame_raster d0 b tr c in
        match norm_index (len (cache l0)) f with
        | Ok k =>
            (Ok tt,
             (set_url u (set_cache (<[k:=Frame u]> (cache l0)) l0),
              hold_back (f + 1) 50
                (log_assigned k (log_rendered d0 empty_env))))
        | Raise err => (Raise err, (l0, log_rendered d0 empty_env))
        end
    end.
Proof.
  cbv zeta. unfold init, create_layer, process_frame, cache_assign,
    debounced_buffer_frames, setitem.
  unfold mbind, self, on_layer, on_env, lift, ret. cbn [fst snd data frame].
  destruct (getitem d f) as [d0|err]; [|reflexivity].
  cbn [fst snd cache bounds transform cmap].
  destruct (norm_index _ f); reflexivity.
Qed.

(** *** The invariant of the cache *)

(** A task in flight was made from the layer's own data and settings,
    and its entry is [0] or already holds what the task will store. *)
Definition task_ok (l : layer) (tk : task V bbox affine) : Prop :=
  exists k,
    norm_index (len (cache l)) (task_frame tk) = Ok k /\
    data l !! k = Some (task_data tk) /\
    task_bounds tk = bounds_img l /\
    task_transform tk = transform l /\
    task_cmap tk = cmap l /\
    (cache l !! k = Some Zero \/
     cache l !! k = Some (Frame (rendered_img l (task_data tk)))).

(** An entry holds the rendering of its own frame: over [bounds_img],
    or over [bounds] if it is the frame [first] the constructor rendered. *)
Definition entries_ok (first : Z) (l : layer) : Prop :=
  forall k a, cache l !! k = Some (Frame a) ->
    exists d, data l !! k = Some d /\
      (a = rendered_img l d \/
       norm_index (len (cache l)) first = Ok k /\ a = rendered_true l d).

Definition consistent (first : Z) (s : state) : Prop :=
  length (data s.1) = length (cache s.1) /\
  Forall (task_ok s.1) (in_flight s.2) /\
  entries_ok first s.1.

(** Entries that hold a frame hold the same frame afterwards. *)
Definition unchanged (c c' : list (entry artifact)) : Prop :=
  forall k a, c !! k = Some (Frame a) -> c' !! k = Some (Frame a).

Lemma fresh_task_ok (l : layer) (tk : task V bbox affine) :
  fresh_task l tk -> task_ok l tk.
Proof.
  intros (k & Hk & Hz & Hd & Hb & Ht & Hc). exists k. repeat split; auto.
Qed.

(** Filling an entry that is [0], or that holds this very frame
    already, with the rendering of its data. *)
Lemma consistent_fill (first : Z) (l l' : layer) (e e' : env V bbox affine)
  (k : nat) (d : grid V) :
  consistent first (l, e) ->
  same_settings l l' ->
  data l !! k = Some d ->
  (cache l !! k = Some Zero \/ cache l !! k = Some (Frame (rendered_img l d))) ->
  cache l' = <[k:=Frame (rendered_img l d)]> (cache l) ->
  (forall tk, tk ∈ in_flight e' -> tk ∈ in_flight e) ->
  consistent first (l', e') /\ unchanged (cache l) (cache l').
Proof.
  intros (Hlen & Htasks & Hentries) (Hd' & _ & Hc' & Ht' & Hb' & Hbi') Hd Hk
    Hcache Hsub.
  cbn [fst snd] in *.
  assert (Hklt : (k < length (cache l))%nat).
  { destruct Hk as [Hk|Hk]; eapply lookup_lt_Some; eassumption. }
  assert (Himg : forall x, rendered_img l' x = rendered_img l x).
  { intros x. unfold rendered_img. rewrite Hbi', Ht', Hc'. reflexivity. }
  assert (Htrue : forall x, rendered_true l' x = rendered_true l x).
  { intros x. unfold rendered_true. rewrite Hb', Ht', Hc'. reflexivity. }
  assert (Hlen' : len (cache l') = len (cache l)).
  { unfold len. rewrite Hcache, length_insert. reflexivity. }
  split; [split; [|split]|].
  - cbn [fst]. rewrite Hd', Hcache, length_insert. assumption.
  - cbn [fst snd]. apply Forall_forall. intros tk Htk.
    apply Hsub in Htk. rewrite Forall_forall in Htasks.
    destruct (Htasks tk Htk) as (j & Hj & Hdj & Hb & Ht & Hc & Hent).
    exists j. rewrite Hlen', Hd', Hbi', Ht', Hc', Himg, Hcache.
    repeat split; try assumption.
    destruct (decide (k = j)) as [->|Hne].
    + right. rewrite list_lookup_insert_eq by assumption.
      rewrite Hd in Hdj. injection Hdj as ->. reflexivity.
    + rewrite list_lookup_insert_ne by assumption. assumption.
  - cbn [fst]. intros j a. rewrite Hlen', Hcache, Hd'.
    destruct (decide (k = j)) as [->|Hne].
    + rewrite list_lookup_insert_eq by assumption. intros [= <-].
      exists d. split; [assumption|]. left. symmetry. apply Himg.
    + rewrite list_lookup_insert_ne by assumption. intros Hj.
      destruct (Hentries j a Hj) as (dj & Hdj & Ha). exists dj.
      split; [assumption|]. rewrite Himg, Htrue. assumption.
  - intros j a Hj. rewrite Hcache.
    destruct (decide (k = j)) as [->|Hne].
    + rewrite list_lookup_insert_eq by assumption.
      destruct Hk as [Hk|Hk]; congruence.
    + rewrite list_lookup_insert_ne by assumption. assumption.
Qed.

(** Anything that leaves data, settings and cache alone and adds
    nothing but tasks that are in order. *)
Lemma consistent_same (first : Z) (l l' : layer) (e e' : env V bbox affine) :
  consistent first (l, e) ->
  same_settings l l' ->
  cache l' = cache l ->
  Forall (task_ok l) (in_flight e') ->
  consistent first (l', e').
Proof.
  intros (Hlen & _ & Hentries) (Hd' & _ & Hc' & Ht' & Hb' & Hbi') Hcache Htasks.
  cbn [fst snd] in *.
  split; [|split]; cbn [fst snd].
  - rewrite Hd', Hcache. assumption.
  - eapply Forall_impl; [exact Htasks|].
    intros tk (j & Hj & Hdj & Hb & Ht & Hc & Hent). exists j.
    unfold rendered_img. rewrite Hcache, Hd', Hbi', Ht', Hc'.
    repeat split; assumption.
  - intros j a. unfold rendered_img, rendered_true.
    rewrite Hcache, Hd', Hbi', Hb', Ht', Hc'. apply Hentries.
Qed.

Lemma unchanged_refl (c : list (entry artifact)) : unchanged c c.
Proof. intros k a H. exact H. Qed.

Lemma unchanged_trans (c1 c2 c3 : list (entry artifact)) :
  unchanged c1 c2 -> unchanged c2 c3 -> unchanged c1 c3.
Proof. intros H12 H23 k a H. apply H23, H12, H. Qed.

Lemma in_flight_submitted (new : list (task V bbox affine)) (e : env V bbox affine) :
  in_flight (fold_left (fun e tk => submit tk e) new e) = in_flight e ++ new.
Proof.
  revert e. induction new as [|tk new IH]; intros e; cbn [fold_left].
  - rewrite app_nil_r. reflexivity.
  - rewrite IH. cbn [submit in_flight]. rewrite <- app_assoc. reflexivity.
Qed.

(** Every event keeps the invariant, the settings, and the frames the
    cache holds. *)
Lemma step_consistent (first : Z) (s : state) (ev : event) :
  consistent first s ->
  consistent first (step s ev) /\
  unchanged (cache s.1) (cache (step s ev).1) /\
  same_settings s.1 (step s ev).1.
Proof.
  destruct s as [l e]. intros Hs.
  pose proof Hs as (Hlen & Htasks & Hentries). cbn [fst snd] in Hlen, Htasks.
  unfold RasterLayer.step. destruct ev as [i| |k].
  - (* update_frame *)
    rewrite update_frame_run. cbv zeta.
    set (i0 := match i with None => (frame l + 1)%Z | Some i => i end).
    set (e0 := if (i0 mod 10 =? 0)%Z then hold_back (i0 + 1) 40 e else e).
    assert (Hfl : in_flight e0 = in_flight e).
    { unfold e0. destruct (i0 mod 10 =? 0)%Z; reflexivity. }
    assert (Hsame : forall l' e',
              same_settings l l' -> cache l' = cache l ->
              in_flight e' = in_flight e ->
              consistent first (l', e') /\
              unchanged (cache l) (cache (l', e').1) /\
              same_settings l (l', e').1).
    { intros l' e' Hset Hc Hf. cbn [fst]. split; [|split; [|assumption]].
      - eapply consistent_same; try eassumption. rewrite Hf. assumption.
      - rewrite Hc. apply unchanged_refl. }
    destruct (getitem (cache l) i0) as [[|a]|err] eqn:Hc; cbn [snd].
    + destruct (getitem_inv _ _ _ Hc) as (k & Hk & Hzero).
      destruct (getitem (data l) i0) as [d|err] eqn:Hd; cbn [snd].
      * destruct (getitem_inv _ _ _ Hd) as (k' & Hk' & Hdk).
        unfold len in Hk'. rewrite Hlen in Hk'. fold (len (cache l)) in Hk'.
        rewrite Hk in Hk'. injection Hk' as <-. rewrite Hk. cbn [fst snd].
        assert (Hset : same_settings l
                  (set_cache (<[k:=Frame (rendered_img l d)]> (cache l))
                     (set_url (rendered_img l d) (set_frame i0 l))))
          by (repeat split).
        destruct (consistent_fill first l _ e
                    (hold_back (i0 + 1) 50 (log_assigned k (log_rendered d e0)))
                    k d Hs Hset Hdk (or_introl Hzero) eq_refl) as [Hcons Hunch].
        { cbn [in_flight hold_back log_assigned log_rendered]. rewrite Hfl. auto. }
        split; [exact Hcons|]. split; [exact Hunch|exact Hset].
      * apply Hsame; [repeat split|reflexivity|assumption].
    + apply Hsame; [repeat split|reflexivity|assumption].
    + apply Hsame; [repeat split|reflexivity|assumption].
  - (* the timer *)
    rewrite timer_run. destruct (pending e) as [[start n]|]; cbn [snd fst].
    + destruct (buffer_frames_effect (l, release e) start n Hlen)
        as (new & Hrun & Hnew).
      rewrite Hrun. cbn [fst snd] in *.
      split; [|split; [apply unchanged_refl|apply same_settings_refl]].
      eapply consistent_same; [exact Hs|apply same_settings_refl|reflexivity|].
      rewrite in_flight_submitted. apply Forall_app. split; [exact Htasks|].
      eapply Forall_impl; [exact Hnew|]. intros tk. apply fresh_task_ok.
    + split; [exact Hs|]. split; [apply unchanged_refl|apply same_settings_refl].
  - (* a task completes *)
    rewrite complete_run. destruct (in_flight e !! k) as [tk|] eqn:Htk;
      cbn [snd fst].
    + cbv zeta.
      pose proof (proj1 (Forall_lookup _ _) Htasks _ _ Htk)
        as (j & Hj & Hdj & Hb & Ht & Hc & Hent).
      rewrite Hj, Hb, Ht, Hc. cbn [fst snd]. fold (rendered_img l (task_data tk)).
      assert (Hset : same_settings l
                (set_cache (<[j:=Frame (rendered_img l (task_data tk))]> (cache l)) l))
        by (repeat split).
      destruct (consistent_fill first l _ e
                  (log_assigned j (log_rendered (task_data tk) (retire k e)))
                  j (task_data tk) Hs Hset Hdj Hent eq_refl) as [Hcons Hunch].
      { cbn [in_flight retire log_assigned log_rendered]. intros tk'.
        apply list_elem_of_delete_inv. }
      split; [exact Hcons|]. split; [exact Hunch|exact Hset].
    + split; [exact Hs|]. split; [apply unchanged_refl|apply same_settings_refl].
Qed.

Lemma run_consistent (first : Z) (evs : list event) (s : state) :
  consistent first s ->
  consistent first (run evs s) /\
  unchanged (cache s.1) (cache (run evs s).1) /\
  same_settings s.1 (run evs s).1.
Proof.
  revert s. induction evs as [|ev evs IH]; intros s Hs; cbn.
  - split; [exact Hs|]. split; [apply unchanged_refl|apply same_settings_refl].
  - destruct (step_consistent first s ev Hs) as (H1 & U1 & S1).
    destruct (IH _ H1) as (H2 & U2 & S2).
    split; [exact H2|].
    split; [eapply unchanged_trans|eapply same_settings_trans]; eassumption.
Qed.

(** The constructor leaves the layer consistent. *)
Lemma init_consistent (lat long : list Q) (d : list (grid V)) (c : string)
  (tr : affine) (f : Z) (b b_img : bbox) :
  consistent f (init process_frame_raster lat long d c tr f b b_img).2 /\
  data (init process_frame_raster lat long d c tr f b b_img).2.1 = d /\
  cmap (init process_frame_raster lat long d c tr f b b_img).2.1 = c /\
  transform (init process_frame_raster lat long d c tr f b b_img).2.1 = tr /\
  bounds (init process_frame_raster lat long d c tr f b b_img).2.1 = b /\
  bounds_img (init process_frame_raster lat long d c tr f b b_img).2.1 = b_img.
Proof.
  rewrite init_run. cbv zeta.
  set (l0 := {| coords := (lat, long); data := d; cmap := c;
                cache := replicate (length d) Zero; transform := tr;
                frame := f; bounds := b; bounds_img := b_img; url := None |}).
  assert (Hzero : forall k a, cache l0 !! k = Some (Frame a) -> False).
  { intros k a Hk. cbn [cache l0] in Hk.
    apply lookup_replicate_1 in Hk as [Hk _]. discriminate. }
  assert (H0 : forall e, in_flight e = [] -> consistent f (l0, e)).
  { intros e He. split; [|split]; cbn [fst snd].
    - cbn [data cache l0]. rewrite length_replicate. reflexivity.
    - rewrite He. constructor.
    - intros k a Hk. destruct (Hzero k a Hk). }
  destruct (getitem d f) as [d0|err] eqn:Hd; cbn [snd fst].
  - destruct (norm_index (len (cache l0)) f) as [k|err] eqn:Hk; cbn [snd fst].
    + split; [|repeat split].
      assert (Hdk : d !! k = Some d0).
      { destruct (getitem_inv _ _ _ Hd) as (k' & Hk' & Hdk).
        unfold l0 in Hk. cbn [cache] in Hk. unfold len in Hk, Hk'.
        rewrite length_replicate in Hk. congruence. }
      pose proof (lookup_lt_Some _ _ _ Hdk) as Hklt.
      unfold l0 in *. cbn [cache] in Hk.
      split; [|split]; cbn [fst snd data cache set_url set_cache].
      * rewrite length_insert, length_replicate. reflexivity.
      * constructor.
      * intros j a Hj. cbn [fst snd data cache set_url set_cache] in *.
        destruct (decide (k = j)) as [->|Hne].
        -- rewrite list_lookup_insert_eq in Hj by (rewrite length_replicate; lia).
           injection Hj as <-. exists d0. split; [exact Hdk|]. right.
           split; [|reflexivity].
           unfold len. rewrite length_insert. exact Hk.
        -- rewrite list_lookup_insert_ne in Hj by assumption.
           apply lookup_replicate_1 in Hj as [Hj _]. discriminate.
    + split; [apply H0; reflexivity|repeat split].
  - split; [apply H0; reflexivity|repeat split].
Qed.

(** X8. From the constructor on, through any sequence of slider
    updates, timer expiries and task completions, a cache entry that
    holds a frame keeps holding that same frame: a later assignment to the
    entry stores the frame it already holds. *)
Theorem cached_frames_never_change (lat long : list Q) (d : list (grid V))
  (c : string) (tr : affine) (f : Z) (b b_img : bbox)
  (evs1 evs2 : list event) (k : nat) (a : artifact) :
  cache (run evs1 (init process_frame_raster lat long d c tr f b b_img).2).1 !! k
  = Some (Frame a) ->
  cache (run evs2
           (run evs1 (init process_frame_raster lat long d c tr f b b_img).2)).1
    !! k
  = Some (Frame a).
Proof.
  destruct (init_consistent lat long d c tr f b b_img) as (H0 & _).
  destruct (run_consistent f evs1 _ H0) as (H1 & _ & _).
  destruct (run_consistent f evs2 _ H1) as (_ & Hunch & _).
  apply Hunch.
Qed.

(** X9. From the constructor on, every frame in the cache is the
    rendering of the data of its own time step with the layer's transform
    and colour map: over [bounds_img] when [update_frame] or a pool task
    stored it, over [bounds] for the frame the constructor stored. *)
Theorem cached_frame_is_its_rendering (lat long : list Q) (d : list (grid V))
  (c : string) (tr : affine) (f : Z) (b b_img : bbox)
  (evs : list event) (k : nat) (a : artifact) :
  cache (run evs (init process_frame_raster lat long d c tr f b b_img).2).1 !! k
  = Some (Frame a) ->
  exists dk,
    d !! k = Some dk /\
    (a = process_frame_raster dk b_img tr c \/
     norm_index (len d) f = Ok k /\ a = process_frame_raster dk b tr c).
Proof.
  destruct (init_consistent lat long d c tr f b b_img)
    as (H0 & Hd & Hc & Ht & Hb & Hbi).
  destruct (run_consistent f evs _ H0) as ((Hlen & _ & Hentries) & _ & Hset).
  destruct Hset as (Hd' & _ & Hc' & Ht' & Hb' & Hbi').
  intros Hk. destruct (Hentries k a Hk) as (dk & Hdk & Ha).
  unfold rendered_img, rendered_true in Ha.
  unfold len in Ha. rewrite <- Hlen in Ha.
  rewrite Hd', Hc', Ht', Hb', Hbi', Hd, Hc, Ht, Hb, Hbi in Ha.
  rewrite Hd', Hd in Hdk. exists dk. split; assumption.
Qed.

Lemma getitem_out_of_range {A} (l : list A) (i : Z) :
  (i < - len l \/ len l <= i)%Z -> getitem l i = Raise IndexError.
Proof.
  intros Hi. unfold getitem, norm_index.
  destruct (Z.leb_spec 0 i), (Z.ltb_spec i (len l)); cbn [andb]; try lia;
    destruct (Z.leb_spec (- len l) i), (Z.ltb_spec i 0); cbn [andb];
    try reflexivity; unfold len in *; lia.
Qed.

(** X10. [update_frame(i)] with an index outside the cache raises
    [IndexError] after [self.frame] has been set to [i]: the layer is left
    pointing at a frame that does not exist, with cache, displayed frame
    and logs as before. *)
Theorem update_frame_out_of_range (s : state) (i : Z) :
  (i < - len (cache s.1) \/ len (cache s.1) <= i)%Z ->
  (update_frame (Some i) s).1 = Raise IndexError /\
  frame (update_frame (Some i) s).2.1 = i /\
  cache (update_frame (Some i) s).2.1 = cache s.1 /\
  url (update_frame (Some i) s).2.1 = url s.1 /\
  rendered (update_frame (Some i) s).2.2 = rendered s.2 /\
  assigned (update_frame (Some i) s).2.2 = assigned s.2.
Proof.
  intros Hi. destruct s as [l e]. cbn [fst snd] in Hi.
  rewrite update_frame_run. cbv zeta.
  rewrite (getitem_out_of_range _ _ Hi). cbn [fst snd set_frame frame cache url].
  destruct (i mod 10 =? 0)%Z; repeat split; reflexivity.
Qed.

(** A loop of stateful code raises [e0] when, in the states the loop
    can be in, one of its iterations raises [e0] and no iteration raises
    anything else. *)
Lemma for_each_M_raises_at {S A} (I : S -> Prop) (xs : list A)
  (body : A -> M S unit) (s : S) (e0 : exn) (x0 : A) :
  x0 ∈ xs -> I s ->
  (forall x t, I t -> I (body x t).2) ->
  (forall t, I t -> (body x0 t).1 = Raise e0) ->
  (forall x t e, I t -> (body x t).1 = Raise e -> e = e0) ->
  (for_each_M xs body s).1 = Raise e0.
Proof.
  intros Hin Hs Hkeep Hx0 Honly. revert s Hs.
  induction xs as [|x xs IH]; intros s Hs; [inversion Hin|].
  cbn [for_each_M]. rewrite mbind_run.
  destruct (body x s) as [[u|e] t] eqn:Hx.
  - apply elem_of_cons in Hin as [->|Hin].
    + specialize (Hx0 s Hs). rewrite Hx in Hx0. discriminate.
    + apply IH; [assumption|]. specialize (Hkeep x s Hs). rewrite Hx in Hkeep.
      exact Hkeep.
  - cbn [fst]. f_equal. apply (Honly x s e Hs). rewrite Hx. reflexivity.
Qed.

(** X11. [buffer_frames(start, n)] with [start >= 0] and a range that
    runs past the end of the cache raises [IndexError]: the loop reads
    [self.cache[len(self.cache)]]. *)
Theorem buffer_frames_past_the_end (s : state) (start n : Z) :
  (0 <= start)%Z -> (0 < n)%Z -> (len (cache s.1) < start + n)%Z ->
  (buffer_frames start n s).1 = Raise IndexError.
Proof.
  intros Hstart Hn Hend. destruct s as [l e]. cbn [fst] in Hend.
  unfold RasterLayer.buffer_frames. rewrite mbind_run.
  unfold self at 1. cbn [fst snd].
  set (dslice := getslice (data l) start (start + n)).
  set (body := fun i : Z =>
    let! l := self in
    let! c := lift (getitem (cache l) (start + i)) in
    match c with
    | Frame _ => ret tt
    | Zero =>
        let! d := lift (getitem dslice i) in
        apply_async {| task_frame := (start + i)%Z; task_data := d;
                       task_bounds := bounds_img l;
                       task_transform := transform l;
                       task_cmap := cmap l |}
    end).
  assert (Hbody : forall x l' e',
      body x (l', e') =
      match getitem (cache l') (start + x) with
      | Ok Zero =>
          match getitem dslice x with
          | Ok d =>
              (Ok tt,
               (l', submit {| task_frame := (start + x)%Z; task_data := d;
                              task_bounds := bounds_img l';
                              task_transform := transform l';
                              task_cmap := cmap l' |} e'))
          | Raise err => (Raise err, (l', e'))
          end
      | Ok (Frame _) => (Ok tt, (l', e'))
      | Raise err => (Raise err, (l', e'))
      end).
  { intros x l' e'.
    unfold body, mbind, self, lift, apply_async, on_env, ret. cbn [fst snd].
    destruct (getitem (cache l') (start + x)) as [[|a]|err]; reflexivity. }
  apply (for_each_M_raises_at (fun t => t.1 = l) _ _ _ _
           (Z.max 0 (len (cache l) - start))).
  - apply SelectionMore.range_elem. lia.
  - reflexivity.
  - intros x [l' e'] Hl. cbn [fst] in Hl. subst l'. rewrite Hbody.
    destruct (getitem (cache l) (start + x)) as [[|a]|err]; try reflexivity.
    destruct (getitem dslice x); reflexivity.
  - intros [l' e'] Hl. cbn [fst] in Hl. subst l'. rewrite Hbody.
    rewrite getitem_out_of_range by lia. reflexivity.
  - intros x [l' e'] err Hl. cbn [fst] in Hl. subst l'. rewrite Hbody.
    destruct (getitem (cache l) (start + x)) as [[|a]|err'] eqn:Hc; cbn [fst].
    + destruct (getitem dslice x) as [d|err'] eqn:Hd; cbn [fst]; [discriminate|].
      intros [= <-]. eapply SelectionMore.getitem_raises. eassumption.
    + discriminate.
    + intros [= <-]. eapply SelectionMore.getitem_raises. eassumption.
Qed.

(** X12. From the constructor on, the completion of a task in flight
    never raises: the callback finds the task's frame index inside the
    cache and stores there the rendering, over [bounds_img], of the data of
    that time step. *)
Theorem task_completion_caches_its_frame (lat long : list Q)
  (d : list (grid V)) (c : string) (tr : affine) (f : Z) (b b_img : bbox)
  (evs : list event) (j : nat) (tk : task V bbox affine) :
  in_flight (run evs (init process_frame_raster lat long d c tr f b b_img).2).2
    !! j = Some tk ->
  exists k dk,
    norm_index (len d) (task_frame tk) = Ok k /\
    d !! k = Some dk /\
    (complete j
       (run evs (init process_frame_raster lat long d c tr f b b_img).2)).1
    = Ok tt /\
    cache
      (complete j
         (run evs (init process_frame_raster lat long d c tr f b b_img).2)).2.1
      !! k
    = Some (Frame (process_frame_raster dk b_img tr c)).
Proof.
  destruct (init_consistent lat long d c tr f b b_img)
    as (H0 & Hd & Hc & Ht & Hb & Hbi).
  destruct (run_consistent f evs _ H0) as ((Hlen & Htasks & _) & _ & Hset).
  destruct Hset as (Hd' & _ & Hc' & Ht' & Hb' & Hbi').
  destruct (run evs (init process_frame_raster lat long d c tr f b b_img).2)
    as [l e].
  cbn [fst snd] in *. intros Hj.
  rewrite Forall_lookup in Htasks.
  destruct (Htasks j tk Hj) as (k & Hk & Hdk & Htb & Htt & Htc & Hck).
  exists k, (task_data tk).
  rewrite complete_run, Hj. cbv zeta. rewrite Hk. cbn [fst snd set_cache cache].
  split; [unfold len in *; rewrite <- Hd, <- Hd', Hlen; exact Hk|].
  split; [rewrite <- Hd, <- Hd'; exact Hdk|].
  split; [reflexivity|].
  rewrite Htb, Htt, Htc, Hbi', Ht', Hc', Hbi, Ht, Hc.
  apply list_lookup_insert_eq.
  destruct Hck as [Hck|Hck]; apply lookup_lt_Some in Hck; exact Hck.
Qed.

Lemma getslice_lookup {A} (data : list A) (start n x : Z) (d : A) :
  (0 <= start)%Z -> (start + n <= len data)%Z -> (0 <= x < n)%Z ->
  data !! Z.to_nat (start + x) = Some d ->
  getitem (getslice data start (start + n)) x = Ok d.
Proof.
  intros Hstart Hend Hx Hd. unfold getslice.
  rewrite !SelectionMore.slice_bound_nonneg by lia.
  apply getitem_lookup.
  - unfold len in *. rewrite length_take, length_drop. lia.
  - apply lookup_take_Some. split; [|unfold len in *; lia].
    rewrite lookup_drop. rewrite <- Hd. f_equal. unfold len in *. lia.
Qed.

Lemma buffer_loop_covers (dslice : list (grid V)) (start : Z) (xs : list Z)
  (l : layer) (e : env V bbox affine) :
  let mk := fun (i : Z) (d : grid V) =>
    {| task_frame := (start + i)%Z; task_data := d;
       task_bounds := bounds_img l; task_transform := transform l;
       task_cmap := cmap l |} in
  let body := fun i : Z =>
    let! l := self in
    let! c := lift (getitem (cache l) (start + i)) in
    match c with
    | Frame _ => ret tt
    | Zero =>
        let! d := lift (getitem dslice i) in
        apply_async {| task_frame := (start + i)%Z; task_data := d;
                       task_bounds := bounds_img l;
                       task_transform := transform l;
                       task_cmap := cmap l |}
    end in
  (forall x, x ∈ xs -> exists c, getitem (cache l) (start + x) = Ok c) ->
  (forall x, x ∈ xs -> exists d, getitem dslice x = Ok d) ->
  exists new,
    for_each_M xs body (l, e)
    = (Ok tt, (l, fold_left (fun e tk => submit tk e) new e)) /\
    forall x, x ∈ xs ->
      (exists a, getitem (cache l) (start + x) = Ok (Frame a)) \/
      exists d, getitem dslice x = Ok d /\ mk x d ∈ new.
Proof.
  intros mk body. revert e. induction xs as [|x xs IH]; intros e Hc Hd.
  - exists []. split; [reflexivity|]. intros x Hx. inversion Hx.
  - destruct (Hc x) as (c0 & Hc0); [now left|].
    destruct (Hd x) as (d0 & Hd0); [now left|].
    assert (Hbody :
      body x (l, e) =
      match c0 with
      | Zero => (Ok tt, (l, submit (mk x d0) e))
      | Frame _ => (Ok tt, (l, e))
      end).
    { unfold body, mbind, self, lift, apply_async, on_env, ret. cbn [fst snd].
      rewrite Hc0. destruct c0; [|reflexivity]. rewrite Hd0. reflexivity. }
    cbn [for_each_M]. rewrite mbind_run, Hbody. clear Hbody.
    destruct c0 as [|a].
    + destruct (IH (submit (mk x d0) e)) as (new & Hrun & Hall).
      { intros y Hy. apply Hc. now right. }
      { intros y Hy. apply Hd. now right. }
      exists (mk x d0 :: new). split; [exact Hrun|].
      intros y Hy. apply elem_of_cons in Hy as [->|Hy].
      * right. exists d0. split; [exact Hd0|now left].
      * destruct (Hall y Hy) as [Hf|(dy & Hdy & Hin)]; [now left|].
        right. exists dy. split; [exact Hdy|now right].
    + destruct (IH e) as (new & Hrun & Hall).
      { intros y Hy. apply Hc. now right. }
      { intros y Hy. apply Hd. now right. }
      exists new. split; [exact Hrun|].
      intros y Hy. apply elem_of_cons in Hy as [->|Hy].
      * left. exists a. exact Hc0.
      * apply Hall. exact Hy.
Qed.

(** X13. With [start >= 0] and a range that ends inside the cache,
    [buffer_frames(start, n)] returns with the layer as it was, and every
    entry from [start] to [start + n - 1] either holds a frame already or
    has a task in flight, made of the data of its own time step and the
    layer's [bounds_img], transform and colour map. *)
Theorem buffer_frames_covers (s : state) (start n : Z) :
  length (data s.1) = length (cache s.1) ->
  (0 <= start)%Z -> (start + n <= len (cache s.1))%Z ->
  (buffer_frames start n s).1 = Ok tt /\
  (buffer_frames start n s).2.1 = s.1 /\
  forall i, (start <= i < start + n)%Z ->
    (exists a, cache s.1 !! Z.to_nat i = Some (Frame a)) \/
    exists dk,
      data s.1 !! Z.to_nat i = Some dk /\
      {| task_frame := i; task_data := dk; task_bounds := bounds_img s.1;
         task_transform := transform s.1; task_cmap := cmap s.1 |}
        ∈ in_flight (buffer_frames start n s).2.2.
Proof.
  intros Hlen Hstart Hend. destruct s as [l e]. cbn [fst snd] in *.
  assert (Hdata : len (data l) = len (cache l)) by (unfold len; lia).
  destruct (buffer_loop_covers (getslice (data l) start (start + n)) start
              (range 0 n) l e) as (new & Hrun & Hall).
  { intros x Hx. apply range_ge in Hx.
    destruct (getitem_valid (cache l) (start + x)) as (c0 & Hc0 & _); [lia|].
    eauto. }
  { intros x Hx. apply range_ge in Hx.
    destruct (getitem_valid (data l) (start + x)) as (d0 & _ & Hd0); [lia|].
    exists d0. apply getslice_lookup; try lia. exact Hd0. }
  assert (Heq : buffer_frames start n (l, e)
                = (Ok tt, (l, fold_left (fun e tk => submit tk e) new e))).
  { unfold RasterLayer.buffer_frames. rewrite mbind_run.
    unfold self at 1. cbn [fst snd]. exact Hrun. }
  rewrite Heq. cbn [fst snd]. split; [reflexivity|]. split; [reflexivity|].
  intros i Hi. rewrite in_flight_submitted.
  destruct (Hall (i - start)%Z) as [(a & Ha)|(dk & Hdk & Hin)].
  { apply SelectionMore.range_elem. lia. }
  - left. exists a. replace (start + (i - start))%Z with i in Ha by lia.
    apply getitem_nonneg in Ha; [exact Ha|lia].
  - right. replace (start + (i - start))%Z with i in Hin by lia.
    destruct (getitem_valid (data l) i) as (d0 & _ & Hd0); [lia|].
    assert (dk = d0) as ->.
    { pose proof (getslice_lookup (data l) start n (i - start) d0) as Hs.
      replace (start + (i - start))%Z with i in Hs by lia.
      rewrite Hs in Hdk by (lia || exact Hd0). congruence. }
    exists d0. split; [exact Hd0|]. apply elem_of_app. right. exact Hin.
Qed.

End CacheContents.


Lemma cached_frames_never_change_witness :
  cache (run render [Complete 0]
           (run render [Timer; Update (Some 1%Z)]
              (init render [0%Q] [0%Q] frames60 "viridis" tt 0 tt tt).2)).1
    !! 1%nat
  = Some (Frame [[1%Z]]).
Proof.
  apply (cached_frames_never_change render [0%Q] [0%Q] frames60 "viridis" tt 0
           tt tt [Timer; Update (Some 1%Z)] [Complete 0] 1 [[1%Z]]).
  vm_compute. reflexivity.
Defined.

Lemma cached_frame_is_its_rendering_witness :
  exists dk,
    frames60 !! 1%nat = Some dk /\
    ([[1%Z]] = render dk tt tt "viridis" \/
     norm_index (len frames60) 0 = Ok 1%nat /\
     [[1%Z]] = render dk tt tt "viridis").
Proof.
  apply (cached_frame_is_its_rendering render [0%Q] [0%Q] frames60 "viridis" tt
           0 tt tt [Timer; Update (Some 1%Z)] 1 [[1%Z]]).
  vm_compute. reflexivity.
Defined.

Lemma update_frame_out_of_range_witness :
  (update_frame render (Some 60%Z) created).1 = Raise IndexError /\
  frame (update_frame render (Some 60%Z) created).2.1 = 60%Z /\
  cache (update_frame render (Some 60%Z) created).2.1 = cache created.1 /\
  url (update_frame render (Some 60%Z) created).2.1 = url created.1 /\
  rendered (update_frame render (Some 60%Z) created).2.2 = rendered created.2 /\
  assigned (update_frame render (Some 60%Z) created).2.2 = assigned created.2.
Proof.
  apply (update_frame_out_of_range render created 60).
  right. vm_compute. discriminate.
Defined.

Lemma buffer_frames_past_the_end_witness :
  (buffer_frames 11 50 created).1 = Raise IndexError.
Proof.
  apply (buffer_frames_past_the_end created 11 50).
  - lia.
  - lia.
  - vm_compute. reflexivity.
Defined.


Lemma task_completion_caches_its_frame_witness :
  exists k dk,
    norm_index (len frames60)
      (task_frame {| task_frame := 1%Z; task_data := [[1%Z]];
                     task_bounds := tt; task_transform := tt;
                     task_cmap := "viridis" |}) = Ok k /\
    frames60 !! k = Some dk /\
    (complete render 0
       (run render [Timer]
          (init render [0%Q] [0%Q] frames60 "viridis" tt 0 tt tt).2)).1
    = Ok tt /\
    cache
      (complete render 0
         (run render [Timer]
            (init render [0%Q] [0%Q] frames60 "viridis" tt 0 tt tt).2)).2.1
      !! k
    = Some (Frame (render dk tt tt "viridis")).
Proof.
  apply (task_completion_caches_its_frame render [0%Q] [0%Q] frames60 "viridis"
           tt 0 tt tt [Timer] 0).
  vm_compute. reflexivity.
Defined.

Lemma buffer_frames_covers_witness :
  (buffer_frames 1 50 created).1 = Ok tt /\
  (buffer_frames 1 50 created).2.1 = created.1 /\
  forall i, (1 <= i < 1 + 50)%Z ->
    (exists a, cache created.1 !! Z.to_nat i = Some (Frame a)) \/
    exists dk,
      data created.1 !! Z.to_nat i = Some dk /\
      {| task_frame := i; task_data := dk; task_bounds := bounds_img created.1;
         task_transform := transform created.1; task_cmap := cmap created.1 |}
        ∈ in_flight (buffer_frames 1 50 created).2.2.
Proof.
  apply (buffer_frames_covers created 1 50).
  - vm_compute. reflexivity.
  - lia.
  - vm_compute. discriminate.
Defined.

End RasterMore.

(** ** More on the bounds of a grid *)

Module BoundsMore.
Import Py PyFacts Selection Bounds.
Local Open Scope Q_scope.

Lemma fold_min_le (l : list Q) (x0 : Q) :
  fold_left (fun m y => if Qltb y m then y else m) l x0 <= x0 /\
  Forall (fun x => fold_left (fun m y => if Qltb y m then y else m) l x0 <= x) l.
Proof.
  revert x0. induction l as [|y l IH]; intros x0; cbn [fold_left].
  - split; [apply Qle_refl|constructor].
  - destruct (IH (if Qltb y x0 then y else x0)) as [Hle Hall].
    assert (Hmin : (if Qltb y x0 then y else x0) <= x0 /\
                   (if Qltb y x0 then y else x0) <= y).
    { destruct (Qltb y x0) eqn:Hc.
      - apply SelectionMore.Qltb_lt in Hc.
        split; [apply Qlt_le_weak; assumption|apply Qle_refl].
      - apply SelectionMore.Qltb_ge in Hc. split; [apply Qle_refl|assumption]. }
    destruct Hmin as [Hx0 Hy].
    split; [eapply Qle_trans; eassumption|].
    constructor; [eapply Qle_trans; eassumption|assumption].
Qed.

Lemma fold_max_ge (l : list Q) (x0 : Q) :
  x0 <= fold_left (fun m y => if Qltb m y then y else m) l x0 /\
  Forall (fun x => x <= fold_left (fun m y => if Qltb m y then y else m) l x0) l.
Proof.
  revert x0. induction l as [|y l IH]; intros x0; cbn [fold_left].
  - split; [apply Qle_refl|constructor].
  - destruct (IH (if Qltb x0 y then y else x0)) as [Hle Hall].
    assert (Hmax : x0 <= (if Qltb x0 y then y else x0) /\
                   y <= (if Qltb x0 y then y else x0)).
    { destruct (Qltb x0 y) eqn:Hc.
      - apply SelectionMore.Qltb_lt in Hc.
        split; [apply Qlt_le_weak; assumption|apply Qle_refl].
      - apply SelectionMore.Qltb_ge in Hc. split; [apply Qle_refl|assumption]. }
    destruct Hmax as [Hx0 Hy].
    split; [eapply Qle_trans; eassumption|].
    constructor; [eapply Qle_trans; eassumption|assumption].
Qed.

Lemma builtin_min_le (l : list Q) (lo : Q) :
  builtin_min l = Ok lo -> Forall (fun x => lo <= x) l.
Proof.
  destruct l as [|x0 l]; [discriminate|]. intros [= <-].
  destruct (fold_min_le l x0). constructor; assumption.
Qed.

Lemma builtin_max_ge (l : list Q) (hi : Q) :
  builtin_max l = Ok hi -> Forall (fun x => x <= hi) l.
Proof.
  destruct l as [|x0 l]; [discriminate|]. intros [= <-].
  destruct (fold_max_ge l x0). constructor; assumption.
Qed.

Lemma np_abs_nonneg (x : Q) : 0 <= np_abs x.
Proof.
  unfold np_abs. destruct (Qltb x 0) eqn:Hc.
  - apply SelectionMore.Qltb_lt in Hc.
    apply (Qopp_le_compat x 0). apply Qlt_le_weak. assumption.
  - apply SelectionMore.Qltb_ge in Hc. assumption.
Qed.

Lemma half_nonneg (x : Q) : 0 <= x -> 0 <= x / 2.
Proof. intros Hx. apply Qle_shift_div_l; [reflexivity|]. rewrite Qmult_0_l. exact Hx. Qed.

Lemma widened (lo hi a b x : Q) :
  0 <= a -> 0 <= b -> lo <= x -> x <= hi -> lo - a <= x /\ x <= hi + b.
Proof.
  intros Ha Hb Hlo Hhi. split.
  - apply Qle_trans with lo; [|assumption].
    apply Qle_minus_iff.
    assert (H : lo + - (lo - a) == a) by ring. rewrite H. assumption.
  - apply Qle_trans with hi; [assumption|].
    apply Qle_minus_iff.
    assert (H : hi + b + - hi == b) by ring. rewrite H. assumption.
Qed.

(** X14. With the step left to [calc_bounds], the box it returns, for
    type ['true'] as for type ['edge'], encloses every longitude and every
    latitude of the grid; for any other type it returns [None]. *)
Theorem calc_bounds_encloses (lat long : list Q) (type : string)
  (r : option (Q * Q * Q * Q)) :
  calc_bounds [lat; long] None type = Ok r ->
  match r with
  | Some (x_min, y_min, x_max, y_max) =>
      (type = "true"%string \/ type = "edge"%string) /\
      Forall (fun x => x_min <= x /\ x <= x_max) long /\
      Forall (fun y => y_min <= y /\ y <= y_max) lat
  | None => type <> "true"%string /\ type <> "edge"%string
  end.
Proof.
  unfold calc_bounds.
  replace (getitem [lat; long] 1) with (Ok long) by reflexivity.
  replace (getitem [lat; long] 0) with (Ok lat) by reflexivity.
  cbn [bind].
  destruct (builtin_min long) as [left|] eqn:Hl; [|discriminate].
  destruct (builtin_min lat) as [bottom|] eqn:Hb; [|discriminate].
  destruct (builtin_max long) as [right|] eqn:Hr; [|discriminate].
  destruct (builtin_max lat) as [top|] eqn:Ht; [|discriminate].
  cbn [bind].
  destruct (getitem long 1) as [x1|]; [|discriminate].
  destruct (getitem long 0) as [x0|]; [|discriminate].
  destruct (getitem lat 1) as [y1|]; [|discriminate].
  destruct (getitem lat 0) as [y0|]; [|discriminate].
  cbn [bind fst snd].
  apply builtin_min_le in Hl, Hb. apply builtin_max_ge in Hr, Ht.
  rewrite Forall_forall in Hl, Hb, Hr, Ht.
  destruct (String.eqb_spec type "true") as [->|Htrue].
  { intros [= <-]. split; [now left|].
    split; apply Forall_forall; intros x Hx; auto. }
  destruct (String.eqb_spec type "edge") as [->|Hedge].
  { intros [= <-]. split; [now right|].
    split; apply Forall_forall; intros x Hx;
      apply widened; auto using half_nonneg, np_abs_nonneg. }
  intros [= <-]. split; assumption.
Qed.

Lemma calc_bounds_encloses_witness :
  ("edge"%string = "true"%string \/ "edge"%string = "edge"%string) /\
  Forall (fun x => -1 # 2 <= x /\ x <= 5 # 2) [0; 1; 2] /\
  Forall (fun y => 1 # 2 <= y /\ y <= 5 # 2) [2; 1].
Proof.
  apply (calc_bounds_encloses [2; 1] [0; 1; 2] "edge"
           (Some (-1 # 2, 1 # 2, 5 # 2, 5 # 2))).
  vm_compute. reflexivity.
Defined.

(** X15. A grid with a single latitude or a single longitude makes
    [calc_bounds] raise [IndexError] when the step is left to it, also for
    type ['true'], which does not use the step; with a step given it
    returns. *)
Theorem calc_bounds_single_coordinate (lat long : list Q) (type : string) :
  lat <> [] -> long <> [] ->
  (length lat = 1 \/ length long = 1)%nat ->
  calc_bounds [lat; long] None type = Raise IndexError /\
  forall step, is_ok (calc_bounds [lat; long] (Some step) type) = true.
Proof.
  intros Hlat Hlong Hone. unfold calc_bounds.
  replace (getitem [lat; long] 1) with (Ok long) by reflexivity.
  replace (getitem [lat; long] 0) with (Ok lat) by reflexivity.
  destruct lat as [|y0 lat]; [congruence|].
  destruct long as [|x0 long]; [congruence|].
  cbn [bind builtin_min builtin_max]. split.
  - destruct long as [|x1 long].
    + reflexivity.
    + destruct lat as [|y1 lat]; [|cbn [length] in Hone; lia].
      destruct (getitem_valid (x0 :: x1 :: long) 1) as (a1 & -> & _);
        [unfold len; cbn [length]; lia|].
      destruct (getitem_valid (x0 :: x1 :: long) 0) as (a0 & -> & _);
        [unfold len; cbn [length]; lia|].
      reflexivity.
  - intros step. destruct (String.eqb type "true"); [reflexivity|].
    destruct (String.eqb type "edge"); reflexivity.
Qed.

Lemma calc_bounds_single_coordinate_witness :
  calc_bounds [[1]; [0; 1; 2]] None "true" = Raise IndexError /\
  forall step, is_ok (calc_bounds [[1]; [0; 1; 2]] (Some step) "true") = true.
Proof.
  apply (calc_bounds_single_coordinate [1] [0; 1; 2] "true").
  - discriminate.
  - discriminate.
  - left. reflexivity.
Defined.

End BoundsMore.

(** ** More on arrows and vector fields *)

Module ProcessingMore.
Import Py PyFacts Processing Frames.

Section Arrows.
Local Open Scope R_scope.

(** The length [calc_arrow] gives an arrow, and the square of the
    distance between two points. *)
Definition arrow_length (u v : R) (autoscale : bool) (scale : R) : R :=
  if autoscale then R_sqrt.sqrt (Rabs (u * v)) * scale else scale.

Definition dist2 (p q : R * R) : R :=
  (fst p - fst q) ^ 2 + (snd p - snd q) ^ 2.

Lemma sin_cos_1 (x : R) : Rtrigo_def.sin x ^ 2 + Rtrigo_def.cos x ^ 2 = 1.
Proof. rewrite <- (sin2_cos2 x). unfold Rsqr. ring. Qed.

(** X16. Whatever the direction of the vector, the arrow of
    [calc_arrow] is a shaft centred on the grid point, of the arrow's
    length, with the tip repeated between two barbs that both lie a tenth
    of that length from the tip. *)
Theorem calc_arrow_shape (u v long lat : R) (autoscale : bool) (scale : R) :
  exists tail tip head_l head_r,
    calc_arrow u v long lat autoscale scale
    = [tail; tip; head_l; tip; head_r] /\
    (fst tail + fst tip) / 2 = long /\
    (snd tail + snd tip) / 2 = lat /\
    dist2 tail tip = arrow_length u v autoscale scale ^ 2 /\
    dist2 tip head_l = (arrow_length u v autoscale scale / 10) ^ 2 /\
    dist2 tip head_r = (arrow_length u v autoscale scale / 10) ^ 2.
Proof.
  unfold calc_arrow, arrow_length, dist2. cbv zeta.
  set (theta := arctan2 v u).
  set (length := if autoscale then R_sqrt.sqrt (Rabs (u * v)) * scale else scale).
  set (al := theta + (radians 270 - radians 50)).
  set (ar := theta + (radians 270 + radians 50)).
  pose proof (sin_cos_1 theta) as Ht.
  pose proof (sin_cos_1 al) as Hl.
  pose proof (sin_cos_1 ar) as Hr.
  do 4 eexists. split; [reflexivity|]. cbn [fst snd].
  split; [field|]. split; [field|]. split; [|split].
  - replace (length ^ 2)
      with (length ^ 2 * (Rtrigo_def.sin theta ^ 2 + Rtrigo_def.cos theta ^ 2))
      by (rewrite Ht; ring).
    field.
  - replace ((length / 10) ^ 2)
      with ((length / 10) ^ 2 * (Rtrigo_def.sin al ^ 2 + Rtrigo_def.cos al ^ 2))
      by (rewrite Hl; ring).
    field.
  - replace ((length / 10) ^ 2)
      with ((length / 10) ^ 2 * (Rtrigo_def.sin ar ^ 2 + Rtrigo_def.cos ar ^ 2))
      by (rewrite Hr; ring).
    field.
Qed.

(** X17. With [autoscale], a vector with no eastward or no northward
    component, however strong, gives an arrow of length zero: all five
    points are the grid point. *)
Theorem calc_arrow_autoscale_vanishes (u v long lat scale : R) :
  u * v = 0 ->
  calc_arrow u v long lat true scale
  = [(long, lat); (long, lat); (long, lat); (long, lat); (long, lat)].
Proof.
  intros Huv. unfold calc_arrow. cbv zeta. cbn [fst snd].
  rewrite Huv, Rabs_R0, sqrt_0.
  repeat (f_equal; try field).
Qed.

Lemma calc_arrow_autoscale_vanishes_witness :
  calc_arrow 10 0 3 4 true 1 = [(3, 4); (3, 4); (3, 4); (3, 4); (3, 4)].
Proof.
  apply (calc_arrow_autoscale_vanishes 10 0 3 4 1). ring.
Defined.

End Arrows.

Section GeojsonFacts.
Local Open Scope R_scope.

(** A loop whose iterations each append to the list built so far. *)
Lemma for_each_append {A B} (xs : list A)
  (body : A -> list B -> result (list B)) (f : A -> list B) (acc : list B) :
  (forall x acc, x ∈ xs -> body x acc = Ok (acc ++ f x)) ->
  for_each xs body acc = Ok (acc ++ concat (map f xs)).
Proof.
  revert acc. induction xs as [|x xs IH]; intros acc Hbody; cbn [for_each map concat].
  - rewrite app_nil_r. reflexivity.
  - rewrite Hbody by (now left). cbn [bind].
    rewrite IH by (intros y acc' Hy; apply Hbody; now right).
    rewrite <- app_assoc. reflexivity.
Qed.

Lemma concat_singletons {A B} (g : A -> B) (xs : list A) :
  concat (map (fun x => [g x]) xs) = map g xs.
Proof. induction xs as [|x xs IH]; cbn; [reflexivity|]. rewrite IH. reflexivity. Qed.

Lemma range_lookup (n : nat) (k : nat) :
  (k < n)%nat -> range 0 (Z.of_nat n) !! k = Some (Z.of_nat k).
Proof.
  intros Hk. unfold range.
  change (map ?f ?l) with (f <$> l). rewrite list_lookup_fmap.
  rewrite lookup_seq_lt by lia. cbn. f_equal.
Qed.

Lemma range_length (n : nat) : length (range 0 (Z.of_nat n)) = n.
Proof. unfold range. rewrite length_map, length_seq. lia. Qed.

(** Rows of one length laid end to end. *)
Lemma rows_lookup {B} (rows : list (list B)) (m i j : nat) :
  Forall (fun r => length r = m) rows -> (j < m)%nat ->
  concat rows !! (i * m + j)%nat = rows !! i ≫= (.!! j).
Proof.
  intros Hrows Hj. revert i.
  induction Hrows as [|r rows Hr _ IH]; intros i; [destruct i; reflexivity|].
  destruct i as [|i]; cbn [concat].
  - cbn. rewrite lookup_app_l by lia. reflexivity.
  - rewrite lookup_app_r by (cbn; lia).
    replace (S i * m + j - length r)%nat with (i * m + j)%nat by (cbn; lia).
    apply IH.
Qed.

Lemma rows_length {B} (rows : list (list B)) (m : nat) :
  Forall (fun r => length r = m) rows ->
  length (concat rows) = (length rows * m)%nat.
Proof.
  induction 1 as [|r rows Hr _ IH]; [reflexivity|].
  cbn [concat length]. rewrite length_app, IH, Hr. lia.
Qed.

(** X18. On component arrays of the shape of the grid,
    [process_frame_geojson] returns one arrow for every grid point, row
    after row: the arrow at position [i * len(long) + j] is the arrow of
    [u[i][j]] and [v[i][j]] at [(long[j], lat[i])]. *)
Theorem process_frame_geojson_arrows (u v : list (list R)) (long lat : list R)
  (autoscale : bool) (scale : R) :
  length u = length lat -> length v = length lat ->
  Forall (fun r => length r = length long) u ->
  Forall (fun r => length r = length long) v ->
  exists arrows,
    process_frame_geojson u v long lat autoscale scale = Ok arrows /\
    length arrows = (length lat * length long)%nat /\
    forall i j ui vi uij vij lo la,
      u !! i = Some ui -> ui !! j = Some uij ->
      v !! i = Some vi -> vi !! j = Some vij ->
      long !! j = Some lo -> lat !! i = Some la ->
      arrows !! (i * length long + j)%nat
      = Some (calc_arrow uij vij lo la autoscale scale).
Proof.
  intros Hu Hv Hus Hvs.
  set (arrow_at := fun i j : Z =>
         calc_arrow (nth (Z.to_nat j) (nth (Z.to_nat i) u []) 0)
           (nth (Z.to_nat j) (nth (Z.to_nat i) v []) 0)
           (nth (Z.to_nat j) long 0) (nth (Z.to_nat i) lat 0)
           autoscale scale).
  set (row := fun i : Z => map (arrow_at i) (range 0 (len long))).
  assert (Hrun : process_frame_geojson u v long lat autoscale scale
                 = Ok (concat (map row (range 0 (len lat))))).
  { unfold process_frame_geojson.
    rewrite (for_each_append _ _ row); [reflexivity|].
    intros i acc Hi. apply range_ge in Hi.
    rewrite (for_each_append _ _ (fun j => [arrow_at i j])).
    { unfold row. rewrite concat_singletons. reflexivity. }
    intros j acc' Hj. apply range_ge in Hj.
    destruct (getitem_valid u i) as (ui & Hgu & Hui); [unfold len in *; lia|].
    destruct (getitem_valid v i) as (vi & Hgv & Hvi); [unfold len in *; lia|].
    destruct (getitem_valid lat i) as (la & Hgla & Hla); [assumption|].
    destruct (getitem_valid long j) as (lo & Hglo & Hlo); [assumption|].
    rewrite Forall_lookup in Hus, Hvs.
    pose proof (Hus _ _ Hui) as Hlui. pose proof (Hvs _ _ Hvi) as Hlvi.
    destruct (getitem_valid ui j) as (uij & Hguij & Huij);
      [unfold len in *; lia|].
    destruct (getitem_valid vi j) as (vij & Hgvij & Hvij);
      [unfold len in *; lia|].
    rewrite Hgu. cbn [bind]. rewrite Hguij. cbn [bind].
    rewrite Hgv. cbn [bind]. rewrite Hgvij. cbn [bind].
    rewrite Hglo. cbn [bind]. rewrite Hgla. cbn [bind]. unfold arrow_at.
    rewrite (nth_lookup_Some u _ [] ui Hui), (nth_lookup_Some v _ [] vi Hvi),
      (nth_lookup_Some ui _ 0 uij Huij), (nth_lookup_Some vi _ 0 vij Hvij),
      (nth_lookup_Some long _ 0 lo Hlo), (nth_lookup_Some lat _ 0 la Hla).
    reflexivity. }
  assert (Hrows : Forall (fun r => length r = length long)
                    (map row (range 0 (len lat)))).
  { apply Forall_forall. intros r Hr.
    apply list_elem_of_In, in_map_iff in Hr as (i & <- & _).
    unfold row, len. rewrite length_map, range_length. reflexivity. }
  exists (concat (map row (range 0 (len lat)))).
  split; [exact Hrun|]. split.
  - rewrite (rows_length _ _ Hrows). unfold len.
    rewrite length_map, range_length. reflexivity.
  - intros i j ui vi uij vij lo la Hui Huij Hvi Hvij Hlo Hla.
    pose proof (lookup_lt_Some _ _ _ Hlo) as Hj.
    pose proof (lookup_lt_Some _ _ _ Hla) as Hi.
    rewrite (rows_lookup _ _ _ _ Hrows Hj).
    change (map row ?l) with (row <$> l). rewrite list_lookup_fmap.
    unfold len. rewrite (range_lookup _ _ Hi).
    change (row (Z.of_nat i) !! j
            = Some (calc_arrow uij vij lo la autoscale scale)).
    unfold row. change (map ?f ?l) with (f <$> l). rewrite list_lookup_fmap.
    unfold len. rewrite (range_lookup _ _ Hj).
    change (Some (arrow_at (Z.of_nat i) (Z.of_nat j))
            = Some (calc_arrow uij vij lo la autoscale scale)).
    unfold arrow_at. rewrite !Nat2Z.id.
    rewrite (nth_lookup_Some u _ [] ui Hui), (nth_lookup_Some v _ [] vi Hvi),
      (nth_lookup_Some ui _ 0 uij Huij), (nth_lookup_Some vi _ 0 vij Hvij),
      (nth_lookup_Some long _ 0 lo Hlo), (nth_lookup_Some lat _ 0 la Hla).
    reflexivity.
Qed.

Lemma process_frame_geojson_arrows_witness :
  exists arrows,
    process_frame_geojson [[1; 2]; [3; 4]] [[5; 6]; [7; 8]] [0; 1] [10; 11]
      true 1
    = Ok arrows /\
    length arrows = (length [10; 11] * length [0; 1])%nat /\
    forall i j ui vi uij vij lo la,
      [[1; 2]; [3; 4]] !! i = Some ui -> ui !! j = Some uij ->
      [[5; 6]; [7; 8]] !! i = Some vi -> vi !! j = Some vij ->
      [0; 1] !! j = Some lo -> [10; 11] !! i = Some la ->
      arrows !! (i * length [0; 1] + j)%nat
      = Some (calc_arrow uij vij lo la true 1).
Proof.
  apply (process_frame_geojson_arrows [[1; 2]; [3; 4]] [[5; 6]; [7; 8]]
           [0; 1] [10; 11] true 1).
  - reflexivity.
  - reflexivity.
  - repeat constructor.
  - repeat constructor.
Defined.

End GeojsonFacts.

Section QuiverFacts.
Local Open Scope R_scope.

Lemma sq_div_sqrt (x s : R) :
  0 < s -> (x / R_sqrt.sqrt s) ^ 2 = x ^ 2 / s.
Proof.
  intros Hs. pose proof (sqrt_lt_R0 s Hs) as Hm.
  pose proof (pow2_sqrt s ltac:(lra)) as Hm2.
  rewrite <- Hm2 at 2. field. lra.
Qed.

(** The arithmetic of one cell: with both components non-zero, the
    pair the two assignments leave has norm 1 only if the pair they were
    given had. *)
Lemma normalised_cell_unit (u v : R) :
  u <> 0 -> v <> 0 ->
  (u / R_sqrt.sqrt (u ^ 2 + v ^ 2)) ^ 2 +
  (v / R_sqrt.sqrt ((u / R_sqrt.sqrt (u ^ 2 + v ^ 2)) ^ 2 + v ^ 2)) ^ 2 = 1
  <-> u ^ 2 + v ^ 2 = 1.
Proof.
  intros Hu Hv.
  assert (Ha : 0 < u ^ 2)
    by (replace (u ^ 2) with (Rsqr u) by (unfold Rsqr; ring);
        apply Rlt_0_sqr; assumption).
  assert (Hb : 0 < v ^ 2)
    by (replace (v ^ 2) with (Rsqr v) by (unfold Rsqr; ring);
        apply Rlt_0_sqr; assumption).
  set (a := u ^ 2) in *. set (b := v ^ 2) in *.
  rewrite (sq_div_sqrt u (a + b)) by lra. fold a.
  assert (Hx : 0 < a / (a + b)) by (apply Rdiv_lt_0_compat; lra).
  rewrite (sq_div_sqrt v (a / (a + b) + b)) by lra. fold b.
  set (x := a / (a + b)) in *.
  assert (Hxs : x * (a + b) = a) by (unfold x; field; lra).
  set (y := b / (x + b)).
  assert (Hyw : y * (x + b) = b) by (unfold y; field; lra).
  split.
  - intros Hsum.
    assert (Hy : y = 1 - x) by lra.
    rewrite Hy in Hyw.
    assert (Hxb : x * (1 - x - b) = 0) by lra.
    apply Rmult_integral in Hxb as [Hx0|Hx1]; [lra|].
    assert (Hx' : x = 1 - b) by lra.
    rewrite Hx' in Hxs.
    assert (Hbs : b * (1 - (a + b)) = 0) by lra.
    apply Rmult_integral in Hbs as [Hb0|Hs]; lra.
  - intros Hs.
    assert (Hxa : x = a) by (unfold x; rewrite Hs; field).
    assert (Hyb : y = b) by (unfold y; rewrite Hxa, Hs; field).
    lra.
Qed.

(** X19. Without [autoscale], [process_frame_quiver] divides [dst_v]
    by a norm taken with the [dst_u] it has just normalised: in exact
    arithmetic, at a cell where both components are non-zero, the vector
    it plots has length 1 exactly when the vector it was given had. *)
Theorem normalise_unit_only_if_unit (dst_u dst_v : list (list R))
  (i j : nat) (ru rv : list R) (u v : R) :
  dst_u !! i = Some ru -> ru !! j = Some u ->
  dst_v !! i = Some rv -> rv !! j = Some v ->
  u <> 0 -> v <> 0 ->
  exists u' v',
    (normalise dst_u dst_v).1 !! i ≫= (.!! j) = Some u' /\
    (normalise dst_u dst_v).2 !! i ≫= (.!! j) = Some v' /\
    u' = u / R_sqrt.sqrt (u ^ 2 + v ^ 2) /\
    v' = v / R_sqrt.sqrt (u' ^ 2 + v ^ 2) /\
    (u' ^ 2 + v' ^ 2 = 1 <-> u ^ 2 + v ^ 2 = 1).
Proof.
  intros Hru Hu Hrv Hv Hu0 Hv0.
  exists (u / R_sqrt.sqrt (u ^ 2 + v ^ 2)).
  exists (v / R_sqrt.sqrt ((u / R_sqrt.sqrt (u ^ 2 + v ^ 2)) ^ 2 + v ^ 2)).
  unfold normalise. cbv zeta. cbn [fst snd].
  assert (Hfirst :
    zip_with (zip_with (fun u v => u / R_sqrt.sqrt (u ^ 2 + v ^ 2)))
      dst_u dst_v !! i
    = Some (zip_with (fun u v => u / R_sqrt.sqrt (u ^ 2 + v ^ 2)) ru rv)).
  { rewrite lookup_zip_with, Hru, Hrv. reflexivity. }
  split; [|split; [|split; [reflexivity|split; [reflexivity|]]]].
  - rewrite Hfirst.
    change (Some ?l ≫= lookup j) with (l !! j).
    rewrite lookup_zip_with, Hu, Hv. reflexivity.
  - rewrite lookup_zip_with, Hfirst, Hrv.
    cbn -[pow].
    rewrite !lookup_zip_with, Hu, Hv. reflexivity.
  - apply normalised_cell_unit; assumption.
Qed.

Lemma normalise_unit_only_if_unit_witness :
  exists u' v',
    (normalise [[3]] [[4]]).1 !! 0%nat ≫= (.!! 0%nat) = Some u' /\
    (normalise [[3]] [[4]]).2 !! 0%nat ≫= (.!! 0%nat) = Some v' /\
    u' = 3 / R_sqrt.sqrt (3 ^ 2 + 4 ^ 2) /\
    v' = 4 / R_sqrt.sqrt (u' ^ 2 + 4 ^ 2) /\
    (u' ^ 2 + v' ^ 2 = 1 <-> 3 ^ 2 + 4 ^ 2 = 1).
Proof.
  apply (normalise_unit_only_if_unit [[3]] [[4]] 0 0 [3] [4] 3 4).
  - reflexivity.
  - reflexivity.
  - reflexivity.
  - reflexivity.
  - lra.
  - lra.
Defined.

End QuiverFacts.

End ProcessingMore.

(** ** Dispatch and composition *)

Module CompositionMore.
Import Py PyFacts Selection SelectionFacts Layer RasterLayer.
Local Open Scope Q_scope.

(** X20. Which path a drawn rectangle takes depends on the order of
    its corners: the ring that starts along a vertical edge is a
    rectangle for [is_rectangle] and goes to [find_selection_rectangle];
    the same rectangle with its ring started along a horizontal edge is
    not, and goes to [find_selection_polygon]. *)
Theorem find_selection_by_vertex_order (L : pylib) (a b c d : Q)
  (lat long : list Q) :
  ~ a == b ->
  find_selection L (polygon_of [(a, c); (a, d); (b, d); (b, c); (a, c)])
    lat long
  = (let* m := find_selection_rectangle
                 [(a, c); (a, d); (b, d); (b, c); (a, c)] lat long in
     Ok (Some m)) /\
  find_selection L (polygon_of [(a, c); (b, c); (b, d); (a, d); (a, c)])
    lat long
  = (let* m := find_selection_polygon L
                 [(a, c); (b, c); (b, d); (a, d); (a, c)] lat long in
     Ok (Some m)).
Proof.
  intros Hab. unfold find_selection, polygon_of.
  cbn [geometry_type geometry_coordinates String.eqb Ascii.eqb Bool.eqb].
  split.
  - match goal with |- bind ?g _ = _ =>
      let r := eval cbv in g in change g with r end.
    cbn [bind is_rectangle fst snd]. rewrite !Qeq_bool_refl. reflexivity.
  - match goal with |- bind ?g _ = _ =>
      let r := eval cbv in g in change g with r end.
    cbn [bind is_rectangle fst snd].
    destruct (Qeq_bool a b) eqn:Heq.
    + apply Qeq_bool_iff in Heq. contradiction.
    + reflexivity.
Qed.

Lemma find_selection_by_vertex_order_witness :
  find_selection rational_math
    (polygon_of [(1, 0); (1, 2); (3, 2); (3, 0); (1, 0)]) lat4 long6
  = (let* m := find_selection_rectangle
                 [(1, 0); (1, 2); (3, 2); (3, 0); (1, 0)] lat4 long6 in
     Ok (Some m)) /\
  find_selection rational_math
    (polygon_of [(1, 0); (3, 0); (3, 2); (1, 2); (1, 0)]) lat4 long6
  = (let* m := find_selection_polygon rational_math
                 [(1, 0); (3, 0); (3, 2); (1, 2); (1, 0)] lat4 long6 in
     Ok (Some m)).
Proof.
  apply (find_selection_by_vertex_order rational_math 1 3 0 2 lat4 long6).
  discriminate.
Defined.

(** X21. After [update_frame(i)], whether it returned or raised,
    [get_selection] reads the data of time step [i] (of the step after
    the current one when [i] is [None]): [self.frame] is set before the
    cache is indexed, so after an index out of range [get_selection] raises
    [IndexError] in its turn. *)
Theorem get_selection_after_update_frame {V bbox affine artifact : Type}
  (L : pylib)
  (process_frame_raster : grid V -> bbox -> affine -> string -> artifact)
  (s : RasterLayer.state V bbox affine artifact) (i : option Z)
  (sel : selection_arg) :
  get_selection L (update_frame process_frame_raster i s).2.1 sel
  = (let* m := selection_mask L sel (fst (coords s.1)) (snd (coords s.1)) in
     let* d := getitem (data s.1)
                 (match i with None => (frame s.1 + 1)%Z | Some i => i end) in
     np_ma_array d m).
Proof.
  destruct s as [l e]. rewrite RasterMore.update_frame_run. cbv zeta.
  cbn [fst snd].
  set (i0 := match i with None => (frame l + 1)%Z | Some i => i end).
  unfold get_selection.
  destruct (getitem (cache l) i0) as [[|a]|err];
    [|reflexivity|reflexivity].
  destruct (getitem (data l) i0) as [d0|err] eqn:Hd;
    [|cbn [fst snd set_frame coords data frame]; rewrite Hd; reflexivity].
  destruct (norm_index (len (cache l)) i0) as [k|err];
    cbn [fst snd set_frame set_url set_cache coords data frame];
    rewrite Hd; reflexivity.
Qed.

End CompositionMore.
